(** * Visitor-log kiosk (app.py): reporting, codec and export pipeline

    A shallow embedding of the pure parts of [app.py] and of the record
    store it talks to, with the properties of the accompanying
    specification that concern them.

    Conventions of the embedding:
    - a Python [str] is a list of Unicode code points ([list N]); literals
      of the source are written as UTF-8 string literals and decoded by [u];
    - Python integers are [Z]; a value that can be [None] is an [option];
    - a pandas [DataFrame] read from the [visits] table is the list of its
      rows, in row order;
    - the SQLite table is a list of rows together with the AUTOINCREMENT
      counter, threaded explicitly through the store operations;
    - code that can raise ([list] index, [dict] key) returns an [option]. *)

From Stdlib Require Import ZArith NArith QArith Qround Qabs Lia Lqa String Ascii List Permutation Sorted.
From stdpp Require Import base list option numbers gmap.
Import ListNotations.
Open Scope Z_scope.

Ltac Zify.zify_post_hook ::= Z.to_euclidean_division_equations.

(** Closes a decidable closed proposition by evaluation. *)
Ltac by_decide :=
  match goal with
  | |- ?P => apply (@bool_decide_unpack P _); vm_compute; exact I
  end.

(** ** Python strings *)

Module PyStr.

Abbreviation str := (list N).

(** UTF-8 decoding of a string literal into code points. *)
Fixpoint utf8_decode (bs : list N) : str :=
  match bs with
  | [] => []
  | b0 :: r0 =>
    if (b0 <? 128)%N then b0 :: utf8_decode r0
    else match r0 with
    | [] => []
    | b1 :: r1 =>
      if (b0 <? 224)%N then ((b0 - 192) * 64 + (b1 - 128))%N :: utf8_decode r1
      else match r1 with
      | [] => []
      | b2 :: r2 =>
        if (b0 <? 240)%N
        then ((b0 - 224) * 4096 + (b1 - 128) * 64 + (b2 - 128))%N :: utf8_decode r2
        else match r2 with
        | [] => []
        | b3 :: r3 =>
          ((b0 - 240) * 262144 + (b1 - 128) * 4096 + (b2 - 128) * 64 + (b3 - 128))%N
            :: utf8_decode r3
        end
      end
    end
  end.

Definition u (s : string) : str :=
  utf8_decode (List.map N_of_ascii (list_ascii_of_string s)).

(** [str.isspace] on one code point, as used by [str.strip()] without
    argument: the Unicode white-space characters. *)
Definition is_space (c : N) : bool :=
  ((9 <=? c) && (c <=? 13) || (28 <=? c) && (c <=? 32) || (c =? 133) || (c =? 160)
   || (c =? 5760) || (8192 <=? c) && (c <=? 8202) || (c =? 8232) || (c =? 8233)
   || (c =? 8239) || (c =? 8287) || (c =? 12288))%N.

Fixpoint lstrip (s : str) : str :=
  match s with
  | [] => []
  | c :: s' => if is_space c then lstrip s' else s
  end.

Fixpoint rstrip (s : str) : str :=
  match s with
  | [] => []
  | c :: s' =>
    match rstrip s' with
    | [] => if is_space c then [] else [c]
    | r => c :: r
    end
  end.

(** [s.strip()] *)
Definition strip (s : str) : str := rstrip (lstrip s).

(** [s.startswith(p)] *)
Fixpoint startswith (p s : str) : bool :=
  match p, s with
  | [], _ => true
  | _ :: _, [] => false
  | a :: p', b :: s' => (a =? b)%N && startswith p' s'
  end.

(** [s.split(sep)] with an explicit separator: the pieces between the
    non-overlapping occurrences of [sep], scanned from the left; always at
    least one piece.  [skip] counts the characters of a separator occurrence
    still to be passed over, [cur] is the piece being read.  Python raises
    [ValueError] on an empty separator; every call in the program passes a
    literal, and the model returns the string itself in that case. *)
Fixpoint split_go (sep : str) (skip : nat) (cur : str) (s : str) : list str :=
  match s with
  | [] => [cur]
  | c :: s' =>
    match skip with
    | S k => split_go sep k cur s'
    | O =>
      if startswith sep s
      then cur :: split_go sep (length sep - 1) [] s'
      else split_go sep 0 (cur ++ [c]) s'
    end
  end.

Definition split (sep : str) (s : str) : list str :=
  match sep with
  | [] => [s]
  | _ :: _ => split_go sep 0 [] s
  end.

(** [sep.join(l)] *)
Fixpoint join (sep : str) (l : list str) : str :=
  match l with
  | [] => []
  | [x] => x
  | x :: l' => x ++ sep ++ join sep l'
  end.

(** [s.replace(old, new, 1)]: the leftmost occurrence only. *)
Fixpoint replace_first (old new s : str) : str :=
  if startswith old s then new ++ drop (length old) s
  else match s with
       | [] => []
       | c :: s' => c :: replace_first old new s'
       end.

(** [str(x)] of a value that is a string or [None]. *)
Definition py_str (x : option str) : str :=
  match x with
  | Some s => s
  | None => u "None"
  end.

(** [x or ""] *)
Definition or_empty (x : option str) : str := default [] x.

Definition nonempty (s : str) : bool :=
  match s with [] => false | _ :: _ => true end.

End PyStr.
Import PyStr.

(** ** Option lists of the form (lines 31-44) *)

Definition GENDER_OPTIONS : list str :=
  Eval vm_compute in [u "여성"; u "남성"; u "기타"].
Definition AGE_OPTIONS : list str :=
  Eval vm_compute in [u "만19~24세"; u "만25~29세"; u "만30~34세"; u "만35~39세"].
Definition RESIDENCE_OPTIONS : list str :=
  Eval vm_compute in
    [u "안양시 동안구"; u "안양시 만안구"; u "안양시 비거주(안양활동 청년)"; u "기타"].
Definition VISIT_TYPE_OPTIONS : list str :=
  Eval vm_compute in [u "첫방문"; u "재방문(2회 이상)"].

Definition PURPOSE_OPTIONS : list str :=
  Eval vm_compute in
    [ u "공간 프로그램 참여";
      u "공부 및 개인작업";
      u "미팅 및 워크숍";
      u "공용PC, 프린터";
      u "간단한 식사 공간";
      u "청년 공간이 궁금해서";
      u "기타" ].

(** The literals ["기타"], ["기타:"], [","] and [", "]. *)
Definition GITA : str := Eval vm_compute in u "기타".
Definition GITA_COLON : str := Eval vm_compute in u "기타:".
Definition COMMA : str := Eval vm_compute in u ",".
Definition COMMA_SP : str := Eval vm_compute in u ", ".

(** ** The record store (lines 48-126)

    The [visits] table.  A TEXT column holds a string or NULL.  [sqlite_sequence]
    is the value kept in the table of that name (0 when it has no entry). *)

Module Store.

Record visit := Visit {
  id : Z;
  created_at : option str;
  visit_date : option str;
  gender : option str;
  age_group : option str;
  residence : option str;
  purpose : option str;
  visit_type : option str
}.

Record db := Db {
  visits : list visit;
  sqlite_sequence : Z
}.

(** Largest rowid in the table (0 for an empty table). *)
Definition max_id (rows : list visit) : Z :=
  foldr (fun r m => Z.max (id r) m) 0 rows.

(** [insert_visit]: AUTOINCREMENT takes one more than the largest rowid that
    ever existed; [now] stands for [datetime.now().isoformat(...)]. *)
Definition insert_visit (now : str) (visit_date gender age residence purpose visit_type : option str)
    (d : db) : db :=
  let new_id := Z.max (sqlite_sequence d) (max_id (visits d)) + 1 in
  Db (visits d ++ [Visit new_id (Some now) visit_date gender age residence purpose visit_type])
     new_id.

(** [get_visit_by_id]: the rows selected by [WHERE id = ?]. *)
Definition get_visit_by_id (record_id : Z) (d : db) : list visit :=
  filter (fun r => id r = record_id) (visits d).

(** [delete_visit]: [DELETE ... WHERE id = ?]; returns [cur.rowcount]. *)
Definition delete_visit (record_id : Z) (d : db) : db * Z :=
  let deleted := Z.of_nat (length (filter (fun r => id r = record_id) (visits d))) in
  (Db (filter (fun r => id r <> record_id) (visits d)) (sqlite_sequence d), deleted).

(** [update_visit]: [UPDATE ... SET ... WHERE id = ?]; returns [cur.rowcount]. *)
Definition update_visit (record_id : Z)
    (visit_date gender age residence purpose visit_type : option str) (d : db) : db * Z :=
  let updated := Z.of_nat (length (filter (fun r => id r = record_id) (visits d))) in
  (Db (List.map (fun r =>
          if decide (id r = record_id)
          then Visit (id r) (created_at r) visit_date gender age residence purpose visit_type
          else r) (visits d))
      (sqlite_sequence d),
   updated).

(** [reset_all_data]: empties the table and drops its [sqlite_sequence] entry. *)
Definition reset_all_data (d : db) : db := Db [] 0.

End Store.
Import Store.

(** A [DataFrame] of visit rows. *)
Abbreviation DataFrame := (list visit).

(** ** Purpose codec *)

Module Codec.

(** [visitor_submit], lines 163-165 (and [admin_update_one], 455-457):
    the list of tokens; [other] has been stripped already. *)
Definition purpose_plist (purposes : list str) (other : str) : list str :=
  let plist := filter (fun p => p <> GITA) purposes in
  if decide (GITA ∈ purposes)
  then plist ++ [if nonempty other then GITA_COLON ++ other else GITA]
  else plist.

(** The purpose string [visitor_submit] stores (lines 150, 163-165, 173). *)
Definition visitor_submit_purpose_str (purposes : list str) (other : option str) : str :=
  let other := strip (or_empty other) in
  join COMMA_SP (purpose_plist purposes other).

Inductive submit_msg :=
  | WarnGender | WarnAge | WarnResidence | WarnVisitType | WarnPurpose | Saved.

(** [visitor_submit] (lines 148-186); [today] and [now] stand for the clock
    readings.  The store never fails in this model, so the retry loop around
    [insert_visit] runs its body once. *)
Definition visitor_submit (today now : str)
    (gender age residence : option str) (purposes : list str)
    (visit_type other : option str) (d : db) : submit_msg * db :=
  match gender, age, residence, visit_type, purposes with
  | None, _, _, _, _ => (WarnGender, d)
  | _, None, _, _, _ => (WarnAge, d)
  | _, _, None, _, _ => (WarnResidence, d)
  | _, _, _, None, _ => (WarnVisitType, d)
  | _, _, _, _, [] => (WarnPurpose, d)
  | _, _, _, _, _ =>
    (Saved,
     insert_visit now (Some today) gender age residence
       (Some (visitor_submit_purpose_str purposes other)) visit_type d)
  end.

(** [[x.strip() for x in purpose_str.split(",") if x.strip()]] (line 422). *)
Definition purpose_items (purpose_str : str) : list str :=
  filter (fun x => x <> []) (List.map strip (split COMMA purpose_str)).

(** One iteration of the loop of [admin_fetch_one] (lines 425-432) on the
    state [(purposes, other_text)]. *)
Definition fetch_step (st : list str * str) (it : str) : list str * str :=
  let '(purposes, other_text) := st in
  if startswith GITA_COLON it
  then (purposes ++ [GITA], strip (replace_first GITA_COLON [] it))
  else if decide (it = GITA) then (purposes ++ [GITA], other_text)
  else if decide (it ∈ PURPOSE_OPTIONS) then (purposes ++ [it], other_text)
  else st.

(** [admin_fetch_one], lines 422-432: the selected purposes and the other-text
    recovered from a stored purpose string. *)
Definition admin_fetch_one_purposes (purpose_str : str) : list str * str :=
  foldl fetch_step ([], []) (purpose_items purpose_str).

End Codec.
Import Codec.

(** ** Aggregator (lines 190-209) *)

Module Aggregator.

(** The TEXT columns of the table, as [df[col]] selects them. *)
Inductive column :=
  | Ccreated_at | Cvisit_date | Cgender | Cage_group | Cresidence | Cpurpose | Cvisit_type.

Definition get_col (c : column) (r : visit) : option str :=
  match c with
  | Ccreated_at => created_at r
  | Cvisit_date => visit_date r
  | Cgender => gender r
  | Cage_group => age_group r
  | Cresidence => residence r
  | Cpurpose => purpose r
  | Cvisit_type => visit_type r
  end.

(** [df is None or df.empty] *)
Definition df_empty (df : option DataFrame) : bool :=
  match df with
  | None | Some [] => true
  | Some (_ :: _) => false
  end.

Definition rows_of (df : option DataFrame) : DataFrame := default [] df.

(** The distinct values of a series, in order of first appearance. *)
Fixpoint unique (l : list str) : list str :=
  match l with
  | [] => []
  | x :: l' => x :: filter (fun y => y <> x) (unique l')
  end.

(** Number of occurrences of [x] in a series. *)
Definition count_of (x : str) (l : list str) : Z :=
  Z.of_nat (length (filter (fun y => y = x) l)).

(** Sorting by descending count, ties kept in their order. *)
Fixpoint insert_desc (e : str * Z) (l : list (str * Z)) : list (str * Z) :=
  match l with
  | [] => [e]
  | h :: t => if e.2 <? h.2 then h :: insert_desc e t else e :: l
  end.

Definition sort_desc (l : list (str * Z)) : list (str * Z) :=
  foldr insert_desc [] l.

(** [Series.value_counts()] of a series of strings: each distinct value with
    its number of occurrences, most frequent first (pandas leaves the order
    among equal counts open; the model keeps first appearance). *)
Definition value_counts (l : list str) : list (str * Z) :=
  sort_desc (List.map (fun x => (x, count_of x l)) (unique l)).

(** [c["count"].sum()] *)
Definition sum_counts (c : list (str * Z)) : Z :=
  foldr (fun e acc => e.2 + acc) 0 c.

(** [numpy.rint]: nearest integer, halves to the even neighbour.  Numbers
    are exact rationals here; the program computes in binary64. *)
Definition rint (q : Q) : Z :=
  let f := Qfloor q in
  match (q - inject_Z f ?= 1 # 2)%Q with
  | Lt => f
  | Gt => f + 1
  | Eq => if Z.even f then f else f + 1
  end.

(** [Series.round(1)]: scale by ten, [rint], scale back. *)
Definition round1 (q : Q) : Q := (inject_Z (rint (q * 10)) / 10)%Q.

(** [(c["count"] / total * 100).round(1) if total else 0] for one row. *)
Definition percent_of (count total : Z) : Q :=
  if decide (total <> 0)
  then round1 (inject_Z count / inject_Z total * 100)%Q
  else 0%Q.

(** Lines 195-198 and 206-209: name the columns, add the percent column. *)
Definition with_percent (c : list (str * Z)) : list (str * Z * Q) :=
  let total := sum_counts c in
  List.map (fun e => (e.1, e.2, percent_of e.2 total)) c.

Record ratio_table := RatioTable {
  columns : list str;
  body : list (str * Z * Q)
}.

Definition COUNT : str := Eval vm_compute in u "count".
Definition PERCENT : str := Eval vm_compute in u "percent".
Definition PURPOSE_LABEL : str := Eval vm_compute in u "방문 목적".

(** [calc_ratio(df, col, label)] *)
Definition calc_ratio (df : option DataFrame) (col : column) (label : str) : ratio_table :=
  if df_empty df then RatioTable [label; COUNT; PERCENT] []
  else
    let s := List.map (fun r => or_empty (get_col col r)) (rows_of df) in
    let c := value_counts s in
    RatioTable [label; COUNT; PERCENT] (with_percent c).

(** [df["purpose"].fillna("").astype(str).str.split(", ").explode()] *)
Definition explode_purpose (rows : DataFrame) : list str :=
  concat (List.map (fun r => split COMMA_SP (or_empty (purpose r))) rows).

(** [calc_purpose_ratio(df)] *)
Definition calc_purpose_ratio (df : option DataFrame) : ratio_table :=
  if df_empty df then RatioTable [PURPOSE_LABEL; COUNT; PERCENT] []
  else
    let temp := explode_purpose (rows_of df) in
    let temp := filter (fun x => x <> []) temp in
    let c := value_counts temp in
    RatioTable [PURPOSE_LABEL; COUNT; PERCENT] (with_percent c).

End Aggregator.
Import Aggregator.

(** ** Calendar dates

    [datetime.date] values, with the ordinal arithmetic of CPython's
    [datetime] module (day 1 is 0001-01-01, a Monday). *)

Module Calendar.

Record date := Date { year : Z; month : Z; day : Z }.

#[global] Instance date_eq_dec : EqDecision date.
Proof. solve_decision. Defined.

Definition is_leap (y : Z) : bool :=
  (y mod 4 =? 0) && (negb (y mod 100 =? 0) || (y mod 400 =? 0)).

Definition days_in_month (y m : Z) : Z :=
  if m =? 2 then (if is_leap y then 29 else 28)
  else if (m =? 4) || (m =? 6) || (m =? 9) || (m =? 11) then 30
  else 31.

(** Days before January 1st of year [y]. *)
Definition days_before_year (y : Z) : Z :=
  let y := y - 1 in y * 365 + y / 4 - y / 100 + y / 400.

(** Days of a common year before the first day of month [m]. *)
Definition DAYS_BEFORE_MONTH (m : Z) : Z :=
  nth (Z.to_nat m) [0; 0; 31; 59; 90; 120; 151; 181; 212; 243; 273; 304; 334] 0.

Definition days_before_month (y m : Z) : Z :=
  DAYS_BEFORE_MONTH m + (if (2 <? m) && is_leap y then 1 else 0).

(** [date.toordinal()] *)
Definition toordinal (d : date) : Z :=
  days_before_year (year d) + days_before_month (year d) (month d) + day d.

(** The dates the [date] constructor accepts.  [strptime] with [%Y] only
    produces years up to 9999. *)
Definition valid_date (d : date) : bool :=
  (1 <=? year d) && (1 <=? month d) && (month d <=? 12)
  && (1 <=? day d) && (day d <=? days_in_month (year d) (month d)).

(** Month and day of the [n]-th day (from 0) of a year. *)
Definition month_day (leap : bool) (n : Z) : Z * Z :=
  let m := Z.shiftr (n + 50) 5 in
  let preceding := DAYS_BEFORE_MONTH m + (if (2 <? m) && leap then 1 else 0) in
  if n <? preceding
  then
    let m' := m - 1 in
    let preceding' := DAYS_BEFORE_MONTH m' + (if (2 <? m') && leap then 1 else 0) in
    (m', n - preceding' + 1)
  else (m, n - preceding + 1).

(** The date of day [n] (from 0) of a 400-year cycle, the cycle's years
    numbered from 1: 100-year, 4-year and 1-year cycles, as [_ord2ymd]. *)
Definition ord2ymd_cycle (n : Z) : date :=
  let n100 := n / 36524 in
  let n := n mod 36524 in
  let n4 := n / 1461 in
  let n := n mod 1461 in
  let n1 := n / 365 in
  let n := n mod 365 in
  let y := n100 * 100 + n4 * 4 + n1 + 1 in
  if (n1 =? 4) || (n100 =? 4) then Date (y - 1) 12 31
  else
    let leapyear := (n1 =? 3) && (negb (n4 =? 24) || (n100 =? 3)) in
    let '(m, d) := month_day leapyear n in
    Date y m d.

(** [date.fromordinal(n)] *)
Definition fromordinal (n : Z) : date :=
  let n400 := (n - 1) / 146097 in
  let d := ord2ymd_cycle ((n - 1) mod 146097) in
  Date (n400 * 400 + year d) (month d) (day d).

(** [weekday()]: Monday is 0, Sunday is 6. *)
Definition weekday (d : date) : Z := (toordinal d + 6) mod 7.

(** [a < b] on dates. *)
Definition date_lt (a b : date) : bool :=
  (year a <? year b)
  || (year a =? year b)
     && ((month a <? month b) || (month a =? month b) && (day a <? day b)).

Definition date_le (a b : date) : bool := negb (date_lt b a).

(** A decimal digit.  [\d] of Python's [re] also matches the decimal digits
    of other scripts; the model reads the ASCII digits only. *)
Definition digit (c : N) : option Z :=
  if ((48 <=? c) && (c <=? 57))%N then Some (Z.of_N c - 48) else None.

Definition in_range (lo hi c : N) : bool := ((lo <=? c) && (c <=? hi))%N.

(** [%m]: the alternatives [1[0-2]], [0[1-9]], [[1-9]], tried in this
    order, each followed by the ["-"] of the format. *)
Definition month_two (s : str) : option (Z * str) :=
  match s with
  | m1 :: m2 :: c :: r =>
    if ((m1 =? 49)%N && in_range 48 50 m2 || (m1 =? 48)%N && in_range 49 57 m2)
       && (c =? 45)%N
    then Some (10 * (Z.of_N m1 - 48) + (Z.of_N m2 - 48), r)
    else None
  | _ => None
  end.

Definition month_one (s : str) : option (Z * str) :=
  match s with
  | m1 :: c :: r =>
    if in_range 49 57 m1 && (c =? 45)%N then Some (Z.of_N m1 - 48, r) else None
  | _ => None
  end.

Definition parse_month (s : str) : option (Z * str) :=
  match month_two s with
  | Some x => Some x
  | None => month_one s
  end.

(** [%d]: the alternatives [3[0-1]], [[1-2]\d], [0[1-9]], [[1-9]], [ [1-9]];
    nothing may follow. *)
Definition parse_day (s : str) : option Z :=
  match s with
  | [d1; d2] =>
    if (d1 =? 51)%N && in_range 48 49 d2
       || in_range 49 50 d1 && in_range 48 57 d2
       || (d1 =? 48)%N && in_range 49 57 d2
    then Some (10 * (Z.of_N d1 - 48) + (Z.of_N d2 - 48))
    else if (d1 =? 32)%N && in_range 49 57 d2 then Some (Z.of_N d2 - 48)
    else None
  | [d1] => if in_range 49 57 d1 then Some (Z.of_N d1 - 48) else None
  | _ => None
  end.

(** [datetime.strptime(s, "%Y-%m-%d").date()]; [None] stands for the
    [ValueError] of a string that does not match or names no date. *)
Definition strptime (s : str) : option date :=
  match s with
  | y1 :: y2 :: y3 :: y4 :: c :: rest =>
    a ← digit y1; b ← digit y2; c3 ← digit y3; e ← digit y4;
    if (c =? 45)%N then
      '(m, rest') ← parse_month rest;
      d ← parse_day rest';
      let dt := Date (1000 * a + 100 * b + 10 * c3 + e) m d in
      if valid_date dt then Some dt else None
    else None
  | _ => None
  end.

Definition digit_char (n : Z) : N := Z.to_N (48 + n).

(** [d.strftime("%Y-%m-%d")], the year on four digits. *)
Definition strftime (d : date) : str :=
  [ digit_char (year d / 1000); digit_char (year d / 100 mod 10);
    digit_char (year d / 10 mod 10); digit_char (year d mod 10); 45%N;
    digit_char (month d / 10); digit_char (month d mod 10); 45%N;
    digit_char (day d / 10); digit_char (day d mod 10) ].

(** [pd.date_range(start=a, end=b, freq="D")]: every day from [a] to [b]
    (none when [b] is before [a]).  pandas keeps these days as nanosecond
    timestamps, which reach from 1677 to 2262; the model has no such bound. *)
Definition date_range (a b : date) : list date :=
  List.map fromordinal (seqZ (toordinal a) (toordinal b - toordinal a + 1)).

End Calendar.
Import Calendar.

(** ** Daily counts (lines 213-253) *)

Module Daily.

(** The four messages of [make_daily_counts], with the numbers the last one
    prints; [avg] is an exact rational where the program has a float. *)
Inductive daily_msg :=
  | MsgBadFormat
  | MsgEndBeforeStart
  | MsgNoDays (start end_ : str)
  | MsgSummary (start end_ : str) (excluded_sundays num_days total : Z) (avg : Q).

(** [daily["날짜"].map(vc).fillna(0).astype(int)] for one date. *)
Definition vc_get (vc : list (str * Z)) (x : str) : Z :=
  match list_find (fun e => e.1 = x) vc with
  | Some (_, e) => e.2
  | None => 0
  end.

Definition sum_Z (l : list Z) : Z := foldr Z.add 0 l.

Definition make_daily_counts (df : option DataFrame) (start end_ : str)
    : list (str * Z) * daily_msg :=
  match strptime start, strptime end_ with
  | Some start_dt, Some end_dt =>
    if date_lt end_dt start_dt then ([], MsgEndBeforeStart)
    else
      let all_days := date_range start_dt end_dt in
      let days_no_sun := filter (fun d => weekday d <> 6) all_days in
      if decide (length days_no_sun = 0%nat) then ([], MsgNoDays start end_)
      else
        let num_days := Z.of_nat (length days_no_sun) in
        let '(daily, total, avg) :=
          if df_empty df
          then (List.map (fun d => (strftime d, 0)) days_no_sun, 0, 0%Q)
          else
            let vc := value_counts (List.map (fun r => py_str (visit_date r)) (rows_of df)) in
            let daily := List.map (fun d => (strftime d, vc_get vc (strftime d))) days_no_sun in
            let total := sum_Z (List.map snd daily) in
            (daily, total,
             if decide (num_days <> 0) then (inject_Z total / inject_Z num_days)%Q else 0%Q)
        in
        let excluded_sundays :=
          Z.of_nat (length (filter (fun d => weekday d = 6) all_days)) in
        (daily, MsgSummary start end_ excluded_sundays num_days total avg)
  | _, _ => ([], MsgBadFormat)
  end.

End Daily.
Import Daily.

(** ** Checksheet matrix (lines 257-302) *)

Module Checksheet.

Definition SERIAL : str := Eval vm_compute in u "연번".
Definition TOTAL : str := Eval vm_compute in u "합계".

(** One iteration of the loop of [purpose_to_flags] (lines 261-266). *)
Definition flag_step (flags : gmap str Z) (it : str) : gmap str Z :=
  if startswith GITA_COLON it || bool_decide (it = GITA) then <[GITA := 1]> flags
  else if decide (is_Some (flags !! it)) then <[it := 1]> flags
  else flags.

(** [{p: 0 for p in PURPOSE_OPTIONS}] *)
Definition zero_flags : gmap str Z :=
  foldl (fun m p => <[p := 0]> m) ∅ PURPOSE_OPTIONS.

(** The items of line 259. *)
Definition flag_items (purpose_str : option str) : list str :=
  let s := strip (or_empty purpose_str) in
  filter (fun x => x <> []) (List.map strip (split COMMA s)).

Definition purpose_to_flags (purpose_str : option str) : gmap str Z :=
  foldl flag_step zero_flags (flag_items purpose_str).

Definition sub_headers : list str :=
  [SERIAL] ++ GENDER_OPTIONS ++ AGE_OPTIONS ++ RESIDENCE_OPTIONS
  ++ PURPOSE_OPTIONS ++ VISIT_TYPE_OPTIONS.

(** [[1 if k == v else 0 for k in options]] *)
Definition one_hot (v : str) (options : list str) : list Z :=
  List.map (fun k => if decide (k = v) then 1 else 0) options.

(** The body of the loop over [df.iterrows()] (lines 281-294); a missing
    key of [p_flags] would be a [KeyError]. *)
Definition build_row (r : visit) : option (list Z) :=
  let rid := id r in
  let gender := py_str (gender r) in
  let age := py_str (age_group r) in
  let residence := py_str (residence r) in
  let visit_type := py_str (visit_type r) in
  let p_flags := purpose_to_flags (Some (py_str (purpose r))) in
  pf ← mapM (fun k => p_flags !! k) PURPOSE_OPTIONS;
  Some ([rid] ++ one_hot gender GENDER_OPTIONS ++ one_hot age AGE_OPTIONS
        ++ one_hot residence RESIDENCE_OPTIONS ++ pf
        ++ one_hot visit_type VISIT_TYPE_OPTIONS).

(** A cell of the totals row: a number, or the marker of column 0. *)
Inductive cell := CInt (n : Z) | CStr (s : str).

Fixpoint foldlM {A B : Type} (f : A -> B -> option A) (a : A) (l : list B) : option A :=
  match l with
  | [] => Some a
  | x :: l' => a' ← f a x; foldlM f a' l'
  end.

(** [sums[j] += int(row[j])]: an index out of range or a string cell raises. *)
Definition add_cell (row : list Z) (sums : list cell) (j : nat) : option (list cell) :=
  x ← row !! j;
  s ← sums !! j;
  match s with
  | CInt a => Some (<[j := CInt (a + x)]> sums)
  | CStr _ => None
  end.

(** [for j in range(1, len(sub_headers)): ...] for one row. *)
Definition add_row (sums : list cell) (row : list Z) : option (list cell) :=
  foldlM (add_cell row) sums (List.seq 1 (length sub_headers - 1)).

Definition build_checksheet_matrix (df : DataFrame)
    : option (list str * list cell * list (list Z)) :=
  rows ← mapM build_row df;
  let sums := replicate (length sub_headers) (CInt 0) in
  let sums := <[0%nat := CStr TOTAL]> sums in
  sums ← foldlM add_row sums rows;
  Some (sub_headers, sums, rows).

End Checksheet.
Import Checksheet.

(** ** Range query (lines 83-90) *)

Module Queries.

(** Comparison of two TEXT values under SQLite's BINARY collation: byte by
    byte on the UTF-8 encoding, a proper prefix first.  UTF-8 keeps the order
    of the code points. *)
Fixpoint str_cmp (a b : str) : comparison :=
  match a, b with
  | [], [] => Eq
  | [], _ :: _ => Lt
  | _ :: _, [] => Gt
  | x :: a', y :: b' =>
    match (x ?= y)%N with
    | Eq => str_cmp a' b'
    | c => c
    end
  end.

Definition str_le (a b : str) : bool :=
  match str_cmp a b with
  | Gt => false
  | _ => true
  end.

(** [visit_date BETWEEN ? AND ?]; a NULL date satisfies no comparison. *)
Definition between (start end_ : str) (r : visit) : bool :=
  match visit_date r with
  | Some v => str_le start v && str_le v end_
  | None => false
  end.

(** [ORDER BY id ASC] *)
Fixpoint insert_by_id (r : visit) (l : list visit) : list visit :=
  match l with
  | [] => [r]
  | h :: t => if id r <=? id h then r :: l else h :: insert_by_id r t
  end.

Definition sort_by_id (l : list visit) : list visit :=
  foldr insert_by_id [] l.

(** [load_visits(start, end)] *)
Definition load_visits (start end_ : str) (d : db) : DataFrame :=
  sort_by_id (filter (fun r => between start end_ r = true) (visits d)).

End Queries.
Import Queries.

(** ** Administrator console (lines 383-503, 627-629) *)

Module Admin.

Inductive fetch_status :=
  | FetchLogin
  | FetchBadId
  | FetchNoData (rid : Z)
  | FetchLoaded.

(** The eight values [admin_fetch_one] hands to the edit form. *)
Record fetch_form := FetchForm {
  f_status : fetch_status;
  f_visit_date : str;
  f_gender : str;
  f_age : str;
  f_residence : str;
  f_purposes : list str;
  f_visit_type : str;
  f_other : str
}.

(** The form returned with every failure (lines 404, 408, 412). *)
Definition fetch_blank (st : fetch_status) : fetch_form :=
  FetchForm st [] (u "여성") (u "만19~24세") (u "안양시 동안구") [] (u "첫방문") [].

Inductive update_msg :=
  | UpdLogin
  | UpdBadId
  | UpdBadDate
  | UpdNoPurpose
  | UpdFailed (rid : Z)
  | UpdDone (rid : Z).

Inductive delete_msg :=
  | DelLogin
  | DelBadId
  | DelNoData (rid : Z)
  | DelAskConfirm (rid : Z)
  | DelNotRequested
  | DelFailed (rid : Z)
  | DelDone (rid : Z).

Inductive reset_msg :=
  | ResetLogin
  | ResetMissing
  | ResetMismatch
  | ResetWrong
  | ResetDone.

(** What [admin_load_all] returns: the rows (shown twice by the caller),
    the five ratio tables, the daily table and its message ([None] for the
    empty string). *)
Record admin_tables := AdminTables {
  t_rows : DataFrame;
  t_purpose : ratio_table;
  t_gender : ratio_table;
  t_age : ratio_table;
  t_residence : ratio_table;
  t_visit_type : ratio_table;
  t_daily : list (str * Z);
  t_daily_msg : option daily_msg
}.

Section Environment.

(** [ADMIN_PASSWORD], read from the environment at start (line 20). *)
Variable ADMIN_PASSWORD : str.

(** [int(record_id)] on the text of the id box: the number, or [None] when
    [int] raises. *)
Variable py_int : str -> option Z.

(** [do_login] (lines 627-629): the new value of the [ok] state. *)
Definition do_login (p : option str) : bool :=
  bool_decide (strip (or_empty p) = ADMIN_PASSWORD).

(** [admin_load_all(ok, s, e)]; an empty [pd.DataFrame()] has no column. *)
Definition admin_load_all (ok : bool) (s e : str) (d : db) : admin_tables :=
  if negb ok then
    AdminTables [] (RatioTable [] []) (RatioTable [] []) (RatioTable [] [])
      (RatioTable [] []) (RatioTable [] []) [] None
  else
    let df := load_visits s e d in
    let '(daily_df, daily_msg) := make_daily_counts (Some df) s e in
    AdminTables df
      (calc_purpose_ratio (Some df))
      (calc_ratio (Some df) Cgender (u "성별"))
      (calc_ratio (Some df) Cage_group (u "나이"))
      (calc_ratio (Some df) Cresidence (u "거주지"))
      (calc_ratio (Some df) Cvisit_type (u "방문 횟수"))
      daily_df (Some daily_msg).

(** [admin_fetch_one(ok, record_id)]; [df.iloc[0]] is the first row found. *)
Definition admin_fetch_one (ok : bool) (record_id : str) (d : db) : fetch_form :=
  if negb ok then fetch_blank FetchLogin
  else
    match py_int record_id with
    | None => fetch_blank FetchBadId
    | Some rid =>
      match get_visit_by_id rid d with
      | [] => fetch_blank (FetchNoData rid)
      | r :: _ =>
        let '(purposes, other_text) := admin_fetch_one_purposes (py_str (purpose r)) in
        FetchForm FetchLoaded (py_str (visit_date r)) (py_str (gender r))
          (py_str (age_group r)) (py_str (residence r)) purposes
          (py_str (visit_type r)) other_text
      end
    end.

(** [admin_update_one(ok, record_id, visit_date, ...)] *)
Definition admin_update_one (ok : bool) (record_id : str) (visit_date : option str)
    (gender age residence : option str) (purposes : list str)
    (visit_type other_text : option str) (d : db) : update_msg * db :=
  if negb ok then (UpdLogin, d)
  else
    match py_int record_id with
    | None => (UpdBadId, d)
    | Some rid =>
      let visit_date := strip (or_empty visit_date) in
      match strptime visit_date with
      | None => (UpdBadDate, d)
      | Some _ =>
        match purposes with
        | [] => (UpdNoPurpose, d)
        | _ :: _ =>
          let purpose_str := visitor_submit_purpose_str purposes other_text in
          let '(d', updated) :=
            update_visit rid (Some visit_date) gender age residence
              (Some purpose_str) visit_type d in
          if updated =? 0 then (UpdFailed rid, d') else (UpdDone rid, d')
        end
      end
    end.

(** [request_delete(ok, record_id)]: the message, the pending id and whether
    the confirm button shows. *)
Definition request_delete (ok : bool) (record_id : str) (d : db)
    : delete_msg * option Z * bool :=
  if negb ok then (DelLogin, None, false)
  else
    match py_int record_id with
    | None => (DelBadId, None, false)
    | Some rid =>
      match get_visit_by_id rid d with
      | [] => (DelNoData rid, None, false)
      | _ :: _ => (DelAskConfirm rid, Some rid, true)
      end
    end.

(** [confirm_delete(ok, pending_id)] *)
Definition confirm_delete (ok : bool) (pending_id : option Z) (d : db)
    : delete_msg * option Z * bool * db :=
  if negb ok then (DelLogin, None, false, d)
  else
    match pending_id with
    | None => (DelNotRequested, None, false, d)
    | Some rid =>
      let '(d', deleted) := delete_visit rid d in
      if deleted =? 0 then (DelFailed rid, None, false, d')
      else (DelDone rid, None, false, d')
    end.

(** [admin_reset_all(ok, pw1, pw2)] *)
Definition admin_reset_all (ok : bool) (pw1 pw2 : option str) (d : db) : reset_msg * db :=
  if negb ok then (ResetLogin, d)
  else
    let pw1 := strip (or_empty pw1) in
    let pw2 := strip (or_empty pw2) in
    if negb (nonempty pw1) || negb (nonempty pw2) then (ResetMissing, d)
    else if negb (bool_decide (pw1 = pw2)) then (ResetMismatch, d)
    else if negb (bool_decide (pw1 = ADMIN_PASSWORD)) then (ResetWrong, d)
    else (ResetDone, reset_all_data d).

End Environment.

End Admin.
Import Admin.

(** ** Spreadsheet export (lines 304-379)

    The worksheet is kept as the values of its cells and its merged ranges;
    fills, fonts, borders, alignments, row heights and column widths carry
    no value and are left out, and [wb.save] is the returned worksheet. *)

Module Xlsx.

Record worksheet := Worksheet {
  ws_title : str;
  ws_cells : gmap (nat * nat) cell;
  ws_merged : list (nat * nat * nat * nat)
}.

(** [ws.cell(row=r, column=c).value = v] *)
Definition set_value (r c : nat) (v : cell) (ws : worksheet) : worksheet :=
  Worksheet (ws_title ws) (<[(r, c) := v]> (ws_cells ws)) (ws_merged ws).

(** [ws.merge_cells(...)]: the range is recorded, and every cell of it but
    the top-left one loses its value. *)
Definition merge_cells (start_row start_column end_row end_column : nat)
    (ws : worksheet) : worksheet :=
  let covered :=
    r ← List.seq start_row (S end_row - start_row);
    c ← List.seq start_column (S end_column - start_column);
    if decide ((r, c) = (start_row, start_column)) then [] else [(r, c)] in
  Worksheet (ws_title ws)
    (foldl (fun m k => delete k m) (ws_cells ws) covered)
    (ws_merged ws ++ [(start_row, start_column, end_row, end_column)]).

(** Lines 311-317. *)
Definition group_spans : list (str * nat * nat) :=
  let idx := 1%nat in
  let s0 := (u "구분", idx, idx) in
  let idx := (idx + 1)%nat in
  let s1 := (u "성별", idx, (idx + length GENDER_OPTIONS - 1)%nat) in
  let idx := (idx + length GENDER_OPTIONS)%nat in
  let s2 := (u "나이", idx, (idx + length AGE_OPTIONS - 1)%nat) in
  let idx := (idx + length AGE_OPTIONS)%nat in
  let s3 := (u "거주지", idx, (idx + length RESIDENCE_OPTIONS - 1)%nat) in
  let idx := (idx + length RESIDENCE_OPTIONS)%nat in
  let s4 := (u "방문 목적", idx, (idx + length PURPOSE_OPTIONS - 1)%nat) in
  let idx := (idx + length PURPOSE_OPTIONS)%nat in
  let s5 := (u "방문 횟수", idx, (idx + length VISIT_TYPE_OPTIONS - 1)%nat) in
  [s0; s1; s2; s3; s4; s5].

(** The body of the loop over [group_spans] (lines 328-338). *)
Definition write_title (ws : worksheet) (g : str * nat * nat) : worksheet :=
  let '(title, c1, c2) := g in
  let ws := set_value 1 c1 (CStr title) ws in
  if (c1 <? c2)%nat then merge_cells 1 c1 1 c2 ws else ws.

(** [enumerate(l, start)] *)
Definition enumerate {A : Type} (start : nat) (l : list A) : list (nat * A) :=
  zip (List.seq start (length l)) l.

(** [for j, v in enumerate(vals, start=1): ws.cell(row=rr, column=j).value = v] *)
Definition write_row (rr : nat) (vals : list cell) (ws : worksheet) : worksheet :=
  foldl (fun w jv => set_value rr jv.1 jv.2 w) ws (enumerate 1 vals).

(** [make_checksheet_xlsx(df, out_path)]; [None] when
    [build_checksheet_matrix] raises. *)
Definition make_checksheet_xlsx (df : DataFrame) : option worksheet :=
  '(sub_headers, sums, rows) ← build_checksheet_matrix df;
  let ws := Worksheet (u "방문록(체크표)") ∅ [] in
  let ws := foldl write_title ws group_spans in
  let ws := write_row 2 (List.map CStr sub_headers) ws in
  let ws := write_row 3 sums ws in
  let r0 := 4%nat in
  let ws :=
    foldl (fun w ir => write_row (r0 + ir.1) (List.map CInt ir.2) w) ws
      (enumerate 0 rows) in
  Some ws.

(** What [export_checksheet_xlsx] leaves: no file, an exception, or the
    file written at [out_path]. *)
Inductive export_result :=
  | NoFile
  | Raised
  | File (ws : worksheet).

(** [export_checksheet_xlsx(ok, start, end)] *)
Definition export_checksheet_xlsx (ok : bool) (start end_ : str) (d : db) : export_result :=
  if negb ok then NoFile
  else
    let df := load_visits start end_ d in
    match make_checksheet_xlsx df with
    | Some ws => File ws
    | None => Raised
    end.

End Xlsx.
Import Xlsx.

(** * Properties *)

(** ** Facts about the string operations *)

Section StringFacts.

Lemma startswith_app (p s : str) : startswith p (p ++ s) = true.
Proof.
  induction p as [|a p IH]; simpl; [done|].
  by rewrite N.eqb_refl, IH.
Qed.

Lemma startswith_inv (p s : str) :
  startswith p s = true -> exists r, s = p ++ r.
Proof.
  revert s; induction p as [|a p IH]; intros s H; simpl in *.
  - by exists s.
  - destruct s as [|b s]; [done|].
    apply andb_true_iff in H as [Hab Hp].
    apply N.eqb_eq in Hab as ->.
    destruct (IH _ Hp) as [r ->]. by exists r.
Qed.

Lemma replace_first_startswith (old new s : str) :
  startswith old s = true ->
  replace_first old new s = new ++ drop (length old) s.
Proof. intros H. destruct s; simpl; by rewrite H. Qed.

Lemma lstrip_spaces (pre t : str) :
  forallb is_space pre = true -> lstrip (pre ++ t) = lstrip t.
Proof.
  induction pre as [|c pre IH]; simpl; [done|].
  intros [Hc Hpre]%andb_true_iff. rewrite Hc. by apply IH.
Qed.

Lemma rstrip_idem (s : str) : rstrip (rstrip s) = rstrip s.
Proof.
  induction s as [|c s IH]; simpl; [done|].
  destruct (rstrip s) as [|d r] eqn:E.
  - destruct (is_space c) eqn:Hc; simpl; [done|]. by rewrite Hc.
  - simpl in *. by rewrite IH.
Qed.

Lemma rstrip_app (a b : str) :
  rstrip b <> [] -> rstrip (a ++ b) = a ++ rstrip b.
Proof.
  intros Hb. induction a as [|c a IH]; simpl; [done|].
  rewrite IH. destruct (a ++ rstrip b) eqn:E; [|done].
  apply app_eq_nil in E as [_ E]. done.
Qed.

(** [rstrip] keeps the first character unless nothing is left. *)
Lemma rstrip_cons_head (c : N) (s : str) :
  rstrip (c :: s) = [] \/ exists r, rstrip (c :: s) = c :: r.
Proof.
  simpl. destruct (rstrip s); [destruct (is_space c)|]; eauto.
Qed.

Lemma lstrip_head (s : str) :
  lstrip s = [] \/ exists c r, lstrip s = c :: r /\ is_space c = false.
Proof.
  induction s as [|c s IH]; simpl; [by left|].
  destruct (is_space c) eqn:Hc; [done|]. right. eauto.
Qed.

Lemma lstrip_nonspace (c : N) (s : str) :
  is_space c = false -> lstrip (c :: s) = c :: s.
Proof. intros H. simpl. by rewrite H. Qed.

Lemma strip_idem (s : str) : strip (strip s) = strip s.
Proof.
  unfold strip.
  destruct (lstrip_head s) as [->|(c & r & -> & Hc)]; [done|].
  destruct (rstrip_cons_head c r) as [->|[r' E]]; [done|].
  rewrite E, (lstrip_nonspace _ _ Hc), <- E. apply rstrip_idem.
Qed.

(** A non-empty stripped string starts with a non-space character. *)
Lemma stripped_head (t : str) :
  strip t = t -> t <> [] -> exists c r, t = c :: r /\ is_space c = false.
Proof.
  unfold strip. intros Ht Hne.
  destruct (lstrip_head t) as [E|(c & r & E & Hc)].
  - rewrite E in Ht. simpl in Ht. congruence.
  - rewrite E in Ht.
    destruct (rstrip_cons_head c r) as [E'|[r' E']]; rewrite E' in Ht.
    + congruence.
    + exists c, r'. by rewrite <- Ht.
Qed.

Lemma strip_spaces_stripped (pre t : str) :
  forallb is_space pre = true -> strip t = t -> strip (pre ++ t) = t.
Proof. intros Hpre Ht. unfold strip. rewrite lstrip_spaces by done. exact Ht. Qed.

Lemma startswith_cons1 (c x : N) (s : str) :
  startswith [c] (x :: s) = (c =? x)%N.
Proof. simpl. by rewrite andb_true_r. Qed.

(** Splitting on a one-character separator. *)
Lemma split_go1_none (c : N) (cur a : str) :
  c ∉ a -> split_go [c] 0 cur a = [cur ++ a].
Proof.
  revert cur; induction a as [|x a IH]; intros cur Hc.
  - simpl. by rewrite app_nil_r.
  - apply not_elem_of_cons in Hc as [Hx Ha].
    change (split_go [c] 0 cur (x :: a))
      with (if startswith [c] (x :: a) then cur :: split_go [c] 0 [] a
            else split_go [c] 0 (cur ++ [x]) a).
    rewrite startswith_cons1.
    destruct (N.eqb_spec c x) as [->|_]; [done|].
    rewrite IH by done. by rewrite <- app_assoc.
Qed.

Lemma split_go1_app (c : N) (cur a b : str) :
  c ∉ a -> split_go [c] 0 cur (a ++ c :: b) = (cur ++ a) :: split_go [c] 0 [] b.
Proof.
  revert cur; induction a as [|x a IH]; intros cur Hc.
  - rewrite app_nil_r. simpl. by rewrite N.eqb_refl.
  - apply not_elem_of_cons in Hc as [Hx Ha].
    change (split_go [c] 0 cur ((x :: a) ++ c :: b))
      with (if startswith [c] (x :: a ++ c :: b) then cur :: split_go [c] 0 [] (a ++ c :: b)
            else split_go [c] 0 (cur ++ [x]) (a ++ c :: b)).
    rewrite startswith_cons1.
    destruct (N.eqb_spec c x) as [->|_]; [done|].
    rewrite IH by done. by rewrite <- app_assoc.
Qed.

End StringFacts.

(** ** Purpose codec: round trip *)

Module CodecFacts.

Definition PC_PRINTER : str := Eval vm_compute in u "공용PC, 프린터".

(** A token that survives [", ".join], [split(",")] and [strip] unchanged. *)
Definition clean (t : str) : Prop :=
  t <> [] /\ strip t = t /\ 44%N ∉ t.

(** A token of the loop of [admin_fetch_one] that reaches the last branch
    and is kept. *)
Definition plain_tag (t : str) : Prop :=
  startswith GITA_COLON t = false /\ t <> GITA /\ t ∈ PURPOSE_OPTIONS.

Lemma split_join_clean (toks : list str) (cur : str) :
  forallb is_space cur = true -> toks <> [] -> Forall clean toks ->
  List.map strip (split_go [44%N] 0 cur (join COMMA_SP toks)) = toks.
Proof.
  intros Hcur Hne Hcl. revert cur Hcur.
  induction Hcl as [|t toks (Ht0 & Hst & Hc) Hcl IH]; [done|]; intros cur Hcur.
  destruct toks as [|t2 toks].
  - simpl. rewrite split_go1_none by done. simpl.
    by rewrite strip_spaces_stripped.
  - change (join COMMA_SP (t :: t2 :: toks))
      with (t ++ 44%N :: 32%N :: join COMMA_SP (t2 :: toks)).
    rewrite split_go1_app by done.
    change (split_go [44%N] 0 [] (32%N :: join COMMA_SP (t2 :: toks)))
      with (split_go [44%N] 0 [32%N] (join COMMA_SP (t2 :: toks))).
    rewrite map_cons, strip_spaces_stripped by done.
    f_equal. by apply IH.
Qed.

Lemma purpose_items_join (toks : list str) :
  Forall clean toks -> purpose_items (join COMMA_SP toks) = toks.
Proof.
  intros Hcl. unfold purpose_items.
  destruct (decide (toks = [])) as [->|Hne]; [done|].
  change (split COMMA (join COMMA_SP toks))
    with (split_go [44%N] 0 [] (join COMMA_SP toks)).
  rewrite split_join_clean by done.
  clear Hne. induction Hcl as [|t toks (Ht0 & _) _ IH]; [done|].
  rewrite filter_cons_True by done. by rewrite IH.
Qed.

Lemma fetch_step_plain (t : str) (acc : list str) (ot : str) :
  plain_tag t -> fetch_step (acc, ot) t = (acc ++ [t], ot).
Proof.
  intros (Hp & Hg & Ho). unfold fetch_step.
  rewrite Hp. rewrite decide_False by done. by rewrite decide_True by done.
Qed.

Lemma foldl_fetch_plain (tags acc : list str) (ot : str) :
  Forall plain_tag tags -> foldl fetch_step (acc, ot) tags = (acc ++ tags, ot).
Proof.
  intros H. revert acc.
  induction H as [|t tags Ht _ IH]; intros acc.
  - simpl. by rewrite app_nil_r.
  - change (foldl fetch_step (acc, ot) (t :: tags))
      with (foldl fetch_step (fetch_step (acc, ot) t) tags).
    rewrite fetch_step_plain by done.
    rewrite IH. by rewrite <- app_assoc.
Qed.

#[local] Instance clean_dec (t : str) : Decision (clean t).
Proof. unfold clean. apply _. Defined.

#[local] Instance plain_tag_dec (t : str) : Decision (plain_tag t).
Proof. unfold plain_tag. apply _. Defined.

(** Every option but ["공용PC, 프린터"] is a clean token, and every option but
    that one and ["기타"] is kept as it is by [admin_fetch_one]. *)
Lemma option_clean (p : str) :
  p ∈ PURPOSE_OPTIONS -> p <> PC_PRINTER -> clean p /\ (p <> GITA -> plain_tag p).
Proof.
  revert p.
  apply (proj1 (list.Forall_forall
           (fun p => p <> PC_PRINTER -> clean p /\ (p <> GITA -> plain_tag p))
           PURPOSE_OPTIONS)).
  by_decide.
Qed.

Lemma other_token_clean (o : str) :
  o <> [] -> strip o = o -> 44%N ∉ o -> clean (GITA_COLON ++ o).
Proof.
  intros Hne Hst Hc.
  assert (Hr : rstrip o = o).
  { rewrite <- Hst at 1. unfold strip. rewrite rstrip_idem. exact Hst. }
  repeat split.
  - done.
  - unfold strip.
    change (lstrip (GITA_COLON ++ o)) with (GITA_COLON ++ o).
    rewrite rstrip_app; by rewrite Hr.
  - rewrite elem_of_app. intros [H|H]; [|done]. revert H. by_decide.
Qed.

Lemma fetch_step_other (o : str) (acc : list str) (ot : str) :
  fetch_step (acc, ot) (GITA_COLON ++ o) = (acc ++ [GITA], strip o).
Proof.
  unfold fetch_step. rewrite startswith_app.
  by rewrite replace_first_startswith by apply startswith_app.
Qed.

Lemma filter_not_gita_plain (tags : list str) :
  Forall (fun t => t ∈ PURPOSE_OPTIONS /\ t <> PC_PRINTER) tags ->
  Forall clean (filter (fun p => p <> GITA) tags) /\
  Forall plain_tag (filter (fun p => p <> GITA) tags).
Proof.
  intros H. induction H as [|t tags [Hin Hpc] _ [IH1 IH2]]; [done|].
  destruct (option_clean t Hin Hpc) as [Hcl Hpl].
  destruct (decide (t = GITA)) as [->|Hg].
  - by rewrite filter_cons_False by (by intros []).
  - rewrite filter_cons_True by done. split; constructor; auto.
Qed.

(** A complete form is stored with the purpose string of
    [visitor_submit_purpose_str]. *)
Lemma visitor_submit_saved (today now g a r v : str) (p : str) (ps : list str)
    (other : option str) (d : db) :
  visitor_submit today now (Some g) (Some a) (Some r) (p :: ps) (Some v) other d
  = (Saved,
     insert_visit now (Some today) (Some g) (Some a) (Some r)
       (Some (visitor_submit_purpose_str (p :: ps) other)) (Some v) d).
Proof. reflexivity. Qed.

(** The round trip as the specification words it: every non-empty set of
    tags, every other-text that is non-empty only if ["기타"] is selected. *)
Definition purpose_roundtrip_as_stated (tags : list str) (text : str) : Prop :=
  tags <> [] ->
  Forall (fun t => t ∈ PURPOSE_OPTIONS) tags ->
  (text <> [] -> GITA ∈ tags) ->
  exists ps,
    admin_fetch_one_purposes (visitor_submit_purpose_str tags (Some text)) = (ps, text)
    /\ forall t, t ∈ ps <-> t ∈ tags.

(** C1, as stated, fails: the other-text is stored stripped, so a text with
    surrounding white space does not come back. *)
Lemma purpose_roundtrip_untrimmed_fails :
  ~ purpose_roundtrip_as_stated [GITA] (u " a").
Proof.
  intros H. destruct H as (ps & E & _).
  - done.
  - by_decide.
  - intros _. by_decide.
  - vm_compute in E. discriminate E.
Qed.

(** C1 (amended): for every non-empty selection of purpose tags other than
    ["공용PC, 프린터"], and every other-text that is non-empty only if ["기타"]
    is selected and whose stripped form has no comma, reading back the stored
    purpose string gives the same set of tags and the stripped other-text. *)
Theorem purpose_roundtrip (tags : list str) (text : str) :
  tags <> [] ->
  Forall (fun t => t ∈ PURPOSE_OPTIONS /\ t <> PC_PRINTER) tags ->
  (text <> [] -> GITA ∈ tags) ->
  44%N ∉ strip text ->
  exists ps,
    admin_fetch_one_purposes (visitor_submit_purpose_str tags (Some text))
      = (ps, strip text)
    /\ forall t, t ∈ ps <-> t ∈ tags.
Proof.
  intros Hne Htags Htext Hcomma.
  destruct (filter_not_gita_plain tags Htags) as [Hcl Hpl].
  unfold visitor_submit_purpose_str, admin_fetch_one_purposes, purpose_plist.
  change (or_empty (Some text)) with text.
  set (o := strip text) in *.
  set (tagsf := filter (fun p => p <> GITA) tags) in *.
  destruct (decide (GITA ∈ tags)) as [Hg|Hg].
  - exists (tagsf ++ [GITA]). split.
    + destruct o as [|c o'] eqn:Eo; simpl nonempty; cbv iota.
      * rewrite purpose_items_join.
        2:{ apply Forall_app. split; [done|]. constructor; [|done].
            repeat split; try done. by_decide. }
        rewrite foldl_app, foldl_fetch_plain by done. done.
      * rewrite <- Eo in *.
        assert (Ho : strip o = o) by apply strip_idem.
        assert (Hone : o <> []) by (by rewrite Eo).
        rewrite purpose_items_join.
        2:{ apply Forall_app. split; [done|]. constructor; [|done].
            by apply other_token_clean. }
        rewrite foldl_app, foldl_fetch_plain by done.
        cbn [foldl]. by rewrite fetch_step_other, Ho.
    + intros t. rewrite elem_of_app, list_elem_of_singleton.
      unfold tagsf. rewrite list_elem_of_filter.
      split.
      * intros [[_ Hin]| ->]; done.
      * intros Hin. destruct (decide (t = GITA)); [by right | by left].
  - assert (text = []) as ->.
    { destruct text; [done|]. exfalso. by apply Hg, Htext. }
    assert (tagsf = tags) as ->.
    { unfold tagsf. clear -Hg. induction tags as [|t tags IH]; [done|].
      apply not_elem_of_cons in Hg as [Ht Hg].
      rewrite filter_cons_True by done. by rewrite IH. }
    exists tags. split; [|done].
    rewrite purpose_items_join by done.
    by rewrite foldl_fetch_plain.
Qed.

Lemma purpose_roundtrip_witness :
  exists ps,
    admin_fetch_one_purposes
      (visitor_submit_purpose_str [u "공부 및 개인작업"; GITA] (Some (u " bike repair ")))
      = (ps, strip (u " bike repair "))
    /\ forall t, t ∈ ps <-> t ∈ [u "공부 및 개인작업"; GITA].
Proof.
  apply (purpose_roundtrip [u "공부 및 개인작업"; GITA] (u " bike repair ")).
  - done.
  - by_decide.
  - intros _. by_decide.
  - by_decide.
Defined.

(** The slip behind the excluded tag: ["공용PC, 프린터"] contains the separator,
    so it is stored as two tokens and neither is recognised on reading. *)
Example roundtrip_pc_printer_lost :
  admin_fetch_one_purposes (visitor_submit_purpose_str [PC_PRINTER] None) = ([], []).
Proof. reflexivity. Qed.

(** An other-text with a comma is cut at the comma on reading. *)
Example roundtrip_comma_text_cut :
  admin_fetch_one_purposes (visitor_submit_purpose_str [GITA] (Some (u "a,b")))
  = ([GITA], u "a").
Proof. reflexivity. Qed.

End CodecFacts.

(** ** Record store: operations on an absent id *)

Module StoreFacts.

Lemma filter_id_absent (rows : list visit) (rid : Z) :
  Forall (fun v => id v <> rid) rows ->
  filter (fun r => id r = rid) rows = [] /\
  filter (fun r => id r <> rid) rows = rows.
Proof.
  induction 1 as [|v rows Hv _ [IH1 IH2]]; [done|].
  rewrite filter_cons_False by done.
  rewrite filter_cons_True by done.
  by rewrite IH2.
Qed.

Lemma map_id_absent (rows : list visit) (rid : Z) (f : visit -> visit) :
  Forall (fun v => id v <> rid) rows ->
  List.map (fun r => if decide (id r = rid) then f r else r) rows = rows.
Proof.
  induction 1 as [|v rows Hv _ IH]; [done|].
  simpl. rewrite decide_False by done. by rewrite IH.
Qed.

(** C9: on an id that no row of the table carries, [delete_visit] and
    [update_visit] return the store as it was, with a row count of 0. *)
Theorem delete_update_absent_id (d : db) (rid : Z)
    (visit_date gender age residence purpose visit_type : option str) :
  Forall (fun v => id v <> rid) (visits d) ->
  delete_visit rid d = (d, 0) /\
  update_visit rid visit_date gender age residence purpose visit_type d = (d, 0).
Proof.
  intros H. destruct d as [rows n]. simpl in H.
  destruct (filter_id_absent rows rid H) as [E1 E2].
  unfold delete_visit, update_visit. simpl visits. simpl sqlite_sequence.
  rewrite E1, E2. split; [done|].
  by rewrite map_id_absent.
Qed.

(** After [reset_all_data] the next row gets id 1. *)
Lemma insert_after_reset (d : db) (now : str)
    (visit_date gender age residence purpose visit_type : option str) :
  List.map id
    (visits (insert_visit now visit_date gender age residence purpose visit_type
               (reset_all_data d)))
  = [1].
Proof. reflexivity. Qed.

Definition sample_db : db :=
  Db [Visit 1 (Some (u "2024-06-03T10:00:00")) (Some (u "2024-06-03"))
        (Some (u "여성")) (Some (u "만19~24세")) (Some (u "안양시 동안구"))
        (Some (u "공부 및 개인작업")) (Some (u "첫방문"))] 1.

Lemma delete_update_absent_id_witness :
  delete_visit 9999 sample_db = (sample_db, 0) /\
  update_visit 9999 None None None None None None sample_db = (sample_db, 0).
Proof.
  apply (delete_update_absent_id sample_db 9999).
  by_decide.
Defined.

End StoreFacts.

(** ** Aggregator: counting *)

Module AggregatorFacts.

Lemma insert_desc_perm (e : str * Z) (l : list (str * Z)) :
  insert_desc e l ≡ₚ e :: l.
Proof.
  induction l as [|h t IH]; simpl; [done|].
  destruct (e.2 <? h.2); [|done].
  rewrite IH. apply Permutation_swap.
Qed.

Lemma sort_desc_perm (l : list (str * Z)) : sort_desc l ≡ₚ l.
Proof.
  induction l as [|e l IH]; simpl; [done|].
  by rewrite insert_desc_perm, IH.
Qed.

Lemma sum_counts_perm (l l' : list (str * Z)) :
  l ≡ₚ l' -> sum_counts l = sum_counts l'.
Proof. induction 1; simpl in *; lia. Qed.

Lemma elem_of_unique (x : str) (l : list str) : x ∈ unique l <-> x ∈ l.
Proof.
  induction l as [|y l IH]; simpl; [done|].
  rewrite !elem_of_cons, list_elem_of_filter, IH.
  destruct (decide (x = y)); tauto.
Qed.

Lemma NoDup_unique (l : list str) : NoDup (unique l).
Proof.
  induction l as [|y l IH]; simpl; constructor.
  - rewrite list_elem_of_filter. by intros [Hne _].
  - by apply NoDup_filter.
Qed.

Lemma count_of_nil (x : str) : count_of x [] = 0.
Proof. done. Qed.

Lemma count_of_cons (x y : str) (l : list str) :
  count_of x (y :: l) = (if decide (y = x) then 1 else 0) + count_of x l.
Proof.
  unfold count_of. destruct (decide (y = x)) as [E|E].
  - rewrite filter_cons_True by done. simpl length. lia.
  - rewrite filter_cons_False by done. lia.
Qed.

Lemma count_of_app (x : str) (l1 l2 : list str) :
  count_of x (l1 ++ l2) = count_of x l1 + count_of x l2.
Proof. unfold count_of. rewrite filter_app, length_app. lia. Qed.

Lemma count_of_nonneg (x : str) (l : list str) : 0 <= count_of x l.
Proof. unfold count_of. lia. Qed.

Lemma count_of_pos (x : str) (l : list str) : x ∈ l <-> 0 < count_of x l.
Proof.
  induction l as [|y l IH].
  - rewrite count_of_nil. split; [by intros ?%elem_of_nil | lia].
  - rewrite count_of_cons, elem_of_cons.
    pose proof (count_of_nonneg x l).
    destruct (decide (y = x)) as [->|]; [intuition lia|].
    rewrite IH. intuition (congruence || lia).
Qed.

(** Counting the occurrences of every value of a duplicate-free list [us]
    that covers [l] counts every element of [l] once. *)
Lemma sum_indicator (us : list str) (y : str) :
  NoDup us -> y ∈ us ->
  sum_counts (List.map (fun x => (x, if decide (y = x) then 1 else 0)) us) = 1.
Proof.
  induction 1 as [|x us Hx Hnd IH]; [by intros ?%elem_of_nil|].
  intros [->|Hy]%elem_of_cons; simpl.
  - rewrite decide_True by done.
    assert (sum_counts (List.map (fun x0 => (x0, if decide (x = x0) then 1 else 0)) us) = 0)
      as ->; [|done].
    clear IH Hnd. induction us as [|z us IH]; [done|].
    apply not_elem_of_cons in Hx as [Hz Hx]. simpl.
    rewrite decide_False by done. by rewrite IH.
  - rewrite decide_False by (by intros ->). by rewrite IH.
Qed.

Lemma sum_counts_add (f g : str -> Z) (us : list str) :
  sum_counts (List.map (fun x => (x, f x + g x)) us)
  = sum_counts (List.map (fun x => (x, f x)) us)
    + sum_counts (List.map (fun x => (x, g x)) us).
Proof. induction us as [|x us IH]; simpl in *; lia. Qed.

Lemma sum_counts_ext (f g : str -> Z) (us : list str) :
  (forall x, f x = g x) ->
  sum_counts (List.map (fun x => (x, f x)) us)
  = sum_counts (List.map (fun x => (x, g x)) us).
Proof. intros E. induction us as [|x us IH]; simpl in *; [done|]. by rewrite E, IH. Qed.

Lemma sum_count_cover (us l : list str) :
  NoDup us -> (forall y, y ∈ l -> y ∈ us) ->
  sum_counts (List.map (fun x => (x, count_of x l)) us) = Z.of_nat (length l).
Proof.
  intros Hnd. induction l as [|y l IH]; intros Hcov.
  - simpl length. clear. induction us as [|x us IH]; simpl in *; [done|].
    by rewrite IH.
  - rewrite (sum_counts_ext _ (fun x => (if decide (y = x) then 1 else 0) + count_of x l))
      by (intros; apply count_of_cons).
    rewrite sum_counts_add, sum_indicator, IH.
    + simpl length. lia.
    + intros z Hz. apply Hcov. by right.
    + done.
    + apply Hcov. by left.
Qed.

Lemma value_counts_perm (l : list str) :
  value_counts l ≡ₚ List.map (fun x => (x, count_of x l)) (unique l).
Proof. apply sort_desc_perm. Qed.

(** The counts of [value_counts] add up to the length of the series. *)
Lemma value_counts_sum (l : list str) :
  sum_counts (value_counts l) = Z.of_nat (length l).
Proof.
  rewrite (sum_counts_perm _ _ (value_counts_perm l)).
  apply sum_count_cover; [apply NoDup_unique|].
  intros y. by rewrite elem_of_unique.
Qed.

(** Each value of the series has one entry, holding its number of occurrences. *)
Lemma elem_of_value_counts (x : str) (c : Z) (l : list str) :
  (x, c) ∈ value_counts l <-> x ∈ l /\ c = count_of x l.
Proof.
  rewrite (value_counts_perm l), list_elem_of_fmap.
  setoid_rewrite elem_of_unique. split.
  - by intros (y & [= -> ->] & Hy).
  - intros [Hx ->]. by exists x.
Qed.

Lemma value_counts_labels_NoDup (l : list str) :
  NoDup (List.map fst (value_counts l)).
Proof.
  assert (E : List.map fst (value_counts l) ≡ₚ unique l).
  { change (List.map fst (value_counts l)) with (fst <$> value_counts l).
    rewrite (value_counts_perm l).
    change (fst <$> List.map (fun x => (x, count_of x l)) (unique l))
      with (List.map fst (List.map (fun x => (x, count_of x l)) (unique l))).
    rewrite List.map_map. simpl. by rewrite List.map_id. }
  rewrite E. apply NoDup_unique.
Qed.

End AggregatorFacts.

(** ** Aggregator: percentages *)

Module PercentFacts.
Import AggregatorFacts.
#[local] Open Scope Q_scope.

(** Sum of a column of rationals. *)
Definition Qsum (l : list Q) : Q := foldr Qplus 0 l.

Lemma rint_error (q : Q) : Qabs (inject_Z (rint q) - q) <= 1 # 2.
Proof.
  pose proof (Qfloor_le q) as Hlo. pose proof (Qlt_floor q) as Hhi.
  rewrite inject_Z_plus in Hhi. change (inject_Z 1) with 1 in Hhi.
  apply Qabs_Qle_condition. unfold rint.
  destruct (q - inject_Z (Qfloor q) ?= 1 # 2) eqn:E.
  - apply Qeq_alt in E.
    destruct (Z.even (Qfloor q));
      [|rewrite inject_Z_plus; change (inject_Z 1) with 1]; split; lra.
  - apply Qlt_alt in E. split; lra.
  - apply Qgt_alt in E. rewrite inject_Z_plus. change (inject_Z 1) with 1. split; lra.
Qed.

(** Rounding to one decimal moves a number by at most 0.05. *)
Lemma round1_error (q : Q) : Qabs (round1 q - q) <= 1 # 20.
Proof.
  pose proof (rint_error (q * 10)) as H.
  apply Qabs_Qle_condition in H. apply Qabs_Qle_condition.
  unfold round1. set (r := inject_Z (rint (q * 10))) in *.
  assert (E : r / 10 == r * (1 # 10)) by (unfold Qdiv; reflexivity).
  rewrite E. split; lra.
Qed.

Lemma Qsum_round1 (qs : list Q) :
  Qabs (Qsum (List.map round1 qs) - Qsum qs)
  <= (1 # 20) * inject_Z (Z.of_nat (length qs)).
Proof.
  induction qs as [|q qs IH].
  - change (Qabs (0 - 0) <= (1 # 20) * 0).
    apply Qabs_Qle_condition. split; lra.
  - pose proof (round1_error q) as Hq.
    apply Qabs_Qle_condition in Hq, IH. apply Qabs_Qle_condition.
    change (Qsum (List.map round1 (q :: qs)))
      with (round1 q + Qsum (List.map round1 qs)).
    change (Qsum (q :: qs)) with (q + Qsum qs).
    change (length (q :: qs)) with (S (length qs)).
    rewrite Nat2Z.inj_succ, <- Z.add_1_r, inject_Z_plus.
    change (inject_Z 1) with 1.
    set (n := inject_Z (Z.of_nat (length qs))) in *.
    split; lra.
Qed.

(** The exact shares [count / total * 100] add up to [100]. *)
Lemma Qsum_shares (cs : list (str * Z)) (total : Z) :
  total <> 0%Z ->
  Qsum (List.map (fun e => inject_Z e.2 / inject_Z total * 100) cs)
  == inject_Z (sum_counts cs) / inject_Z total * 100.
Proof.
  intros Ht. induction cs as [|e cs IH].
  - simpl. unfold Qdiv. ring.
  - simpl Qsum. simpl sum_counts. rewrite IH, inject_Z_plus.
    unfold Qdiv. ring.
Qed.

Lemma shares_100 (total : Z) :
  total <> 0%Z -> inject_Z total / inject_Z total * 100 == 100.
Proof.
  intros Ht. unfold Qdiv. rewrite Qmult_inv_r; [ring|].
  intros E. apply Ht. by apply (inject_Z_injective total 0).
Qed.

(** The table of [with_percent], when the counts are not all zero. *)
Lemma with_percent_nonzero (c : list (str * Z)) :
  sum_counts c <> 0%Z ->
  with_percent c
  = List.map (fun e => (e.1, e.2, round1 (inject_Z e.2 / inject_Z (sum_counts c) * 100))) c.
Proof.
  intros H. unfold with_percent. apply List.map_ext. intros e.
  unfold percent_of. by rewrite decide_True by done.
Qed.

(** Shared by [calc_ratio] and [calc_purpose_ratio]: the percent column of a
    table with a non-zero total is within 0.05 per row of 100. *)
Lemma with_percent_sum (c : list (str * Z)) :
  sum_counts c <> 0%Z ->
  Qabs (Qsum (List.map snd (with_percent c)) - 100)
  <= (1 # 20) * inject_Z (Z.of_nat (length (with_percent c))).
Proof.
  intros H. rewrite with_percent_nonzero by done.
  rewrite List.map_map, length_map. simpl.
  pose proof (Qsum_round1
    (List.map (fun e => inject_Z e.2 / inject_Z (sum_counts c) * 100) c)) as R.
  rewrite List.map_map, length_map in R.
  rewrite (Qsum_shares c (sum_counts c) H), (shares_100 _ H) in R.
  exact R.
Qed.

End PercentFacts.

(** ** Aggregator: the two ratio tables *)

Module RatioFacts.
Import AggregatorFacts PercentFacts.

(** The series [calc_ratio] counts: the column with NULL read as [""]. *)
Definition field_values (col : column) (df : DataFrame) : list str :=
  List.map (fun r => or_empty (get_col col r)) df.

Lemma with_percent_counts (c : list (str * Z)) :
  List.map fst (with_percent c) = c.
Proof.
  unfold with_percent. rewrite List.map_map. simpl.
  induction c as [|[x n] c IH]; simpl; [done|]. by rewrite IH.
Qed.

Lemma calc_ratio_body (df : DataFrame) (col : column) (label : str) :
  df <> [] ->
  body (calc_ratio (Some df) col label)
  = with_percent (value_counts (field_values col df)).
Proof. by destruct df. Qed.


Definition ratio_sample : DataFrame :=
  [ Visit 1 None (Some (u "2024-06-03")) (Some (u "여성")) None None None None;
    Visit 2 None (Some (u "2024-06-03")) (Some (u "남성")) None None None None;
    Visit 3 None (Some (u "2024-06-04")) (Some (u "기타")) None None None None ].


(** Three equal shares: 33.3 each, 99.9 in all. *)
Example calc_ratio_thirds :
  List.map snd (body (calc_ratio (Some ratio_sample) Cgender (u "성별")))
  = [(333 # 10)%Q; (333 # 10)%Q; (333 # 10)%Q].
Proof. reflexivity. Qed.

(** The tokens one row contributes to [calc_purpose_ratio]: the pieces of
    its purpose string between occurrences of [", "], empty pieces dropped. *)
Definition row_tokens (r : visit) : list str :=
  filter (fun x => x <> []) (split COMMA_SP (or_empty (purpose r))).

Definition purpose_tokens (df : DataFrame) : list str :=
  concat (List.map row_tokens df).

Lemma filter_explode (df : DataFrame) :
  filter (fun x => x <> []) (explode_purpose df) = purpose_tokens df.
Proof.
  induction df as [|r df IH]; [done|].
  change (filter (fun x => x <> [])
            (split COMMA_SP (or_empty (purpose r)) ++ explode_purpose df)
          = row_tokens r ++ purpose_tokens df).
  by rewrite filter_app, IH.
Qed.

Lemma length_purpose_tokens (df : DataFrame) :
  length (purpose_tokens df) = sum_list (List.map (fun r => length (row_tokens r)) df).
Proof.
  induction df as [|r df IH]; [done|].
  change (length (row_tokens r ++ purpose_tokens df)
          = (length (row_tokens r)
             + sum_list (List.map (fun r => length (row_tokens r)) df))%nat).
  by rewrite length_app, IH.
Qed.

Lemma calc_purpose_ratio_body (df : DataFrame) :
  body (calc_purpose_ratio (Some df)) = with_percent (value_counts (purpose_tokens df)).
Proof.
  destruct df as [|r df]; [done|].
  unfold calc_purpose_ratio. change (df_empty (Some (r :: df))) with false. cbv iota.
  change (rows_of (Some (r :: df))) with (r :: df). simpl body.
  by rewrite filter_explode.
Qed.

(** The same table as the specification words it: split on commas, trim,
    drop the empty tokens. *)
Definition row_tokens_as_stated (r : visit) : list str :=
  filter (fun x => x <> []) (List.map strip (split COMMA (or_empty (purpose r)))).

Definition purpose_ratio_as_stated (df : DataFrame) : Prop :=
  body (calc_purpose_ratio (Some df))
  = with_percent (value_counts (concat (List.map row_tokens_as_stated df))).

Definition comma_text_row : visit :=
  Visit 1 None (Some (u "2024-06-03")) (Some (u "여성")) (Some (u "만19~24세"))
    (Some (u "안양시 동안구")) (Some (u "기타:x,y")) (Some (u "첫방문")).

(** C6, as stated, fails: a purpose string ["기타:x,y"] (the other-text
    ["x,y"] as [visitor_submit] stores it) is one token for
    [calc_purpose_ratio], which splits on [", "] and does not trim; split on
    commas it would be two. *)
Lemma purpose_ratio_comma_fails : ~ purpose_ratio_as_stated [comma_text_row].
Proof. intros H. vm_compute in H. discriminate H. Qed.

(** C6 (amended): [calc_purpose_ratio] cuts each purpose string at the
    occurrences of [", "], drops the empty pieces and counts the pieces of all
    rows together: each entry holds the number of occurrences of its piece,
    the counts add up to the sum over the rows of their numbers of pieces, and
    each percent is the count over that sum, times 100, to one decimal. *)
Theorem calc_purpose_ratio_tag_instances (df : DataFrame) :
  let b := body (calc_purpose_ratio (Some df)) in
  let total := Z.of_nat (sum_list (List.map (fun r => length (row_tokens r)) df)) in
  sum_counts (List.map fst b) = total
  /\ Forall (fun e =>
               e.1.1 ∈ purpose_tokens df /\
               e.1.2 = count_of e.1.1 (purpose_tokens df) /\
               e.2 = percent_of e.1.2 total) b
  /\ (forall t, t ∈ purpose_tokens df -> exists p, (t, count_of t (purpose_tokens df), p) ∈ b).
Proof.
  intros b total. subst b total.
  rewrite calc_purpose_ratio_body, <- length_purpose_tokens.
  pose proof (value_counts_sum (purpose_tokens df)) as Hsum.
  split; [|split].
  - by rewrite with_percent_counts.
  - unfold with_percent. rewrite Hsum.
    apply Forall_forall. intros e He.
    apply list_elem_of_fmap in He as ([x c] & -> & Hin). cbn [fst snd].
    apply elem_of_value_counts in Hin as [Hx ->]. done.
  - intros t Ht. eexists. unfold with_percent.
    apply list_elem_of_fmap.
    exists (t, count_of t (purpose_tokens df)). split; [done|].
    by apply elem_of_value_counts.
Qed.

(** Three tags in one row are three units of the denominator. *)
Example purpose_ratio_three_tags :
  body (calc_purpose_ratio (Some
    [Visit 1 None None None None None
       (Some (u "공부 및 개인작업, 미팅 및 워크숍, 기타")) None]))
  = [ (u "공부 및 개인작업", 1, (333 # 10)%Q);
      (u "미팅 및 워크숍", 1, (333 # 10)%Q);
      (u "기타", 1, (333 # 10)%Q) ].
Proof. reflexivity. Qed.

End RatioFacts.

(** ** Checksheet matrix *)

Module ChecksheetFacts.

(** Some item is ["기타"] or starts with ["기타:"]. *)
Definition has_other (items : list str) : Prop :=
  Exists (fun it => startswith GITA_COLON it = true \/ it = GITA) items.

(** The flag [purpose_to_flags] ends with for the option [k]. *)
Definition flag_value (items : list str) (k : str) : Z :=
  if decide (k = GITA) then (if decide (has_other items) then 1 else 0)
  else if decide (k ∈ items) then 1 else 0.

Lemma zero_flags_lookup (k : str) :
  zero_flags !! k = if decide (k ∈ PURPOSE_OPTIONS) then Some 0 else None.
Proof.
  unfold zero_flags.
  assert (G : forall (l : list str) (m : gmap str Z),
             foldl (fun m p => <[p := 0]> m) m l !! k
             = if decide (k ∈ l) then Some 0 else m !! k).
  { induction l as [|p l IH]; intros m; simpl.
    - done.
    - rewrite IH. destruct (decide (k = p)) as [->|Hne].
      + rewrite lookup_insert_eq.
        rewrite (decide_True (P := p ∈ p :: l)) by left.
        by destruct (decide (p ∈ l)).
      + rewrite lookup_insert_ne by done.
        destruct (decide (k ∈ l)) as [Hin|Hin].
        * rewrite decide_True; [done | by right].
        * rewrite decide_False; [done|].
          intros [?|?]%elem_of_cons; done. }
  rewrite G. by rewrite lookup_empty.
Qed.

Lemma option_not_other_prefix (k : str) :
  k ∈ PURPOSE_OPTIONS -> startswith GITA_COLON k = false.
Proof.
  revert k.
  apply (proj1 (list.Forall_forall (fun k => startswith GITA_COLON k = false)
                  PURPOSE_OPTIONS)).
  by_decide.
Qed.

Lemma gita_option : GITA ∈ PURPOSE_OPTIONS.
Proof. by_decide. Qed.

Lemma has_other_snoc (items : list str) (it : str) :
  has_other (items ++ [it])
  <-> has_other items \/ startswith GITA_COLON it = true \/ it = GITA.
Proof.
  unfold has_other. rewrite Exists_app, Exists_cons.
  split; [|tauto]. intros [?|[?|H]]; [tauto..|inversion H].
Qed.

(** What the loop of [purpose_to_flags] computes: the keys are the options,
    and the flag of an option is [flag_value]. *)
Lemma flags_lookup (items : list str) (k : str) :
  foldl flag_step zero_flags items !! k
  = if decide (k ∈ PURPOSE_OPTIONS) then Some (flag_value items k) else None.
Proof.
  revert k. induction items as [|it items IH] using rev_ind; intros k.
  - simpl. rewrite zero_flags_lookup. unfold flag_value.
    destruct (decide (k ∈ PURPOSE_OPTIONS)); [|done].
    destruct (decide (k = GITA)).
    + rewrite decide_False; [done|]. unfold has_other. by inversion 1.
    + rewrite decide_False; [done|]. by intros ?%elem_of_nil.
  - rewrite foldl_app. cbn [foldl].
    set (F := foldl flag_step zero_flags items) in *. unfold flag_step.
    destruct (decide (k ∈ PURPOSE_OPTIONS)) as [Hk|Hk].
    + pose proof (IH k) as IHk. rewrite decide_True in IHk by done.
      pose proof (option_not_other_prefix k Hk) as Hpre.
      destruct (startswith GITA_COLON it || bool_decide (it = GITA)) eqn:Eo.
      * assert (Ho : startswith GITA_COLON it = true \/ it = GITA).
        { apply orb_true_iff in Eo as [?|?%bool_decide_eq_true]; auto. }
        unfold flag_value. destruct (decide (k = GITA)) as [->|Hg].
        -- rewrite lookup_insert_eq. rewrite decide_True; [done|].
           apply has_other_snoc. tauto.
        -- rewrite lookup_insert_ne by done. rewrite IHk. unfold flag_value.
           rewrite decide_False by done. f_equal.
           assert (k <> it) by (intros ->; destruct Ho; congruence).
           destruct (decide (k ∈ items)) as [Hin|Hin].
           ++ rewrite decide_True; [done|]. apply elem_of_app. by left.
           ++ rewrite decide_False; [done|].
              rewrite elem_of_app, list_elem_of_singleton. tauto.
      * apply orb_false_iff in Eo as [Ep Eg%bool_decide_eq_false].
        assert (Hsame : has_other (items ++ [it]) <-> has_other items).
        { rewrite has_other_snoc. intuition congruence. }
        assert (Hval : k <> it -> flag_value (items ++ [it]) k = flag_value items k).
        { intros Hne. unfold flag_value. destruct (decide (k = GITA)).
          - destruct (decide (has_other items)) as [H1|H1].
            + rewrite decide_True; [done | by apply Hsame].
            + rewrite decide_False; [done | by rewrite Hsame].
          - destruct (decide (k ∈ items)) as [Hin|Hin].
            + rewrite decide_True; [done|]. apply elem_of_app. by left.
            + rewrite decide_False; [done|].
              rewrite elem_of_app, list_elem_of_singleton. tauto. }
        destruct (decide (is_Some (F !! it))) as [Hs|Hs].
        -- destruct (decide (k = it)) as [->|Hne].
           ++ rewrite lookup_insert_eq. unfold flag_value.
              rewrite decide_False by done.
              rewrite decide_True; [done|].
              rewrite elem_of_app, list_elem_of_singleton. tauto.
           ++ rewrite lookup_insert_ne by done. rewrite IHk. by rewrite Hval.
        -- rewrite IHk. rewrite Hval; [done|].
           intros ->. apply Hs. by rewrite IHk.
    + pose proof (IH k) as IHk. rewrite decide_False in IHk by done.
      destruct (startswith GITA_COLON it || bool_decide (it = GITA)).
      * rewrite lookup_insert_ne; [done|].
        intros <-. apply Hk, gita_option.
      * destruct (decide (is_Some (F !! it))) as [Hs|Hs]; [|done].
        rewrite lookup_insert_ne; [done|].
        intros ->. rewrite IHk in Hs. by destruct Hs.
Qed.

Lemma mapM_Some_map {A B : Type} (f : A -> option B) (g : A -> B) (l : list A) :
  (forall x, x ∈ l -> f x = Some (g x)) -> mapM f l = Some (List.map g l).
Proof.
  induction l as [|x l IH]; intros H; [done|].
  simpl. rewrite H by left. simpl. rewrite IH; [done|].
  intros y Hy. apply H. by right.
Qed.

(** The purpose block of a row. *)
Definition purpose_block (r : visit) : list Z :=
  List.map (flag_value (flag_items (Some (py_str (purpose r))))) PURPOSE_OPTIONS.

(** The row [build_row] returns. *)
Definition row_of (r : visit) : list Z :=
  [id r] ++ one_hot (py_str (gender r)) GENDER_OPTIONS
  ++ one_hot (py_str (age_group r)) AGE_OPTIONS
  ++ one_hot (py_str (residence r)) RESIDENCE_OPTIONS
  ++ purpose_block r
  ++ one_hot (py_str (visit_type r)) VISIT_TYPE_OPTIONS.

Lemma build_row_Some (r : visit) : build_row r = Some (row_of r).
Proof.
  unfold build_row, purpose_to_flags.
  rewrite (mapM_Some_map _
            (flag_value (flag_items (Some (py_str (purpose r)))))).
  - done.
  - intros k Hk. rewrite flags_lookup. by rewrite decide_True.
Qed.

Lemma length_row_of (r : visit) : length (row_of r) = length sub_headers.
Proof.
  unfold row_of, purpose_block, one_hot.
  rewrite !length_app, !length_map. reflexivity.
Qed.

Lemma mapM_build_row (df : DataFrame) :
  mapM build_row df = Some (List.map row_of df).
Proof. apply mapM_Some_map. intros r _. apply build_row_Some. Qed.

(** *** The totals row *)

(** Sum of column [j] over the data rows. *)
Definition col_sum (j : nat) (rows : list (list Z)) : Z :=
  sum_Z (List.map (fun row => default 0 (row !! j)) rows).

Lemma col_sum_cons (j : nat) (row : list Z) (rows : list (list Z)) :
  col_sum j (row :: rows) = default 0 (row !! j) + col_sum j rows.
Proof. reflexivity. Qed.

Lemma add_cell_middle (rpre w : list Z) (pre rest : list cell) (x a : Z) :
  length pre = length rpre ->
  add_cell (rpre ++ x :: w) (pre ++ CInt a :: rest) (length pre)
  = Some (pre ++ CInt (a + x) :: rest).
Proof.
  intros Hp. unfold add_cell.
  rewrite (list_lookup_middle rpre w x (length pre)) by done.
  cbn [mbind option_bind].
  rewrite (list_lookup_middle pre rest (CInt a) (length pre)) by done.
  cbn [mbind option_bind].
  rewrite insert_app_r_alt by lia.
  by rewrite Nat.sub_diag.
Qed.

(** The inner loop from column [length pre] on adds the rest of the row to
    the rest of the sums. *)
Lemma add_cells_from (w v : list Z) (pre : list cell) (rpre : list Z) :
  length pre = length rpre -> length v = length w ->
  foldlM (add_cell (rpre ++ w)) (pre ++ List.map CInt v)
         (List.seq (length pre) (length w))
  = Some (pre ++ List.map CInt (zip_with Z.add v w)).
Proof.
  revert v pre rpre.
  induction w as [|x w IH]; intros [|a v] pre rpre Hp Hv; try discriminate Hv.
  - done.
  - cbn [length List.seq foldlM List.map zip_with].
    rewrite add_cell_middle by done. cbn [mbind option_bind].
    rewrite (cons_middle (CInt (a + x)) pre), (cons_middle x rpre), !app_assoc.
    assert (E : S (length pre) = length (pre ++ [CInt (a + x)])).
    { rewrite length_app. simpl. lia. }
    rewrite E, IH.
    + by rewrite <- app_assoc.
    + rewrite !length_app. simpl. lia.
    + simpl in Hv. lia.
Qed.

Lemma length_tail_pred {A : Type} (l : list A) : length (tail l) = pred (length l).
Proof. by destruct l. Qed.

(** The sums after all rows: column by column, the start value plus the
    rows' entries. *)
Definition add_cols (v : list Z) (rows : list (list Z)) : list Z :=
  foldl (fun v row => zip_with Z.add v (tail row)) v rows.

Lemma add_row_cols (v : list Z) (row : list Z) :
  S (length v) = length sub_headers -> length row = length sub_headers ->
  add_row (CStr TOTAL :: List.map CInt v) row
  = Some (CStr TOTAL :: List.map CInt (zip_with Z.add v (tail row))).
Proof.
  intros Hv Hrow. destruct row as [|x0 w]; [discriminate Hrow|].
  unfold add_row.
  assert (E : (length sub_headers - 1)%nat = length w).
  { rewrite <- Hrow. simpl. lia. }
  rewrite E.
  apply (add_cells_from w v [CStr TOTAL] [x0]); [done|].
  simpl in Hrow. lia.
Qed.

Lemma foldlM_add_row (rows : list (list Z)) (v : list Z) :
  S (length v) = length sub_headers ->
  Forall (fun row => length row = length sub_headers) rows ->
  foldlM add_row (CStr TOTAL :: List.map CInt v) rows
  = Some (CStr TOTAL :: List.map CInt (add_cols v rows)).
Proof.
  intros Hv Hrows. revert v Hv.
  induction Hrows as [|row rows Hrow _ IH]; intros v Hv; [done|].
  cbn [foldlM]. rewrite add_row_cols by done. cbn [mbind option_bind].
  apply IH. rewrite length_zip_with, length_tail_pred. lia.
Qed.

Lemma add_cols_lookup (rows : list (list Z)) (v : list Z) (i : nat) (a : Z) :
  Forall (fun row => length row = S (length v)) rows ->
  v !! i = Some a ->
  add_cols v rows !! i = Some (a + col_sum (S i) rows).
Proof.
  intros Hrows. revert v a Hrows.
  induction rows as [|row rows IH]; intros v a Hrows Hi.
  - unfold col_sum. simpl. rewrite Hi. f_equal. lia.
  - apply Forall_cons in Hrows as [Hrow Hrows].
    pose proof (lookup_lt_Some _ _ _ Hi) as Hlt.
    destruct (lookup_lt_is_Some_2 row (S i)) as [x Hx]; [lia|].
    cbn [add_cols foldl].
    fold (add_cols (zip_with Z.add v (tail row)) rows).
    rewrite (IH _ (a + x)).
    + rewrite col_sum_cons, Hx. cbn [default from_option]. unfold Datatypes.id. f_equal. lia.
    + rewrite length_zip_with, length_tail_pred.
      eapply Forall_impl; [exact Hrows|]. simpl. intros. lia.
    + rewrite lookup_zip_with, Hi, lookup_tail, Hx. done.
Qed.

Lemma length_add_cols (rows : list (list Z)) (v : list Z) :
  Forall (fun row => length row = S (length v)) rows ->
  length (add_cols v rows) = length v.
Proof.
  revert v. induction rows as [|row rows IH]; intros v Hrows; [done|].
  apply Forall_cons in Hrows as [Hrow Hrows].
  cbn [add_cols foldl]. fold (add_cols (zip_with Z.add v (tail row)) rows).
  assert (E : length (zip_with Z.add v (tail row)) = length v).
  { rewrite length_zip_with, length_tail_pred. lia. }
  rewrite IH; [done|]. by rewrite E.
Qed.

(** C4: [build_checksheet_matrix] always returns; its totals row has the
    marker ["합계"] in the id column and, in every other column, the sum of
    that column over all data rows. *)
Theorem totals_row_column_sums (df : DataFrame) :
  exists sums rows,
    build_checksheet_matrix df = Some (sub_headers, sums, rows)
    /\ Forall2 (fun r row => build_row r = Some row) df rows
    /\ length sums = length sub_headers
    /\ sums !! 0%nat = Some (CStr TOTAL)
    /\ forall j, (1 <= j < length sub_headers)%nat ->
         sums !! j = Some (CInt (col_sum j rows)).
Proof.
  set (v0 := replicate (length sub_headers - 1) 0).
  exists (CStr TOTAL :: List.map CInt (add_cols v0 (List.map row_of df))),
         (List.map row_of df).
  assert (Hrows : Forall (fun row => length row = length sub_headers)
                    (List.map row_of df)).
  { apply Forall_forall. intros row (r & -> & _)%list_elem_of_fmap.
    apply length_row_of. }
  assert (Hrows' : Forall (fun row => length row = S (length v0)) (List.map row_of df)).
  { eapply Forall_impl; [exact Hrows|]. intros row ->. reflexivity. }
  split; [|split; [|split; [|split]]].
  - unfold build_checksheet_matrix. rewrite mapM_build_row.
    cbn [mbind option_bind].
    change (<[0%nat:=CStr TOTAL]> (replicate (length sub_headers) (CInt 0)))
      with (CStr TOTAL :: List.map CInt v0).
    by rewrite foldlM_add_row.
  - apply Forall2_fmap_r, Forall_Forall2_diag, Forall_forall.
    intros r _. apply build_row_Some.
  - cbn [length]. by rewrite length_map, length_add_cols.
  - done.
  - intros [|i] [H1 H2]; [lia|]. cbn [lookup list_lookup].
    change ((List.map CInt (add_cols v0 (List.map row_of df))) !! i)
      with ((CInt <$> add_cols v0 (List.map row_of df)) !! i).
    rewrite list_lookup_fmap.
    rewrite (add_cols_lookup _ _ _ 0).
    + simpl. repeat f_equal; lia.
    + done.
    + apply lookup_replicate. split; [done|].
      change (length sub_headers) with 21%nat in *. lia.
Qed.

(** *** The data rows *)

(** A block with a single 1, at the place of [v] among the options, when
    [v] is an option; all zeros when it is not. *)
Definition one_hot_block (v : str) (options : list str) (B : list Z) : Prop :=
  (v ∈ options ->
   exists i, options !! i = Some v /\ B = <[i := 1]> (replicate (length options) 0))
  /\ (v ∉ options -> B = replicate (length options) 0).

Lemma one_hot_absent (v : str) (options : list str) :
  v ∉ options -> one_hot v options = replicate (length options) 0.
Proof.
  induction options as [|k options IH]; intros Hv; [done|].
  apply not_elem_of_cons in Hv as [Hk Hv].
  cbn [one_hot List.map length replicate].
  rewrite decide_False by done. f_equal. by apply IH.
Qed.

Lemma one_hot_spec (v : str) (options : list str) :
  NoDup options -> one_hot_block v options (one_hot v options).
Proof.
  intros Hnd. split; [|apply one_hot_absent].
  induction Hnd as [|k options Hk Hnd IH]; [by intros ?%elem_of_nil|].
  intros Hv. cbn [one_hot List.map length replicate].
  destruct (decide (k = v)) as [->|Hne].
  - exists 0%nat. split; [done|]. cbn [insert list_insert]. f_equal.
    by apply one_hot_absent.
  - apply elem_of_cons in Hv as [->|Hv]; [done|].
    destruct (IH Hv) as (i & Hi & E).
    exists (S i). split; [done|]. cbn [insert list_insert]. f_equal. exact E.
Qed.

(** The purpose block: the column of an option other than ["기타"] is 1
    exactly when the option is one of the items; the column of ["기타"] is 1
    exactly when some item is ["기타"] or starts with ["기타:"]. *)
Definition purpose_block_ok (purpose_str : str) (P : list Z) : Prop :=
  let items := flag_items (Some purpose_str) in
  length P = length PURPOSE_OPTIONS
  /\ (forall i k, PURPOSE_OPTIONS !! i = Some k -> k <> GITA ->
        P !! i = Some (if decide (k ∈ items) then 1 else 0))
  /\ (forall i, PURPOSE_OPTIONS !! i = Some GITA ->
        P !! i = Some (if decide (has_other items) then 1 else 0)).

Lemma purpose_block_spec (r : visit) :
  purpose_block_ok (py_str (purpose r)) (purpose_block r).
Proof.
  unfold purpose_block_ok, purpose_block. cbv zeta.
  split; [by rewrite length_map|].
  split.
  - intros i k Hi Hk.
    change (List.map ?f PURPOSE_OPTIONS) with (f <$> PURPOSE_OPTIONS).
    rewrite list_lookup_fmap, Hi. cbn [fmap option_fmap option_map].
    unfold flag_value. by rewrite decide_False by done.
  - intros i Hi.
    change (List.map ?f PURPOSE_OPTIONS) with (f <$> PURPOSE_OPTIONS).
    rewrite list_lookup_fmap, Hi. cbn [fmap option_fmap option_map].
    unfold flag_value. by rewrite decide_True by done.
Qed.

(** What a data row looks like. *)
Definition row_ok (r : visit) (row : list Z) : Prop :=
  exists G A R P V,
    row = [id r] ++ G ++ A ++ R ++ P ++ V
    /\ one_hot_block (py_str (gender r)) GENDER_OPTIONS G
    /\ one_hot_block (py_str (age_group r)) AGE_OPTIONS A
    /\ one_hot_block (py_str (residence r)) RESIDENCE_OPTIONS R
    /\ purpose_block_ok (py_str (purpose r)) P
    /\ one_hot_block (py_str (visit_type r)) VISIT_TYPE_OPTIONS V.

Lemma row_of_ok (r : visit) : row_ok r (row_of r).
Proof.
  exists (one_hot (py_str (gender r)) GENDER_OPTIONS),
         (one_hot (py_str (age_group r)) AGE_OPTIONS),
         (one_hot (py_str (residence r)) RESIDENCE_OPTIONS),
         (purpose_block r),
         (one_hot (py_str (visit_type r)) VISIT_TYPE_OPTIONS).
  split; [done|].
  repeat split; try (apply one_hot_spec; by_decide); try (apply one_hot_absent);
    apply purpose_block_spec.
Qed.

(** C5: in every data row of [build_checksheet_matrix], after the id, the
    blocks of gender, age group, residence and visit type hold a single 1 at
    the stored value's option, or only zeros when the stored value is not an
    option; in the purpose block the column of ["기타"] is 1 exactly when an
    item of the purpose string is ["기타"] or starts with ["기타:"], and the
    column of any other option exactly when that option is an item. *)
Theorem data_row_flags (df : DataFrame) (headers : list str) (sums : list cell)
    (rows : list (list Z)) :
  build_checksheet_matrix df = Some (headers, sums, rows) ->
  Forall2 row_ok df rows.
Proof.
  unfold build_checksheet_matrix. rewrite mapM_build_row.
  cbn [mbind option_bind].
  destruct (foldlM add_row _ _) as [s|]; [|discriminate].
  intros [= _ _ <-].
  apply Forall2_fmap_r, Forall_Forall2_diag, Forall_forall.
  intros r _. apply row_of_ok.
Qed.

Definition matrix_sample : DataFrame :=
  [ Visit 1 None (Some (u "2024-06-03")) (Some (u "여성")) (Some (u "만19~24세"))
      (Some (u "안양시 동안구")) (Some (u "공부 및 개인작업, 기타:bike repair"))
      (Some (u "첫방문"));
    Visit 2 None (Some (u "2024-06-04")) (Some (u "unknown")) None
      (Some (u "기타")) (Some (u "legacy tag, 미팅 및 워크숍")) (Some (u "재방문(2회 이상)")) ].

Lemma data_row_flags_witness :
  Forall2 row_ok matrix_sample
    [ [1; 1; 0; 0; 1; 0; 0; 0; 1; 0; 0; 0; 0; 1; 0; 0; 0; 0; 1; 1; 0];
      [2; 0; 0; 0; 0; 0; 0; 0; 0; 0; 0; 1; 0; 0; 1; 0; 0; 0; 0; 0; 1] ].
Proof.
  eapply (data_row_flags matrix_sample).
  vm_compute. reflexivity.
Defined.

(** The column of ["공용PC, 프린터"] stays 0 whatever the purpose string is:
    no item contains a comma. *)
Example matrix_pc_printer_row :
  build_row (Visit 1 None None None None None (Some (u "공용PC, 프린터")) None)
  = Some [1; 0; 0; 0; 0; 0; 0; 0; 0; 0; 0; 0; 0; 0; 0; 0; 0; 0; 0; 0; 0].
Proof. reflexivity. Qed.

End ChecksheetFacts.

(** ** Calendar arithmetic *)

Module CalendarFacts.

Lemma is_leap_400 (y k : Z) : is_leap (y + 400 * k) = is_leap y.
Proof.
  unfold is_leap.
  replace ((y + 400 * k) mod 4) with (y mod 4) by lia.
  replace ((y + 400 * k) mod 100) with (y mod 100) by lia.
  by replace ((y + 400 * k) mod 400) with (y mod 400) by lia.
Qed.

Lemma days_before_year_400 (y k : Z) :
  days_before_year (y + 400 * k) = days_before_year y + 146097 * k.
Proof. unfold days_before_year. lia. Qed.

Lemma days_before_year_succ (y : Z) :
  days_before_year (y + 1) = days_before_year y + (if is_leap y then 366 else 365).
Proof.
  unfold days_before_year, is_leap.
  destruct (Z.eqb_spec (y mod 4) 0), (Z.eqb_spec (y mod 100) 0),
    (Z.eqb_spec (y mod 400) 0); simpl; lia.
Qed.

Lemma days_before_year_mono (y1 y2 : Z) :
  y1 <= y2 -> days_before_year y1 <= days_before_year y2.
Proof. unfold days_before_year. lia. Qed.

Lemma days_before_year_nonneg (y : Z) : 1 <= y -> 0 <= days_before_year y.
Proof. unfold days_before_year. lia. Qed.

(** Inside a 400-year cycle. *)
Lemma cycle_year (a b c : Z) :
  0 <= a <= 3 -> 0 <= b <= 24 -> 0 <= c <= 3 ->
  days_before_year (100 * a + 4 * b + c + 1) = 36524 * a + 1461 * b + 365 * c.
Proof. intros. unfold days_before_year. lia. Qed.

Lemma cycle_leap (a b c : Z) :
  0 <= a <= 3 -> 0 <= b <= 24 -> 0 <= c <= 3 ->
  is_leap (100 * a + 4 * b + c + 1) = (c =? 3) && (negb (b =? 24) || (a =? 3)).
Proof.
  intros. unfold is_leap.
  destruct (Z.eqb_spec ((100 * a + 4 * b + c + 1) mod 4) 0),
    (Z.eqb_spec ((100 * a + 4 * b + c + 1) mod 100) 0),
    (Z.eqb_spec ((100 * a + 4 * b + c + 1) mod 400) 0),
    (Z.eqb_spec c 3), (Z.eqb_spec b 24), (Z.eqb_spec a 3);
    simpl; try reflexivity; exfalso; lia.
Qed.

(** Month lengths and offsets in terms of the leap flag alone. *)
Definition month_length (leap : bool) (m : Z) : Z :=
  if m =? 2 then (if leap then 29 else 28)
  else if (m =? 4) || (m =? 6) || (m =? 9) || (m =? 11) then 30
  else 31.

Definition before_month (leap : bool) (m : Z) : Z :=
  DAYS_BEFORE_MONTH m + (if (2 <? m) && leap then 1 else 0).

Definition month_day_check (leap : bool) (n : Z) : bool :=
  let '(m, d) := month_day leap n in
  (1 <=? m) && (m <=? 12) && (1 <=? d) && (d <=? month_length leap m)
  && (before_month leap m + d =? n + 1).

Lemma month_day_checked :
  Forall (fun n => month_day_check true n = true /\ month_day_check false n = true)
         (seqZ 0 365).
Proof. by_decide. Qed.

(** [month_day] finds the month and day of a day of the year. *)
Lemma month_day_ok (leap : bool) (n m d : Z) :
  0 <= n < 365 -> month_day leap n = (m, d) ->
  1 <= m <= 12 /\ 1 <= d <= month_length leap m /\ before_month leap m + d = n + 1.
Proof.
  intros Hn E.
  assert (Hc : month_day_check leap n = true).
  { pose proof month_day_checked as H.
    rewrite list.Forall_forall in H.
    destruct (H n) as [Ht Hf]; [apply elem_of_seqZ; lia|].
    by destruct leap. }
  unfold month_day_check in Hc. rewrite E in Hc.
  repeat (apply andb_true_iff in Hc as [Hc ?]).
  lia.
Qed.

Lemma toordinal_Date (y m d : Z) :
  toordinal (Date y m d) = days_before_year y + before_month (is_leap y) m + d.
Proof. reflexivity. Qed.

Lemma valid_Date (y m d : Z) :
  valid_date (Date y m d) = true
  <-> 1 <= y /\ 1 <= m <= 12 /\ 1 <= d <= month_length (is_leap y) m.
Proof.
  unfold valid_date. cbn [year month day].
  change (days_in_month y m) with (month_length (is_leap y) m).
  rewrite !andb_true_iff, !Z.leb_le. tauto.
Qed.

(** [ord2ymd_cycle] inverts [toordinal] on one cycle. *)
Lemma toordinal_cycle (r : Z) :
  0 <= r < 146097 ->
  toordinal (ord2ymd_cycle r) = r + 1
  /\ valid_date (ord2ymd_cycle r) = true
  /\ 1 <= year (ord2ymd_cycle r) <= 400.
Proof.
  intros Hr. unfold ord2ymd_cycle. cbv zeta.
  set (a := r / 36524). set (r1 := r mod 36524).
  set (b := r1 / 1461). set (r2 := r1 mod 1461).
  set (c := r2 / 365). set (n := r2 mod 365).
  assert (Ha : r = 36524 * a + r1 /\ 0 <= r1 < 36524) by (subst a r1; lia).
  assert (Hb : r1 = 1461 * b + r2 /\ 0 <= r2 < 1461) by (subst b r2; lia).
  assert (Hc : r2 = 365 * c + n /\ 0 <= n < 365) by (subst c n; lia).
  clearbody a r1 b r2 c n.
  destruct (Z.eqb_spec c 4) as [Ec|Ec]; [|destruct (Z.eqb_spec a 4) as [Ea|Ea]];
    cbn [orb].
  - (* the last day of a leap year *)
    assert (Hab : 0 <= a <= 3 /\ 0 <= b <= 23 /\ n = 0) by lia.
    replace (a * 100 + b * 4 + c + 1 - 1) with (100 * a + 4 * b + 3 + 1) by lia.
    rewrite toordinal_Date, valid_Date, cycle_year, cycle_leap by lia.
    replace (b =? 24) with false by (symmetry; apply Z.eqb_neq; lia).
    cbn [Z.eqb Pos.eqb negb orb andb].
    change (before_month true 12) with 335.
    change (month_length true 12) with 31. cbn [year]. lia.
  - (* the last day of the cycle *)
    assert (Hab : b = 0 /\ c = 0 /\ n = 0 /\ r = 146096) by lia.
    destruct Hab as (-> & -> & -> & ->). subst a. by vm_compute.
  - assert (Hab : 0 <= a <= 3 /\ 0 <= b <= 24 /\ 0 <= c <= 3) by lia.
    replace (a * 100 + b * 4 + c + 1) with (100 * a + 4 * b + c + 1) by lia.
    rewrite <- cycle_leap by lia.
    destruct (month_day (is_leap (100 * a + 4 * b + c + 1)) n) as [m d] eqn:Emd.
    apply month_day_ok in Emd; [|lia].
    rewrite toordinal_Date, valid_Date, cycle_year by lia.
    cbn [year]. lia.
Qed.

(** [fromordinal] inverts [toordinal] and returns a date. *)
Lemma toordinal_fromordinal (n : Z) :
  1 <= n -> toordinal (fromordinal n) = n /\ valid_date (fromordinal n) = true.
Proof.
  intros Hn. unfold fromordinal. cbv zeta.
  set (q := (n - 1) / 146097). set (r := (n - 1) mod 146097).
  assert (Hq : n - 1 = 146097 * q + r /\ 0 <= r < 146097 /\ 0 <= q) by (subst q r; lia).
  clearbody q r.
  destruct (toordinal_cycle r) as (Ho & Hv & Hy); [lia|].
  destruct (ord2ymd_cycle r) as [y m d]. cbn [year month day] in *.
  rewrite toordinal_Date in Ho. rewrite valid_Date in Hv.
  replace (q * 400 + y) with (y + 400 * q) by lia.
  rewrite toordinal_Date, valid_Date, is_leap_400, days_before_year_400.
  lia.
Qed.

(** *** Order *)

Lemma before_month_table :
  Forall (fun m1 =>
    (0 <= before_month true m1 /\ 0 <= before_month false m1
     /\ before_month true m1 + month_length true m1 <= 366
     /\ before_month false m1 + month_length false m1 <= 365)
    /\ Forall (fun m2 =>
         m1 < m2 ->
         before_month true m1 + month_length true m1 <= before_month true m2
         /\ before_month false m1 + month_length false m1 <= before_month false m2)
       (seqZ 1 12))
    (seqZ 1 12).
Proof. by_decide. Qed.

Lemma before_month_bounds (leap : bool) (m : Z) :
  1 <= m <= 12 ->
  0 <= before_month leap m
  /\ before_month leap m + month_length leap m <= (if leap then 366 else 365).
Proof.
  intros Hm. pose proof before_month_table as H.
  rewrite list.Forall_forall in H.
  destruct (H m) as [Hb _]; [apply elem_of_seqZ; lia|].
  destruct leap; lia.
Qed.

Lemma before_month_mono (leap : bool) (m1 m2 : Z) :
  1 <= m1 -> m1 < m2 -> m2 <= 12 ->
  before_month leap m1 + month_length leap m1 <= before_month leap m2.
Proof.
  intros H1 H12 H2. pose proof before_month_table as H.
  rewrite list.Forall_forall in H.
  destruct (H m1) as [_ Hm]; [apply elem_of_seqZ; lia|].
  rewrite list.Forall_forall in Hm.
  destruct (Hm m2) as [Ht Hf]; [apply elem_of_seqZ; lia|done|].
  by destruct leap.
Qed.

Lemma date_lt_spec (a b : date) :
  date_lt a b = true
  <-> year a < year b
      \/ year a = year b
         /\ (month a < month b \/ month a = month b /\ day a < day b).
Proof.
  unfold date_lt.
  rewrite !orb_true_iff, !andb_true_iff, !orb_true_iff, !andb_true_iff,
    !Z.ltb_lt, !Z.eqb_eq.
  tauto.
Qed.

(** [toordinal] is increasing on dates. *)
Lemma toordinal_lt (a b : date) :
  valid_date a = true -> valid_date b = true -> date_lt a b = true ->
  toordinal a < toordinal b.
Proof.
  destruct a as [ya ma da], b as [yb mb db].
  rewrite !valid_Date, date_lt_spec, !toordinal_Date. cbn [year month day].
  intros (Hya & Hma & Hda) (Hyb & Hmb & Hdb) Hlt.
  pose proof (before_month_bounds (is_leap ya) ma Hma) as Ba.
  pose proof (before_month_bounds (is_leap yb) mb Hmb) as Bb.
  destruct Hlt as [Hy|[-> [Hm|[-> Hd]]]].
  - pose proof (days_before_year_succ ya) as Hs.
    pose proof (days_before_year_mono (ya + 1) yb) as Hmono.
    destruct (is_leap ya); lia.
  - pose proof (before_month_mono (is_leap yb) ma mb). lia.
  - lia.
Qed.

Lemma date_lt_trichotomy (a b : date) :
  a = b \/ date_lt a b = true \/ date_lt b a = true.
Proof.
  rewrite !date_lt_spec. destruct a as [ya ma da], b as [yb mb db].
  cbn [year month day].
  destruct (Z.lt_trichotomy ya yb) as [?|[->|?]]; [tauto| |tauto].
  destruct (Z.lt_trichotomy ma mb) as [?|[->|?]]; [tauto| |tauto].
  destruct (Z.lt_trichotomy da db) as [?|[->|?]]; tauto.
Qed.

Lemma date_lt_iff (a b : date) :
  valid_date a = true -> valid_date b = true ->
  (date_lt a b = true <-> toordinal a < toordinal b).
Proof.
  intros Ha Hb. split; [by apply toordinal_lt|].
  intros Hlt. destruct (date_lt_trichotomy a b) as [->|[?|Hba]]; [lia|done|].
  apply toordinal_lt in Hba; [lia|done..].
Qed.

Lemma date_le_iff (a b : date) :
  valid_date a = true -> valid_date b = true ->
  (date_le a b = true <-> toordinal a <= toordinal b).
Proof.
  intros Ha Hb. unfold date_le. rewrite negb_true_iff.
  pose proof (date_lt_iff b a Hb Ha) as H.
  destruct (date_lt b a); split; intros; try done; lia.
Qed.

Lemma toordinal_inj (a b : date) :
  valid_date a = true -> valid_date b = true -> toordinal a = toordinal b -> a = b.
Proof.
  intros Ha Hb E. destruct (date_lt_trichotomy a b) as [?|[H|H]]; [done|..];
    apply toordinal_lt in H; try done; lia.
Qed.

Lemma toordinal_pos (d : date) : valid_date d = true -> 1 <= toordinal d.
Proof.
  destruct d as [y m dd]. rewrite valid_Date, toordinal_Date.
  intros (Hy & Hm & Hd).
  pose proof (days_before_year_nonneg y Hy).
  pose proof (before_month_bounds (is_leap y) m Hm). lia.
Qed.

Lemma fromordinal_toordinal (d : date) :
  valid_date d = true -> fromordinal (toordinal d) = d.
Proof.
  intros Hd. pose proof (toordinal_pos d Hd) as Hp.
  destruct (toordinal_fromordinal (toordinal d) Hp) as [Ho Hv].
  by apply toordinal_inj.
Qed.

(** *** Ranges of days *)

(** [date_range a b] lists exactly the dates from [a] to [b]. *)
Lemma elem_of_date_range (a b d : date) :
  valid_date a = true -> valid_date b = true ->
  d ∈ date_range a b
  <-> valid_date d = true /\ date_le a d = true /\ date_le d b = true.
Proof.
  intros Ha Hb. unfold date_range.
  pose proof (toordinal_pos a Ha) as Hpa.
  rewrite list_elem_of_fmap. setoid_rewrite elem_of_seqZ. split.
  - intros (n & -> & Hn).
    destruct (toordinal_fromordinal n) as [Ho Hv]; [lia|].
    rewrite !date_le_iff by done. rewrite Ho. split; [done|lia].
  - intros (Hd & Hle1 & Hle2).
    rewrite date_le_iff in Hle1, Hle2 by done.
    exists (toordinal d). split; [by rewrite fromordinal_toordinal|lia].
Qed.


Lemma fromordinal_sorted (k : nat) (m : Z) :
  1 <= m ->
  StronglySorted (fun x y => date_lt x y = true)
    (List.map fromordinal (seqZ m (Z.of_nat k))).
Proof.
  revert m. induction k as [|k IH]; intros m Hm.
  - constructor.
  - rewrite seqZ_cons by lia.
    replace (Z.pred (Z.of_nat (S k))) with (Z.of_nat k) by lia.
    cbn [List.map]. constructor.
    + apply IH. lia.
    + apply Forall_forall. intros d (n & -> & Hn%elem_of_seqZ)%list_elem_of_fmap.
      destruct (toordinal_fromordinal m) as [Ho Hv]; [lia|].
      destruct (toordinal_fromordinal n) as [Ho' Hv']; [lia|].
      apply date_lt_iff; [done..|]. lia.
Qed.

(** The days of a range come in calendar order. *)
Lemma date_range_sorted (a b : date) :
  valid_date a = true ->
  StronglySorted (fun x y => date_lt x y = true) (date_range a b).
Proof.
  intros Ha. unfold date_range.
  destruct (Z.le_gt_cases 0 (toordinal b - toordinal a + 1)) as [H|H].
  - rewrite <- (Z2Nat.id _ H). apply fromordinal_sorted. by apply toordinal_pos.
  - replace (seqZ (toordinal a) (toordinal b - toordinal a + 1)) with (@nil Z).
    + constructor.
    + symmetry. apply length_zero_iff_nil. rewrite length_seqZ. lia.
Qed.

End CalendarFacts.

(** ** Daily counts *)

Module DailyFacts.
Import AggregatorFacts CalendarFacts.

(** *** Parsing and printing dates *)

Lemma digit_bounds (c : N) (a : Z) : digit c = Some a -> 0 <= a <= 9.
Proof.
  unfold digit. destruct ((48 <=? c)%N && (c <=? 57)%N) eqn:E; [|done].
  apply andb_true_iff in E as [E1%N.leb_le E2%N.leb_le].
  intros [= <-]. lia.
Qed.

(** [strptime] returns a date, of a year of four digits. *)
Lemma strptime_valid (s : str) (d : date) :
  strptime s = Some d -> valid_date d = true /\ year d <= 9999.
Proof.
  unfold strptime.
  destruct s as [|y1 [|y2 [|y3 [|y4 [|c rest]]]]]; try discriminate.
  destruct (digit y1) as [a|] eqn:E1; [|discriminate].
  destruct (digit y2) as [b|] eqn:E2; [|discriminate].
  destruct (digit y3) as [c3|] eqn:E3; [|discriminate].
  destruct (digit y4) as [e|] eqn:E4; [|discriminate].
  cbn [mbind option_bind].
  destruct (c =? 45)%N; [|discriminate].
  destruct (parse_month rest) as [[m rest']|]; [|discriminate].
  cbn [mbind option_bind].
  destruct (parse_day rest') as [dd|]; [|discriminate].
  cbn [mbind option_bind].
  destruct (valid_date _) eqn:Ev; [|discriminate].
  intros [= <-]. split; [done|]. cbn [year].
  apply digit_bounds in E1, E2, E3, E4. lia.
Qed.

Lemma digit_char_inj (a b : Z) :
  0 <= a -> 0 <= b -> digit_char a = digit_char b -> a = b.
Proof. unfold digit_char. lia. Qed.

(** Distinct dates print differently. *)
Lemma strftime_inj (a b : date) :
  valid_date a = true -> valid_date b = true ->
  year a <= 9999 -> year b <= 9999 ->
  strftime a = strftime b -> a = b.
Proof.
  destruct a as [ya ma da], b as [yb mb db].
  rewrite !valid_Date. cbn [year].
  intros (Hya & Hma & Hda) (Hyb & Hmb & Hdb) Ha Hb.
  unfold strftime. cbn [year month day].
  intros [= E1 E2 E3 E4 E5 E6 E7 E8].
  apply digit_char_inj in E1, E2, E3, E4, E5, E6, E7, E8; try lia.
  f_equal; lia.
Qed.

(** *** The series *)

(** Number of rows whose [visit_date] prints as [x]. *)
Definition visits_on (df : option DataFrame) (x : str) : Z :=
  count_of x (List.map (fun r => py_str (visit_date r)) (rows_of df)).

(** The days [make_daily_counts] keeps. *)
Definition open_days (s e : date) : list date :=
  filter (fun d => weekday d <> 6) (date_range s e).

Definition sundays (s e : date) : list date :=
  filter (fun d => weekday d = 6) (date_range s e).

(** The series over the kept days. *)
Definition series_of (df : option DataFrame) (days : list date) : list (str * Z) :=
  List.map (fun d => (strftime d, visits_on df (strftime d))) days.

Lemma vc_get_value_counts (l : list str) (x : str) :
  vc_get (value_counts l) x = count_of x l.
Proof.
  unfold vc_get.
  destruct (list_find (fun e => e.1 = x) (value_counts l)) as [[i [y c]]|] eqn:E.
  - apply list_find_Some in E as (Hi & Hx & _). cbn [fst] in Hx. subst y.
    apply list_elem_of_lookup_2, elem_of_value_counts in Hi as [_ ->]. done.
  - apply list_find_None in E.
    destruct (decide (x ∈ l)) as [Hin|Hin].
    + exfalso. rewrite list.Forall_forall in E.
      apply (E (x, count_of x l)); [|done].
      by apply elem_of_value_counts.
    + pose proof (count_of_pos x l). pose proof (count_of_nonneg x l).
      destruct (decide (0 < count_of x l)); [tauto|lia].
Qed.

Lemma sum_Z_zero {A : Type} (l : list A) : sum_Z (List.map (fun _ => 0) l) = 0.
Proof. induction l as [|x l IH]; [done|]. simpl. by rewrite IH. Qed.


(** What [make_daily_counts] returns on a well-formed range. *)
Lemma make_daily_counts_range (df : option DataFrame) (start end_ : str) (s e : date) :
  strptime start = Some s -> strptime end_ = Some e -> date_lt e s = false ->
  (open_days s e = [] /\ make_daily_counts df start end_ = ([], MsgNoDays start end_))
  \/ (open_days s e <> []
      /\ exists avg,
           make_daily_counts df start end_
           = (series_of df (open_days s e),
              MsgSummary start end_
                (Z.of_nat (length (sundays s e)))
                (Z.of_nat (length (open_days s e)))
                (sum_Z (List.map snd (series_of df (open_days s e))))
                avg)
           /\ (avg == inject_Z (sum_Z (List.map snd (series_of df (open_days s e))))
                      / inject_Z (Z.of_nat (length (open_days s e))))%Q).
Proof.
  intros Hs He Hlt. unfold make_daily_counts. rewrite Hs, He, Hlt. cbv zeta.
  fold (open_days s e). fold (sundays s e).
  destruct (open_days s e) as [|d0 ds] eqn:Edays; [by left|].
  right. split; [done|]. rewrite <- Edays.
  rewrite decide_False by (rewrite Edays; done).
  assert (Hn : Z.of_nat (length (open_days s e)) <> 0) by (rewrite Edays; simpl; lia).
  destruct (df_empty df) eqn:Edf.
  - assert (Hrows : rows_of df = []).
    { destruct df as [[|r rows]|]; done. }
    assert (Hser : series_of df (open_days s e)
                   = List.map (fun d => (strftime d, 0)) (open_days s e)).
    { unfold series_of, visits_on. by rewrite Hrows. }
    rewrite Hser. exists 0%Q. split.
    + do 2 f_equal. rewrite List.map_map. cbn [snd]. by rewrite sum_Z_zero.
    + rewrite List.map_map. cbn [snd]. rewrite sum_Z_zero.
      unfold Qdiv. ring.
  - assert (Hser : List.map
             (fun d => (strftime d,
                vc_get (value_counts
                          (List.map (fun r => py_str (visit_date r)) (rows_of df)))
                       (strftime d)))
             (open_days s e)
           = series_of df (open_days s e)).
    { unfold series_of, visits_on. apply List.map_ext. intros d.
      by rewrite vc_get_value_counts. }
    rewrite Hser. rewrite decide_True by done.
    eexists. split; [reflexivity|reflexivity].
Qed.



(** *** Summary and completeness *)

Lemma sorted_filter (P : date -> Prop) `{!forall d, Decision (P d)} (l : list date) :
  StronglySorted (fun x y => date_lt x y = true) l ->
  StronglySorted (fun x y => date_lt x y = true) (filter P l).
Proof.
  induction 1 as [|d l Hs IH Hall]; [constructor|].
  destruct (decide (P d)).
  - rewrite filter_cons_True by done. constructor; [done|].
    apply Forall_forall. intros y [_ Hy]%list_elem_of_filter.
    rewrite list.Forall_forall in Hall. by apply Hall.
  - by rewrite filter_cons_False by done.
Qed.

Lemma date_lt_irrefl (d : date) : date_lt d d = false.
Proof.
  destruct (date_lt d d) eqn:E; [|done].
  apply date_lt_spec in E. lia.
Qed.

Lemma sorted_NoDup (l : list date) :
  StronglySorted (fun x y => date_lt x y = true) l -> NoDup l.
Proof.
  induction 1 as [|d l Hs IH Hall]; constructor; [|done].
  intros Hin. rewrite list.Forall_forall in Hall.
  specialize (Hall d Hin). by rewrite date_lt_irrefl in Hall.
Qed.

Lemma elem_of_open_days (s e d : date) :
  valid_date s = true -> valid_date e = true ->
  d ∈ open_days s e
  <-> valid_date d = true /\ date_le s d = true /\ date_le d e = true
      /\ weekday d <> 6.
Proof.
  intros Hs He. unfold open_days.
  rewrite list_elem_of_filter, elem_of_date_range by done. tauto.
Qed.

Lemma date_le_year (a b : date) : date_le a b = true -> year a <= year b.
Proof.
  unfold date_le. rewrite negb_true_iff. intros H.
  destruct (Z.le_gt_cases (year a) (year b)) as [|Hgt]; [done|].
  assert (date_lt b a = true) by (apply date_lt_spec; lia). congruence.
Qed.




Definition daily_sample : option DataFrame :=
  Some [Visit 1 None (Some (u "2024-06-03")) (Some (u "여성")) None None
          (Some (u "공부 및 개인작업")) None].


(** The scenario of the specification: one visit on Monday 2024-06-03, the
    week up to Sunday 2024-06-09. *)
Example daily_scenario :
  make_daily_counts daily_sample (u "2024-06-03") (u "2024-06-09")
  = ([ (u "2024-06-03", 1); (u "2024-06-04", 0); (u "2024-06-05", 0);
       (u "2024-06-06", 0); (u "2024-06-07", 0); (u "2024-06-08", 0) ],
     MsgSummary (u "2024-06-03") (u "2024-06-09") 1 6 1 (1 # 6)%Q).
Proof. reflexivity. Qed.

(** A range that is one Sunday: no series, no error. *)
Example daily_only_sunday :
  make_daily_counts daily_sample (u "2024-06-09") (u "2024-06-09")
  = ([], MsgNoDays (u "2024-06-09") (u "2024-06-09")).
Proof. reflexivity. Qed.

End DailyFacts.

(** ** Other-text tokens in the purpose ratio and in the checksheet *)

Module OtherTextFacts.
Import AggregatorFacts RatioFacts ChecksheetFacts.

(** A piece of a split on [", "] starts the string or follows a [", "]. *)
Lemma split_go_piece (n : nat) (s cur t : str) :
  (length s <= n)%nat ->
  t ∈ split_go COMMA_SP 0 cur s ->
  (exists y, cur ++ s = t ++ y) \/ (exists a y, s = a ++ COMMA_SP ++ t ++ y).
Proof.
  revert s cur. induction n as [|n IH]; intros s cur Hlen Ht.
  - destruct s; [|simpl in Hlen; lia].
    apply list_elem_of_singleton in Ht as ->. left. by exists [].
  - destruct s as [|c s'].
    { apply list_elem_of_singleton in Ht as ->. left. by exists []. }
    change (split_go COMMA_SP 0 cur (c :: s'))
      with (if startswith COMMA_SP (c :: s')
            then cur :: split_go COMMA_SP 1 [] s'
            else split_go COMMA_SP 0 (cur ++ [c]) s') in Ht.
    destruct (startswith COMMA_SP (c :: s')) eqn:Esep.
    + apply startswith_inv in Esep as [r Er].
      change (COMMA_SP ++ r) with (44%N :: 32%N :: r) in Er.
      injection Er as -> ->.
      change (split_go COMMA_SP 1 [] (32%N :: r)) with (split_go COMMA_SP 0 [] r) in Ht.
      apply elem_of_cons in Ht as [->|Ht].
      * left. by eexists.
      * right. apply IH in Ht; [|simpl in Hlen; lia].
        destruct Ht as [[y Hy]|(a & y & ->)].
        -- exists [], y. simpl in Hy. by rewrite Hy.
        -- exists (COMMA_SP ++ a), y. by rewrite <- app_assoc.
    + apply IH in Ht; [|simpl in Hlen; lia].
      destruct Ht as [[y Hy]|(a & y & ->)].
      * left. exists y. by rewrite <- Hy, <- app_assoc.
      * right. by exists (c :: a), y.
Qed.

(** The first piece of a split on one character. *)
Lemma split_go1_first (c : N) (g b cur : str) :
  c ∉ g -> exists z rest, split_go [c] 0 cur (g ++ b) = (cur ++ g ++ z) :: rest.
Proof.
  revert cur. induction g as [|x g IH]; intros cur Hc.
  - clear Hc. revert cur. induction b as [|x b IHb]; intros cur.
    + exists [], []. simpl. by rewrite app_nil_r.
    + change (split_go [c] 0 cur ([] ++ x :: b))
        with (if startswith [c] (x :: b) then cur :: split_go [c] 0 [] b
              else split_go [c] 0 (cur ++ [x]) b).
      rewrite startswith_cons1. destruct (c =? x)%N.
      * exists [], (split_go [c] 0 [] b). simpl. by rewrite app_nil_r.
      * destruct (IHb (cur ++ [x])) as (z & rest & E).
        exists (x :: z), rest. simpl in E. rewrite E. by rewrite <- app_assoc.
  - apply not_elem_of_cons in Hc as [Hx Hg].
    change (split_go [c] 0 cur ((x :: g) ++ b))
      with (if startswith [c] (x :: g ++ b) then cur :: split_go [c] 0 [] (g ++ b)
            else split_go [c] 0 (cur ++ [x]) (g ++ b)).
    rewrite startswith_cons1. destruct (N.eqb_spec c x) as [->|_]; [done|].
    destruct (IH (cur ++ [x]) Hg) as (z & rest & E).
    exists z, rest. rewrite E. by rewrite <- app_assoc.
Qed.

(** The pieces after a separator are pieces of the whole. *)
Lemma split_go1_suffix (c : N) (a y cur it : str) :
  it ∈ split_go [c] 0 [] y -> it ∈ split_go [c] 0 cur (a ++ c :: y).
Proof.
  intros Hit. revert cur. induction a as [|x a IH]; intros cur.
  - change (split_go [c] 0 cur ([] ++ c :: y))
      with (if startswith [c] (c :: y) then cur :: split_go [c] 0 [] y
            else split_go [c] 0 (cur ++ [c]) y).
    rewrite startswith_cons1, N.eqb_refl. by right.
  - change (split_go [c] 0 cur ((x :: a) ++ c :: y))
      with (if startswith [c] (x :: a ++ c :: y)
            then cur :: split_go [c] 0 [] (a ++ c :: y)
            else split_go [c] 0 (cur ++ [x]) (a ++ c :: y)).
    rewrite startswith_cons1. destruct (c =? x)%N; [right|]; apply IH.
Qed.

Lemma lstrip_keeps (x r : str) (c : N) :
  is_space c = false -> exists x', lstrip (x ++ c :: r) = x' ++ c :: r.
Proof.
  intros Hc. induction x as [|a x IH].
  - exists []. simpl. by rewrite Hc.
  - simpl. destruct (is_space a); [done|]. by exists (a :: x).
Qed.

Lemma rstrip_keeps (a r : str) (c : N) :
  is_space c = false -> exists r', rstrip (a ++ c :: r) = a ++ c :: r'.
Proof.
  intros Hc.
  assert (H : exists r', rstrip (c :: r) = c :: r').
  { simpl. destruct (rstrip r) as [|d r']; [|by eexists].
    rewrite Hc. by eexists. }
  destruct H as [r' E]. exists r'.
  rewrite rstrip_app; by rewrite E.
Qed.

(** A [", "]-piece that starts with ["기타:"] shows in the items of
    [purpose_to_flags] as an item that starts with ["기타:"]. *)
Lemma other_piece_is_item (p t : str) :
  t ∈ split COMMA_SP p -> startswith GITA_COLON t = true ->
  has_other (flag_items (Some p)).
Proof.
  intros Ht Hpre.
  apply startswith_inv in Hpre as [text ->].
  (* where the piece sits in the string *)
  assert (Hshape : exists x b, p = x ++ GITA_COLON ++ b
                               /\ (x = [] \/ exists x', x = x' ++ COMMA_SP)).
  { apply (split_go_piece (length p)) in Ht; [|done].
    destruct Ht as [[y Hy]|(a & y & ->)].
    - exists [], (text ++ y). simpl in Hy. split; [exact Hy|by left].
    - exists (a ++ COMMA_SP), (text ++ y).
      split; [by rewrite <- !app_assoc | right; by exists a]. }
  destruct Hshape as (x & b & -> & Hx).
  (* stripping the string keeps that shape *)
  assert (Hstrip : exists x2 b2, strip (x ++ GITA_COLON ++ b) = x2 ++ GITA_COLON ++ b2
                                 /\ (x2 = [] \/ exists x', x2 = x' ++ COMMA_SP)).
  { unfold strip.
    assert (Hl : exists x2, lstrip (x ++ GITA_COLON ++ b) = x2 ++ GITA_COLON ++ b
                            /\ (x2 = [] \/ exists x', x2 = x' ++ COMMA_SP)).
    { destruct Hx as [->|[x' ->]].
      - exists []. split; [done|by left].
      - destruct (lstrip_keeps x' (32%N :: GITA_COLON ++ b) 44%N) as [x'' E]; [done|].
        exists (x'' ++ COMMA_SP). split; [|eauto].
        rewrite <- !app_assoc. exact E. }
    destruct Hl as (x2 & -> & Hx2).
    destruct (rstrip_keeps (x2 ++ [44592%N; 53440%N]) b 58%N) as [b2 E]; [done|].
    exists x2, b2. split; [|done].
    rewrite <- !app_assoc in E. exact E. }
  destruct Hstrip as (x2 & b2 & Es & Hx2).
  (* the item *)
  assert (Hit : exists ws z, forallb is_space ws = true
                 /\ (ws ++ GITA_COLON ++ z) ∈ split COMMA (x2 ++ GITA_COLON ++ b2)).
  { destruct Hx2 as [->|[x' ->]].
    - destruct (split_go1_first 44%N GITA_COLON b2 []) as (z & rest & E); [by_decide|].
      exists [], z. split; [done|].
      change (split COMMA ([] ++ GITA_COLON ++ b2))
        with (split_go [44%N] 0 [] (GITA_COLON ++ b2)).
      rewrite E. left.
    - destruct (split_go1_first 44%N GITA_COLON b2 [32%N]) as (z & rest & E); [by_decide|].
      exists [32%N], z. split; [done|].
      change (split COMMA ((x' ++ COMMA_SP) ++ GITA_COLON ++ b2))
        with (split_go [44%N] 0 [] ((x' ++ COMMA_SP) ++ GITA_COLON ++ b2)).
      rewrite <- app_assoc.
      apply (split_go1_suffix 44%N x' (32%N :: GITA_COLON ++ b2) []).
      change (([32%N] ++ GITA_COLON ++ z)
              ∈ split_go [44%N] 0 [32%N] (GITA_COLON ++ b2)).
      rewrite E. left. }
  destruct Hit as (ws & z & Hws & Hin).
  assert (Hst : exists z', strip (ws ++ GITA_COLON ++ z) = GITA_COLON ++ z').
  { unfold strip. rewrite lstrip_spaces by done.
    change (lstrip (GITA_COLON ++ z)) with (GITA_COLON ++ z).
    destruct (rstrip_keeps [44592%N; 53440%N] z 58%N) as [z' E]; [done|].
    by exists z'. }
  destruct Hst as [z' Ez].
  unfold has_other, flag_items. change (or_empty (Some ?q)) with q.
  rewrite Es. apply Exists_exists. exists (GITA_COLON ++ z'). split.
  - apply list_elem_of_filter. split; [done|].
    apply list_elem_of_fmap. eexists. split; [|exact Hin]. by rewrite Ez.
  - left. apply startswith_app.
Qed.


Lemma elem_of_purpose_ratio (df : DataFrame) (x : str) (c : Z) (p : Q) :
  (x, c, p) ∈ body (calc_purpose_ratio (Some df)) ->
  x ∈ purpose_tokens df /\ c = count_of x (purpose_tokens df).
Proof.
  rewrite calc_purpose_ratio_body. unfold with_percent.
  intros ([y n] & [= -> -> _] & Hin)%list_elem_of_fmap.
  by apply elem_of_value_counts.
Qed.

Lemma purpose_ratio_has (df : DataFrame) (x : str) :
  x ∈ purpose_tokens df ->
  exists p, (x, count_of x (purpose_tokens df), p) ∈ body (calc_purpose_ratio (Some df)).
Proof.
  intros Hx. rewrite calc_purpose_ratio_body. unfold with_percent.
  eexists. apply list_elem_of_fmap.
  exists (x, count_of x (purpose_tokens df)). split; [done|].
  by apply elem_of_value_counts.
Qed.

(** Column of the purpose option ["기타"] in a data row (after the id, three
    gender, four age and four residence columns and six other purposes). *)
Definition OTHER_PURPOSE_COLUMN : nat := 18.

Lemma row_other_column (r : visit) :
  row_of r !! OTHER_PURPOSE_COLUMN
  = Some (flag_value (flag_items (Some (py_str (purpose r)))) GITA).
Proof. reflexivity. Qed.

(** C10: a token ["기타:<text>"] with a non-empty text is a category of its
    own in [calc_purpose_ratio]: when a row carries it the table has an entry
    under that very label, any entry under the label counts the occurrences
    of that very token, the entry of the bare ["기타"] counts the bare tokens
    only, and another text gives another label.  The checksheet row of a row
    that carries such a token has 1 in the column of ["기타"]. *)
Theorem other_text_own_category (df : DataFrame) (text : str) :
  text <> [] ->
  let t := GITA_COLON ++ text in
  let b := body (calc_purpose_ratio (Some df)) in
  t <> GITA
  /\ (t ∈ purpose_tokens df -> exists p, (t, count_of t (purpose_tokens df), p) ∈ b)
  /\ (forall c p, (t, c, p) ∈ b -> c = count_of t (purpose_tokens df) /\ 0 < c)
  /\ (forall c p, (GITA, c, p) ∈ b -> c = count_of GITA (purpose_tokens df))
  /\ (forall text', text' <> text -> GITA_COLON ++ text' <> t)
  /\ (forall r, t ∈ row_tokens r ->
        exists row, build_row r = Some row /\ row !! OTHER_PURPOSE_COLUMN = Some 1).
Proof.
  intros Htext t b. subst t b.
  split; [|split; [|split; [|split; [|split]]]].
  - intros E. apply (f_equal length) in E. rewrite length_app in E.
    destruct text; [done|]. simpl in E. lia.
  - apply purpose_ratio_has.
  - intros c p Hin. apply elem_of_purpose_ratio in Hin as [Hx ->].
    split; [done|]. by apply count_of_pos.
  - intros c p Hin. by apply elem_of_purpose_ratio in Hin as [_ ->].
  - intros text' Hne E. by apply app_inv_head in E.
  - intros r Hin. exists (row_of r). split; [apply build_row_Some|].
    rewrite row_other_column. f_equal.
    assert (Ho : has_other (flag_items (Some (py_str (purpose r))))).
    { unfold row_tokens in Hin. apply list_elem_of_filter in Hin as [_ Hin].
      destruct (purpose r) as [p|].
      - apply (other_piece_is_item p (GITA_COLON ++ text)); [done|].
        apply startswith_app.
      - exfalso. apply list_elem_of_singleton in Hin.
        by destruct text. }
    unfold flag_value. rewrite decide_True by done. by rewrite decide_True.
Qed.

Definition other_text_sample : DataFrame :=
  [ Visit 1 None (Some (u "2024-06-03")) (Some (u "여성")) (Some (u "만19~24세"))
      (Some (u "안양시 동안구")) (Some (u "공부 및 개인작업, 기타:bike repair"))
      (Some (u "첫방문"));
    Visit 2 None (Some (u "2024-06-03")) (Some (u "남성")) (Some (u "만25~29세"))
      (Some (u "안양시 만안구")) (Some (u "기타")) (Some (u "첫방문"));
    Visit 3 None (Some (u "2024-06-04")) (Some (u "남성")) (Some (u "만25~29세"))
      (Some (u "안양시 만안구")) (Some (u "기타:nap")) (Some (u "첫방문")) ].

Lemma other_text_own_category_witness :
  let t := GITA_COLON ++ u "bike repair" in
  let b := body (calc_purpose_ratio (Some other_text_sample)) in
  t <> GITA
  /\ (t ∈ purpose_tokens other_text_sample ->
      exists p, (t, count_of t (purpose_tokens other_text_sample), p) ∈ b)
  /\ (forall c p, (t, c, p) ∈ b ->
        c = count_of t (purpose_tokens other_text_sample) /\ 0 < c)
  /\ (forall c p, (GITA, c, p) ∈ b -> c = count_of GITA (purpose_tokens other_text_sample))
  /\ (forall text', text' <> u "bike repair" -> GITA_COLON ++ text' <> t)
  /\ (forall r, t ∈ row_tokens r ->
        exists row, build_row r = Some row /\ row !! OTHER_PURPOSE_COLUMN = Some 1).
Proof.
  apply (other_text_own_category other_text_sample (u "bike repair")).
  discriminate.
Defined.

(** Two other-texts and a bare ["기타"]: three categories in the ratio. *)
Example other_text_ratio :
  body (calc_purpose_ratio (Some other_text_sample))
  = [ (u "공부 및 개인작업", 1, (250 # 10)%Q);
      (u "기타:bike repair", 1, (250 # 10)%Q);
      (u "기타", 1, (250 # 10)%Q);
      (u "기타:nap", 1, (250 # 10)%Q) ].
Proof. reflexivity. Qed.

(** The same rows in the checksheet: one column, 1 in all three. *)
Example other_text_matrix :
  List.map (fun r => row_of r !! OTHER_PURPOSE_COLUMN) other_text_sample
  = [Some 1; Some 1; Some 1].
Proof. reflexivity. Qed.

End OtherTextFacts.

(** ** The option that contains the separator *)

Module CommaTagFacts.
Import CodecFacts ChecksheetFacts.

Lemma split_go1_no_sep (c : N) (s cur it : str) :
  c ∉ cur -> it ∈ split_go [c] 0 cur s -> c ∉ it.
Proof.
  revert cur. induction s as [|x s IH]; intros cur Hcur Hit.
  - by apply list_elem_of_singleton in Hit as ->.
  - change (split_go [c] 0 cur (x :: s))
      with (if startswith [c] (x :: s) then cur :: split_go [c] 0 [] s
            else split_go [c] 0 (cur ++ [x]) s) in Hit.
    rewrite startswith_cons1 in Hit.
    destruct (N.eqb_spec c x) as [->|Hne].
    + apply elem_of_cons in Hit as [->|Hit]; [done|].
      apply (IH []); [by intros ?%elem_of_nil|done].
    + apply (IH (cur ++ [x])); [|done].
      rewrite elem_of_app, list_elem_of_singleton. tauto.
Qed.

Lemma elem_of_lstrip (c : N) (s : str) : c ∈ lstrip s -> c ∈ s.
Proof.
  induction s as [|x s IH]; simpl; [done|].
  destruct (is_space x); [|done]. intros H. right. by apply IH.
Qed.

Lemma elem_of_rstrip (c : N) (s : str) : c ∈ rstrip s -> c ∈ s.
Proof.
  induction s as [|x s IH]; simpl; [done|].
  destruct (rstrip s) as [|y r].
  - destruct (is_space x); [by intros ?%elem_of_nil|].
    intros ->%list_elem_of_singleton. left.
  - intros [->|H]%elem_of_cons; [left|right]. by apply IH.
Qed.

(** No item of [purpose_to_flags] contains a comma. *)
Lemma flag_items_no_comma (p : option str) (it : str) :
  it ∈ flag_items p -> 44%N ∉ it.
Proof.
  unfold flag_items. intros [_ Hit]%list_elem_of_filter.
  apply list_elem_of_fmap in Hit as (piece & -> & Hpiece).
  intros Hc. unfold strip in Hc.
  apply elem_of_rstrip, elem_of_lstrip in Hc.
  revert Hc.
  apply (split_go1_no_sep 44%N (strip (or_empty p)) [] piece);
    [by intros ?%elem_of_nil|].
  exact Hpiece.
Qed.

(** The flag of ["공용PC, 프린터"] is 0 for every purpose string, the one
    [visitor_submit] stores for that very selection included: its column of
    the checksheet never counts a visit. *)
Lemma pc_printer_never_flagged (p : option str) :
  purpose_to_flags p !! PC_PRINTER = Some 0.
Proof.
  unfold purpose_to_flags. rewrite flags_lookup.
  rewrite decide_True by by_decide.
  unfold flag_value. rewrite decide_False by done.
  rewrite decide_False; [done|].
  intros Hin. apply flag_items_no_comma in Hin. apply Hin. by_decide.
Qed.

End CommaTagFacts.

(** ** Store: identifiers, lookups and the life of a row *)

Module StoreLaws.

(** The statements that write to the table. *)
Inductive stmt :=
  | Insert (now : str) (visit_date gender age residence purpose visit_type : option str)
  | Delete (record_id : Z)
  | Update (record_id : Z) (visit_date gender age residence purpose visit_type : option str)
  | ResetAll.

#[local] Instance stmt_eq_dec : EqDecision stmt.
Proof. solve_decision. Defined.

Definition exec (d : db) (s : stmt) : db :=
  match s with
  | Insert now vd g a r p vt => insert_visit now vd g a r p vt d
  | Delete rid => (delete_visit rid d).1
  | Update rid vd g a r p vt => (update_visit rid vd g a r p vt d).1
  | ResetAll => reset_all_data d
  end.

(** The table as [init_db] creates it. *)
Definition empty_db : db := Db [] 0.

Definition ids (d : db) : list Z := List.map id (visits d).

Definition well_formed (d : db) : Prop :=
  NoDup (ids d) /\ Forall (fun n => 1 <= n <= sqlite_sequence d) (ids d).

Lemma max_id_ge (rows : list visit) :
  0 <= max_id rows /\ Forall (fun r => id r <= max_id rows) rows.
Proof.
  induction rows as [|r rows [IH0 IH]]; [by split|].
  change (max_id (r :: rows)) with (Z.max (id r) (max_id rows)).
  split; [lia|]. constructor; [lia|].
  eapply Forall_impl; [exact IH|]. simpl. intros. lia.
Qed.

Lemma ids_filter_sub (P : visit -> Prop) `{!forall r, Decision (P r)} (rows : list visit) :
  sublist (List.map id (filter P rows)) (List.map id rows).
Proof.
  induction rows as [|r rows IH]; [constructor|].
  destruct (decide (P r)).
  - rewrite filter_cons_True by done. by constructor.
  - rewrite filter_cons_False by done. by constructor.
Qed.

Lemma ids_update (rid : Z) (f : visit -> visit) (rows : list visit) :
  (forall r, id (f r) = id r) ->
  List.map id (List.map (fun r => if decide (id r = rid) then f r else r) rows)
  = List.map id rows.
Proof.
  intros Hf. induction rows as [|r rows IH]; [done|].
  simpl. rewrite IH. f_equal. by destruct (decide (id r = rid)).
Qed.

Lemma filter_id_length (rows : list visit) (rid : Z) :
  NoDup (List.map id rows) -> (length (filter (fun r => id r = rid) rows) <= 1)%nat.
Proof.
  induction rows as [|r rows IH]; [simpl; lia|].
  simpl List.map. rewrite NoDup_cons. intros [Hr Hnd].
  destruct (decide (id r = rid)) as [E|E].
  - rewrite filter_cons_True by done.
    assert (Habs : Forall (fun v => id v <> rid) rows).
    { apply list.Forall_forall. intros v Hv Ev. apply Hr.
      rewrite E, <- Ev. apply list_elem_of_In, in_map, list_elem_of_In, Hv. }
    destruct (StoreFacts.filter_id_absent rows rid Habs) as [-> _]. simpl. lia.
  - rewrite filter_cons_False by done. by apply IH.
Qed.

Lemma exec_well_formed (d : db) (s : stmt) : well_formed d -> well_formed (exec d s).
Proof.
  intros [Hnd Hb]. destruct d as [rows n]. unfold ids in *. simpl in Hnd, Hb.
  destruct s as [now vd g a r p vt|rid|rid vd g a r p vt|]; unfold well_formed, ids; simpl.
  - destruct (max_id_ge rows) as [H0 Hm].
    rewrite List.map_app. simpl. split.
    + apply NoDup_app. split; [done|]. split; [|apply NoDup_singleton].
      intros x Hx. rewrite list_elem_of_singleton. intros ->.
      rewrite list.Forall_forall in Hb. specialize (Hb _ Hx). simpl in Hb. lia.
    + apply Forall_app. split.
      * eapply Forall_impl; [exact Hb|]. simpl. intros. lia.
      * constructor; [|constructor].
        rewrite list.Forall_forall in Hb. lia.
  - pose proof (ids_filter_sub (fun r => id r <> rid) rows) as Hs. split.
    + by eapply sublist_NoDup.
    + apply list.Forall_forall. intros x Hx.
      rewrite list.Forall_forall in Hb. apply Hb.
      by eapply elem_of_sublist.
  - by rewrite ids_update.
  - split; constructor.
Qed.

(** X1: in every table reached from the one [init_db] creates by inserts,
    deletes, updates and resets, the ids are pairwise distinct, positive and
    at most [sqlite_sequence]; so [get_visit_by_id] finds at most one row. *)
Theorem reachable_store_ids (l : list stmt) :
  let d := foldl exec empty_db l in
  NoDup (ids d)
  /\ Forall (fun n => 1 <= n <= sqlite_sequence d) (ids d)
  /\ forall rid, (length (get_visit_by_id rid d) <= 1)%nat.
Proof.
  assert (H : well_formed (foldl exec empty_db l)).
  { assert (H0 : well_formed empty_db) by (split; constructor).
    revert H0. generalize empty_db. induction l as [|s l IH]; intros d Hd; [done|].
    simpl. apply IH. by apply exec_well_formed. }
  simpl. destruct H as [Hnd Hb]. split; [done|]. split; [done|].
  intros rid. by apply filter_id_length.
Qed.

Lemma filter_id_app (rid : Z) (rows : list visit) (r : visit) :
  filter (fun x => id x = rid) (rows ++ [r])
  = filter (fun x => id x = rid) rows ++ (if decide (id r = rid) then [r] else []).
Proof.
  by rewrite filter_app.
Qed.

Lemma insert_visit_new_row (now : str)
    (visit_date gender age residence purpose visit_type : option str) (d : db) :
  let d' := insert_visit now visit_date gender age residence purpose visit_type d in
  let n := sqlite_sequence d' in
  sqlite_sequence d < n
  /\ Forall (fun r => id r < n) (visits d)
  /\ get_visit_by_id n d'
     = [Visit n (Some now) visit_date gender age residence purpose visit_type].
Proof.
  destruct d as [rows s]. simpl.
  destruct (max_id_ge rows) as [H0 Hm].
  set (n := Z.max s (max_id rows) + 1).
  assert (Hlt : Forall (fun r => id r < n) rows).
  { eapply Forall_impl; [exact Hm|]. simpl. intros. lia. }
  split; [lia|]. split; [done|].
  unfold get_visit_by_id. simpl visits.
  rewrite filter_id_app. simpl id. rewrite decide_True by done.
  assert (Habs : Forall (fun v => id v <> n) rows).
  { eapply Forall_impl; [exact Hlt|]. simpl. intros. lia. }
  by destruct (StoreFacts.filter_id_absent rows n Habs) as [-> _].
Qed.

(** X2: [insert_visit] gives the new row an id larger than every id of the
    table and than [sqlite_sequence]; [get_visit_by_id] on that id returns
    exactly the inserted values, and every other lookup is as before. *)
Theorem insert_visit_lookup (now : str)
    (visit_date gender age residence purpose visit_type : option str) (d : db) :
  let d' := insert_visit now visit_date gender age residence purpose visit_type d in
  let n := sqlite_sequence d' in
  sqlite_sequence d < n
  /\ Forall (fun r => id r < n) (visits d)
  /\ get_visit_by_id n d'
     = [Visit n (Some now) visit_date gender age residence purpose visit_type]
  /\ forall rid, rid <> n -> get_visit_by_id rid d' = get_visit_by_id rid d.
Proof.
  destruct (insert_visit_new_row now visit_date gender age residence purpose
              visit_type d) as (H1 & H2 & H3).
  intros d' n. split; [done|]. split; [done|]. split; [done|].
  intros rid Hrid. subst d' n. destruct d as [rows s].
  unfold get_visit_by_id. simpl. rewrite filter_id_app. simpl id.
  rewrite decide_False by done. by rewrite app_nil_r.
Qed.

Lemma filter_filter_id (P : visit -> Prop) `{!forall r, Decision (P r)}
    (rid : Z) (rows : list visit) :
  filter (fun r => id r = rid) (filter P rows)
  = filter (fun r => id r = rid /\ P r) rows.
Proof.
  induction rows as [|r rows IH]; [done|].
  destruct (decide (P r)) as [Hp|Hp].
  - rewrite (filter_cons_True P) by done.
    destruct (decide (id r = rid)) as [E|E].
    + rewrite !filter_cons_True by done. by rewrite IH.
    + rewrite !filter_cons_False by tauto. done.
  - rewrite (filter_cons_False P) by done.
    rewrite filter_cons_False by tauto. done.
Qed.

(** X3: [delete_visit] returns the number of rows that carried the id; no
    row carries it afterwards, every other lookup is as before, and
    [sqlite_sequence] keeps its value. *)
Theorem delete_visit_lookup (rid : Z) (d : db) :
  let d' := (delete_visit rid d).1 in
  (delete_visit rid d).2 = Z.of_nat (length (get_visit_by_id rid d))
  /\ get_visit_by_id rid d' = []
  /\ (forall rid', rid' <> rid -> get_visit_by_id rid' d' = get_visit_by_id rid' d)
  /\ sqlite_sequence d' = sqlite_sequence d.
Proof.
  destruct d as [rows s]. simpl. unfold get_visit_by_id. simpl visits.
  split; [done|]. split; [|split; [|done]].
  - rewrite filter_filter_id.
    induction rows as [|r rows IH]; [done|].
    rewrite filter_cons_False by tauto. done.
  - intros rid' Hne. rewrite filter_filter_id.
    apply list_filter_iff. intros r. split; [tauto|]. intros E. split; [done|]. congruence.
Qed.

Lemma exec_keeps_retired (d : db) (s : stmt) (rid : Z) :
  s <> ResetAll -> rid <= sqlite_sequence d -> rid ∉ ids d ->
  rid <= sqlite_sequence (exec d s) /\ rid ∉ ids (exec d s).
Proof.
  intros Hs Hle Hnot. destruct d as [rows n]. unfold ids in *. simpl in Hle, Hnot.
  destruct s as [now vd g a r p vt|rid'|rid' vd g a r p vt|]; [| | |done]; simpl.
  - split; [lia|]. rewrite List.map_app. simpl.
    rewrite elem_of_app, list_elem_of_singleton. intros [H|H]; [done|]. lia.
  - split; [done|]. intros H. apply Hnot.
    eapply elem_of_sublist; [exact H|]. apply ids_filter_sub.
  - split; [done|]. by rewrite ids_update.
Qed.

(** X4: once a row is deleted, its id is given to no other row, whatever
    is inserted, deleted or updated afterwards, as long as the data are not
    reset. *)
Theorem deleted_id_never_reused (d : db) (rid : Z) (l : list stmt) :
  well_formed d -> rid ∈ ids d -> ResetAll ∉ l ->
  rid ∉ ids (foldl exec (delete_visit rid d).1 l).
Proof.
  intros [Hnd Hb] Hin Hl.
  assert (H : rid <= sqlite_sequence (delete_visit rid d).1
              /\ rid ∉ ids (delete_visit rid d).1).
  { split.
    - rewrite list.Forall_forall in Hb. specialize (Hb _ Hin). simpl. lia.
    - unfold ids. simpl. clear. induction (visits d) as [|r rows IH].
      + simpl. apply not_elem_of_nil.
      + destruct (decide (id r = rid)) as [E|E].
        * rewrite filter_cons_False by tauto. done.
        * rewrite filter_cons_True by done. simpl.
          rewrite not_elem_of_cons. split; [congruence|done]. }
  revert H. generalize ((delete_visit rid d).1). clear Hnd Hb Hin.
  induction l as [|s l IH]; intros d' [H1 H2]; [done|].
  simpl. apply IH.
  - intros H. apply Hl. by right.
  - apply exec_keeps_retired; [|done|done].
    intros ->. apply Hl. by left.
Qed.

Definition two_rows : db :=
  foldl exec empty_db
    [Insert (u "2024-06-03T10:00:00") (Some (u "2024-06-03")) (Some (u "여성"))
       (Some (u "만19~24세")) (Some (u "안양시 동안구")) (Some (u "기타")) (Some (u "첫방문"));
     Insert (u "2024-06-04T11:30:00") (Some (u "2024-06-04")) (Some (u "남성"))
       (Some (u "만25~29세")) (Some (u "안양시 만안구")) (Some (u "공부 및 개인작업"))
       (Some (u "재방문(2회 이상)"))].

Lemma deleted_id_never_reused_witness :
  2 ∉ ids (foldl exec (delete_visit 2 two_rows).1
             [Insert (u "2024-06-05T09:00:00") None None None None None None; Delete 1]).
Proof.
  apply (deleted_id_never_reused two_rows 2); by_decide.
Defined.

(** X5: [update_visit] returns the number of rows that carried the id and
    replaces their six fields, keeping [id] and [created_at]; every other
    lookup, the list of ids, the creation stamps and [sqlite_sequence] are
    as before. *)
Theorem update_visit_lookup (rid : Z)
    (visit_date gender age residence purpose visit_type : option str) (d : db) :
  let d' := (update_visit rid visit_date gender age residence purpose visit_type d).1 in
  (update_visit rid visit_date gender age residence purpose visit_type d).2
  = Z.of_nat (length (get_visit_by_id rid d))
  /\ get_visit_by_id rid d'
     = List.map (fun r => Visit rid (created_at r) visit_date gender age residence
                            purpose visit_type)
         (get_visit_by_id rid d)
  /\ (forall rid', rid' <> rid -> get_visit_by_id rid' d' = get_visit_by_id rid' d)
  /\ List.map id (visits d') = List.map id (visits d)
  /\ List.map created_at (visits d') = List.map created_at (visits d)
  /\ sqlite_sequence d' = sqlite_sequence d.
Proof.
  destruct d as [rows s]. simpl. unfold get_visit_by_id. simpl visits.
  split; [done|]. split; [|split; [|split; [|split; [|done]]]].
  - induction rows as [|r rows IH]; [done|]. simpl List.map.
    destruct (decide (id r = rid)) as [E|E].
    + rewrite !filter_cons_True by done. simpl. rewrite IH. by rewrite E.
    + rewrite !filter_cons_False by done. done.
  - intros rid' Hne. induction rows as [|r rows IH]; [done|]. simpl List.map.
    destruct (decide (id r = rid)) as [E|E].
    + rewrite !filter_cons_False by (simpl; congruence). done.
    + destruct (decide (id r = rid')) as [E'|E'].
      * rewrite !filter_cons_True by done. by rewrite IH.
      * rewrite !filter_cons_False by done. done.
  - by apply ids_update.
  - induction rows as [|r rows IH]; [done|]. simpl. rewrite IH. f_equal.
    by destruct (decide (id r = rid)).
Qed.

End StoreLaws.

(** ** Dates as text: parsing what was printed, and the order of the text *)

Module IsoDates.
Import CalendarFacts DailyFacts.

Lemma digit_digit_char (a : Z) : 0 <= a <= 9 -> digit (digit_char a) = Some a.
Proof.
  intros H.
  assert (E : a = 0 \/ a = 1 \/ a = 2 \/ a = 3 \/ a = 4 \/ a = 5 \/ a = 6
              \/ a = 7 \/ a = 8 \/ a = 9) by lia.
  repeat destruct E as [->|E]; try subst a; reflexivity.
Qed.

(** The month and day fields of [strftime] read back by [%m] and [%d]. *)
Definition reads_back (m dd : Z) : Prop :=
  parse_month [digit_char (m / 10); digit_char (m mod 10); 45%N;
               digit_char (dd / 10); digit_char (dd mod 10)]
  = Some (m, [digit_char (dd / 10); digit_char (dd mod 10)])
  /\ parse_day [digit_char (dd / 10); digit_char (dd mod 10)] = Some dd.

Lemma reads_back_table :
  Forall (fun m => Forall (reads_back m) (seqZ 1 31)) (seqZ 1 12).
Proof. by_decide. Qed.

Lemma month_day_reads_back (m dd : Z) :
  1 <= m <= 12 -> 1 <= dd <= 31 -> reads_back m dd.
Proof.
  intros Hm Hd. pose proof reads_back_table as T.
  rewrite list.Forall_forall in T.
  assert (Hm' : m ∈ seqZ 1 12) by (apply elem_of_seqZ; lia).
  specialize (T m Hm'). rewrite list.Forall_forall in T.
  apply T. apply elem_of_seqZ. lia.
Qed.

Lemma month_length_le (leap : bool) (m : Z) : month_length leap m <= 31.
Proof.
  unfold month_length.
  destruct (m =? 2); [by destruct leap|].
  by destruct ((m =? 4) || (m =? 6) || (m =? 9) || (m =? 11)).
Qed.

Lemma valid_bounds (d : date) :
  valid_date d = true -> 1 <= year d /\ 1 <= month d <= 12 /\ 1 <= day d <= 31.
Proof.
  destruct d as [y m dd]. rewrite valid_Date. simpl.
  pose proof (month_length_le (is_leap y) m). lia.
Qed.

Lemma printed_date_parses (d : date) :
  valid_date d = true -> year d <= 9999 -> strptime (strftime d) = Some d.
Proof.
  intros Hv Hy. destruct (valid_bounds d Hv) as (Hy1 & Hm & Hd).
  destruct d as [y m dd]. simpl in Hy, Hy1, Hm, Hd.
  destruct (month_day_reads_back m dd Hm Hd) as [Em Ed].
  unfold strftime, strptime. cbn [year month day].
  rewrite !digit_digit_char by lia. cbn [mbind option_bind].
  change (45 =? 45)%N with true. cbv iota.
  rewrite Em. cbn [mbind option_bind]. rewrite Ed. cbn [mbind option_bind].
  replace (1000 * (y / 1000) + 100 * (y / 100 mod 10) + 10 * (y / 10 mod 10) + y mod 10)
    with y by lia.
  by rewrite Hv.
Qed.

(** X6: [strptime] reads back what [strftime] prints: every valid date up
    to year 9999 parses to itself, and two such dates that print alike are
    the same date. *)
Theorem strptime_strftime (d d' : date) :
  valid_date d = true -> year d <= 9999 ->
  strptime (strftime d) = Some d
  /\ (valid_date d' = true -> year d' <= 9999 -> strftime d' = strftime d -> d' = d).
Proof.
  intros Hv Hy. split; [by apply printed_date_parses|].
  intros Hv' Hy' E.
  pose proof (printed_date_parses d Hv Hy) as H.
  rewrite <- E, printed_date_parses in H by done. congruence.
Qed.

Lemma strptime_strftime_witness :
  strptime (strftime (Date 2024 2 29)) = Some (Date 2024 2 29)
  /\ (valid_date (Date 2024 3 1) = true -> year (Date 2024 3 1) <= 9999 ->
      strftime (Date 2024 3 1) = strftime (Date 2024 2 29) ->
      Date 2024 3 1 = Date 2024 2 29).
Proof. apply strptime_strftime; [reflexivity|simpl; lia]. Defined.

Lemma cmp_digit_char (x y : Z) :
  0 <= x -> 0 <= y -> (digit_char x ?= digit_char y)%N = (x ?= y).
Proof.
  intros Hx Hy. unfold digit_char.
  rewrite Z2N.inj_compare by lia. apply Z.add_compare_mono_l.
Qed.

(** Comparison of two printed dates, digit by digit. *)
Definition cmp_chain (l : list (Z * Z)) : comparison :=
  foldr (fun p k => match p.1 ?= p.2 with Eq => k | c => c end) Eq l.

Lemma str_cmp_digits (a1 a2 a3 a4 a5 a6 a7 a8 b1 b2 b3 b4 b5 b6 b7 b8 : Z) :
  Forall (fun x => 0 <= x) [a1; a2; a3; a4; a5; a6; a7; a8; b1; b2; b3; b4; b5; b6; b7; b8] ->
  str_cmp
    [digit_char a1; digit_char a2; digit_char a3; digit_char a4; 45%N;
     digit_char a5; digit_char a6; 45%N; digit_char a7; digit_char a8]
    [digit_char b1; digit_char b2; digit_char b3; digit_char b4; 45%N;
     digit_char b5; digit_char b6; 45%N; digit_char b7; digit_char b8]
  = cmp_chain [(a1, b1); (a2, b2); (a3, b3); (a4, b4); (a5, b5); (a6, b6);
               (a7, b7); (a8, b8)].
Proof.
  intros H. repeat (apply Forall_cons in H as [? H]).
  cbn [str_cmp cmp_chain foldr fst snd].
  rewrite !cmp_digit_char by done.
  by change (45 ?= 45)%N with Eq.
Qed.

(** The printed dates compare as the dates do. *)
Lemma str_le_strftime (a b : date) :
  valid_date a = true -> valid_date b = true ->
  year a <= 9999 -> year b <= 9999 ->
  str_le (strftime a) (strftime b) = date_le a b.
Proof.
  intros Ha Hb Hya Hyb.
  destruct (valid_bounds a Ha) as (Ha1 & Ha2 & Ha3).
  destruct (valid_bounds b Hb) as (Hb1 & Hb2 & Hb3).
  unfold date_le. destruct (date_lt b a) eqn:E.
  - apply date_lt_spec in E.
    destruct a as [ya ma da], b as [yb mb db]. simpl in *.
    unfold str_le, strftime. cbn [year month day].
    rewrite str_cmp_digits by (repeat constructor; lia).
    cbn [cmp_chain foldr fst snd].
    repeat match goal with
           | |- context [?x ?= ?y] => destruct (Z.compare_spec x y)
           end; try reflexivity; exfalso; lia.
  - apply not_true_iff_false in E. rewrite date_lt_spec in E.
    destruct a as [ya ma da], b as [yb mb db]. simpl in *.
    unfold str_le, strftime. cbn [year month day].
    rewrite str_cmp_digits by (repeat constructor; lia).
    cbn [cmp_chain foldr fst snd].
    repeat match goal with
           | |- context [?x ?= ?y] => destruct (Z.compare_spec x y)
           end; try reflexivity; exfalso; lia.
Qed.

End IsoDates.

(** ** Range query *)

Module QueryFacts.
Import CalendarFacts DailyFacts IsoDates.

Lemma insert_by_id_perm (r : visit) (l : list visit) : insert_by_id r l ≡ₚ r :: l.
Proof.
  induction l as [|h t IH]; [done|].
  simpl. destruct (id r <=? id h); [done|].
  rewrite IH. apply Permutation_swap.
Qed.

Lemma sort_by_id_perm (l : list visit) : sort_by_id l ≡ₚ l.
Proof.
  induction l as [|r l IH]; [done|].
  simpl. rewrite insert_by_id_perm. by rewrite IH.
Qed.

Lemma insert_by_id_sorted (r : visit) (l : list visit) :
  StronglySorted (fun x y => id x <= id y) l ->
  StronglySorted (fun x y => id x <= id y) (insert_by_id r l).
Proof.
  induction 1 as [|h t Ht IH Hh]; simpl.
  - repeat constructor.
  - destruct (Z.leb_spec (id r) (id h)).
    + constructor; [by constructor|].
      constructor; [done|].
      eapply Forall_impl; [exact Hh|]. simpl. intros. lia.
    + constructor; [done|].
      apply list.Forall_forall. intros x Hx.
      rewrite insert_by_id_perm in Hx.
      apply elem_of_cons in Hx as [->|Hx]; [lia|].
      rewrite list.Forall_forall in Hh. by apply Hh.
Qed.

Lemma sort_by_id_sorted (l : list visit) :
  StronglySorted (fun x y => id x <= id y) (sort_by_id l).
Proof.
  induction l as [|r l IH]; [constructor|].
  simpl. by apply insert_by_id_sorted.
Qed.

(** X7: [load_visits] returns, in ascending order of id, exactly the rows
    of the table whose [visit_date] is a text between [start] and [end]
    (bounds included) in the order of the code points; each such row appears
    as often as in the table, and a row without a date is never returned. *)
Theorem load_visits_sorted_selection (start end_ : str) (d : db) :
  load_visits start end_ d ≡ₚ filter (fun r => between start end_ r = true) (visits d)
  /\ StronglySorted (fun x y => id x <= id y) (load_visits start end_ d)
  /\ forall r, r ∈ load_visits start end_ d
       <-> r ∈ visits d
           /\ exists v, visit_date r = Some v
                        /\ str_le start v = true /\ str_le v end_ = true.
Proof.
  unfold load_visits. split; [apply sort_by_id_perm|].
  split; [apply sort_by_id_sorted|].
  intros r. rewrite sort_by_id_perm, list_elem_of_filter.
  unfold between. split.
  - intros [H Hr]. split; [done|].
    destruct (visit_date r) as [v|]; [|done].
    exists v. by apply andb_true_iff in H.
  - intros (Hr & v & -> & H1 & H2). split; [|done]. by rewrite H1, H2.
Qed.

(** X8: with the bounds and the row's date printed as [YYYY-MM-DD], the
    text comparison of [load_visits] selects by calendar date: the row is
    returned exactly when its date lies between the two bounds. *)
Theorem load_visits_by_calendar (a b c : date) (r : visit) (d : db) :
  valid_date a = true -> valid_date b = true -> valid_date c = true ->
  year a <= 9999 -> year b <= 9999 -> year c <= 9999 ->
  visit_date r = Some (strftime c) ->
  (r ∈ load_visits (strftime a) (strftime b) d
   <-> r ∈ visits d /\ date_le a c = true /\ date_le c b = true).
Proof.
  intros Ha Hb Hc Hya Hyb Hyc Hr.
  unfold load_visits. rewrite sort_by_id_perm, list_elem_of_filter.
  unfold between. rewrite Hr, !str_le_strftime by done.
  rewrite andb_true_iff. tauto.
Qed.

Lemma load_visits_by_calendar_witness :
  let r := Visit 7 None (Some (u "2024-06-05")) None None None None None in
  r ∈ load_visits (u "2024-06-03") (u "2024-06-09") (Db [r] 7)
  <-> r ∈ [r] /\ date_le (Date 2024 6 3) (Date 2024 6 5) = true
      /\ date_le (Date 2024 6 5) (Date 2024 6 9) = true.
Proof.
  apply (load_visits_by_calendar (Date 2024 6 3) (Date 2024 6 9) (Date 2024 6 5));
    try reflexivity; simpl; lia.
Defined.

End QueryFacts.

(** ** Administrator console *)

Module AdminFacts.
Import StoreLaws.

(** A reader of plain decimal numerals, to stand for [int] in examples. *)
Definition decimal (s : str) : option Z :=
  match s with
  | [] => None
  | _ :: _ => foldl (fun acc c => n ← acc; k ← digit c; Some (10 * n + k)) (Some 0) s
  end.

Lemma lookup_nil_absent (rid : Z) (d : db) :
  get_visit_by_id rid d = [] -> Forall (fun v => id v <> rid) (visits d).
Proof.
  unfold get_visit_by_id. induction (visits d) as [|r rows IH]; [constructor|].
  destruct (decide (id r = rid)) as [E|E].
  - by rewrite filter_cons_True.
  - rewrite filter_cons_False by done. intros H. constructor; [done|by apply IH].
Qed.

Lemma rowcount_zero (rid : Z) (d : db) :
  Z.of_nat (length (get_visit_by_id rid d)) = 0 -> get_visit_by_id rid d = [].
Proof. destruct (get_visit_by_id rid d); [done|simpl; lia]. Qed.

Lemma update_absent (rid : Z) (vd g a r p vt : option str) (d : db) :
  get_visit_by_id rid d = [] -> (update_visit rid vd g a r p vt d).1 = d.
Proof.
  intros H. apply lookup_nil_absent in H. destruct d as [rows n].
  unfold update_visit. simpl in *. by rewrite StoreFacts.map_id_absent.
Qed.

Lemma delete_absent (rid : Z) (d : db) :
  get_visit_by_id rid d = [] -> (delete_visit rid d).1 = d.
Proof.
  intros H. apply lookup_nil_absent in H. destruct d as [rows n].
  unfold delete_visit. simpl in *.
  by destruct (StoreFacts.filter_id_absent rows rid H) as [_ ->].
Qed.

(** What the loop of [admin_fetch_one] keeps true of its two variables. *)
Definition form_ok (st : list str * str) : Prop :=
  Forall (fun t => t ∈ PURPOSE_OPTIONS) st.1
  /\ (st.2 <> [] -> GITA ∈ st.1)
  /\ strip st.2 = st.2.

Lemma fetch_step_form_ok (st : list str * str) (it : str) :
  form_ok st -> form_ok (fetch_step st it).
Proof.
  destruct st as [ps ot]. intros (H1 & H2 & H3). unfold fetch_step.
  assert (HG : GITA ∈ PURPOSE_OPTIONS) by by_decide.
  destruct (startswith GITA_COLON it).
  { split; [|split]; simpl.
    - apply Forall_app. split; [done|]. by constructor.
    - intros _. apply elem_of_app. right. by left.
    - apply strip_idem. }
  destruct (decide (it = GITA)).
  { split; [|split]; simpl; [|intros _|done].
    - apply Forall_app. split; [done|]. by constructor.
    - apply elem_of_app. right. by left. }
  destruct (decide (it ∈ PURPOSE_OPTIONS)).
  { split; [|split]; simpl; [| |done].
    - apply Forall_app. split; [done|]. by constructor.
    - intros H. apply elem_of_app. left. by apply H2. }
  by split.
Qed.

Lemma fetch_purposes_form_ok (s : str) : form_ok (admin_fetch_one_purposes s).
Proof.
  unfold admin_fetch_one_purposes.
  assert (H : form_ok ([], [])) by (split; [constructor|by split]).
  revert H. generalize (([], []) : list str * str).
  induction (purpose_items s) as [|it its IH]; intros st Hst; [done|].
  simpl. apply IH. by apply fetch_step_form_ok.
Qed.

Section Environment.

Variable ADMIN_PASSWORD : str.
Variable py_int : str -> option Z.

(** X14: whatever text a row holds, the purposes [admin_fetch_one] hands to
    the edit form are choices of [PURPOSE_OPTIONS]; the other-text is
    stripped, and it is non-empty only when ["기타"] is among the purposes.
    A row is loaded exactly when the session is logged in, the id is a
    number and a row carries it; otherwise the form gets its defaults. *)
Theorem admin_fetch_one_form (ok : bool) (record_id : str) (d : db) :
  let f := admin_fetch_one py_int ok record_id d in
  Forall (fun t => t ∈ PURPOSE_OPTIONS) (f_purposes f)
  /\ (f_other f <> [] -> GITA ∈ f_purposes f)
  /\ strip (f_other f) = f_other f
  /\ (f_status f = FetchLoaded
      <-> ok = true /\ exists rid, py_int record_id = Some rid
                                  /\ get_visit_by_id rid d <> [])
  /\ (f_status f <> FetchLoaded -> f = fetch_blank (f_status f)).
Proof.
  unfold admin_fetch_one.
  destruct ok; simpl negb; cbv iota.
  2: { simpl. split; [constructor|]. split; [done|]. split; [done|]. split; [|done].
       split; [done|]. by intros [? _]. }
  destruct (py_int record_id) as [rid|].
  2: { simpl. split; [constructor|]. split; [done|]. split; [done|]. split; [|done].
       split; [done|]. by intros [_ (? & ? & _)]. }
  destruct (get_visit_by_id rid d) as [|r rows] eqn:E.
  { simpl. split; [constructor|]. split; [done|]. split; [done|]. split; [|done].
    split; [done|]. intros [_ (rid' & [= <-] & H)]. done. }
  pose proof (fetch_purposes_form_ok (py_str (purpose r))) as (H1 & H2 & H3).
  destruct (admin_fetch_one_purposes (py_str (purpose r))) as [ps ot].
  simpl in *. split; [done|]. split; [done|]. split; [done|]. split; [|done].
  split; [|done]. intros _. split; [done|]. exists rid. by rewrite E.
Qed.

(** X15: the edit form of a visit just saved by [visitor_submit] shows the
    date of that day and the gender, age, residence and visit type as they
    were chosen, with the purposes decoded from the stored text. *)
Theorem submit_then_fetch (today now g a r v : str) (p : str) (ps : list str)
    (other : option str) (d : db) (record_id : str) :
  let d' := (visitor_submit today now (Some g) (Some a) (Some r) (p :: ps) (Some v)
               other d).2 in
  let decoded := admin_fetch_one_purposes (visitor_submit_purpose_str (p :: ps) other) in
  py_int record_id = Some (sqlite_sequence d') ->
  admin_fetch_one py_int true record_id d'
  = FetchForm FetchLoaded today g a r decoded.1 v decoded.2.
Proof.
  intros d' decoded Hid. subst d'.
  rewrite CodecFacts.visitor_submit_saved in *. simpl snd in *.
  unfold admin_fetch_one. simpl negb. cbv iota. rewrite Hid.
  destruct (insert_visit_new_row now (Some today) (Some g) (Some a) (Some r)
              (Some (visitor_submit_purpose_str (p :: ps) other)) (Some v) d)
    as (_ & _ & ->).
  cbn [purpose visit_date gender age_group residence visit_type py_str].
  subst decoded. by destruct (admin_fetch_one_purposes _).
Qed.

(** X16: after a successful [admin_update_one], [admin_fetch_one] on the
    same id shows the stripped date text and the values just stored. *)
Theorem update_then_fetch (record_id : str) (visit_date gender age residence : option str)
    (purposes : list str) (visit_type other_text : option str) (d : db) (rid : Z) :
  let res := admin_update_one py_int true record_id visit_date gender age residence
               purposes visit_type other_text d in
  let decoded := admin_fetch_one_purposes (visitor_submit_purpose_str purposes other_text) in
  res.1 = UpdDone rid ->
  admin_fetch_one py_int true record_id res.2
  = FetchForm FetchLoaded (strip (or_empty visit_date)) (py_str gender) (py_str age)
      (py_str residence) decoded.1 (py_str visit_type) decoded.2.
Proof.
  intros res decoded. subst res. unfold admin_update_one, admin_fetch_one.
  simpl negb. cbv iota.
  destruct (py_int record_id) as [rid0|]; [|done].
  destruct (strptime (strip (or_empty visit_date))) as [c|]; [|done].
  destruct purposes as [|p ps]; [done|].
  set (pstr := visitor_submit_purpose_str (p :: ps) other_text) in *.
  set (vd := strip (or_empty visit_date)).
  change (update_visit rid0 (Some vd) gender age residence (Some pstr) visit_type d)
    with ((update_visit rid0 (Some vd) gender age residence (Some pstr) visit_type d).1,
          Z.of_nat (length (get_visit_by_id rid0 d))).
  cbv beta iota zeta.
  destruct (Z.eqb_spec (Z.of_nat (length (get_visit_by_id rid0 d))) 0) as [E|E]; [done|].
  intros _. cbn [snd fst].
  assert (Hl : get_visit_by_id rid0
                 (update_visit rid0 (Some vd) gender age residence (Some pstr) visit_type d).1
               = List.map (fun x => Visit rid0 (created_at x) (Some vd) gender age residence
                                      (Some pstr) visit_type)
                   (get_visit_by_id rid0 d)).
  { destruct d as [rows n]. unfold get_visit_by_id. simpl. clear E.
    induction rows as [|x rows IH]; [done|]. simpl List.map.
    destruct (decide (id x = rid0)) as [Ex|Ex].
    - rewrite !filter_cons_True by done. simpl. rewrite IH. by rewrite Ex.
    - rewrite !filter_cons_False by done. done. }
  rewrite Hl. destruct (get_visit_by_id rid0 d) as [|x xs]; [done|].
  simpl List.map. cbv iota.
  cbn [purpose Store.visit_date Store.gender age_group Store.residence Store.visit_type py_str].
  subst decoded. by destruct (admin_fetch_one_purposes pstr).
Qed.

(** X9: [admin_update_one] reports success exactly when the session is
    logged in, the id is a number, the stripped date is accepted by
    [strptime], a purpose is selected and a row carries the id; it then
    stores the stripped date text as typed and the purpose text
    [visitor_submit] would store.  In every other case the table is
    unchanged. *)
Theorem admin_update_one_effect (ok : bool) (record_id : str)
    (visit_date gender age residence : option str) (purposes : list str)
    (visit_type other_text : option str) (d : db) :
  let res := admin_update_one py_int ok record_id visit_date gender age residence
               purposes visit_type other_text d in
  (forall rid,
     res.1 = UpdDone rid
     <-> ok = true /\ py_int record_id = Some rid
         /\ is_Some (strptime (strip (or_empty visit_date)))
         /\ purposes <> [] /\ get_visit_by_id rid d <> [])
  /\ (forall rid,
        res.1 = UpdDone rid ->
        res.2 = (update_visit rid (Some (strip (or_empty visit_date))) gender age
                   residence (Some (visitor_submit_purpose_str purposes other_text))
                   visit_type d).1)
  /\ ((forall rid, res.1 <> UpdDone rid) -> res.2 = d).
Proof.
  unfold admin_update_one.
  destruct ok; simpl negb; cbv iota.
  2: { simpl. split; [|split]; [intros rid; split; [done|]; by intros [? _]|done|done]. }
  destruct (py_int record_id) as [rid0|].
  2: { simpl. split; [|split]; [intros rid; split; [done|]; by intros (_ & ? & _)|done|done]. }
  destruct (strptime (strip (or_empty visit_date))) as [c|].
  2: { simpl. split; [|split]; [intros rid; split; [done|]|done|done].
       intros (_ & _ & H & _). by destruct H. }
  destruct purposes as [|p ps].
  { simpl. split; [|split]; [intros rid; split; [done|]|done|done].
    by intros (_ & _ & _ & H & _). }
  set (pstr := visitor_submit_purpose_str (p :: ps) other_text).
  set (vd := strip (or_empty visit_date)).
  change (update_visit rid0 (Some vd) gender age residence (Some pstr) visit_type d)
    with ((update_visit rid0 (Some vd) gender age residence (Some pstr) visit_type d).1,
          Z.of_nat (length (get_visit_by_id rid0 d))).
  cbv beta iota zeta.
  destruct (Z.eqb_spec (Z.of_nat (length (get_visit_by_id rid0 d))) 0) as [E|E].
  - apply rowcount_zero in E. simpl. split; [|split].
    + intros rid. split; [done|]. intros (_ & H & _ & _ & Hr). congruence.
    + done.
    + intros _. by apply update_absent.
  - simpl. split; [|split].
    + intros rid. split.
      * intros [= <-]. split; [done|]. split; [done|]. split; [by eexists|].
        split; [done|]. intros H. by rewrite H in E.
      * intros (_ & [= ->] & _). done.
    + by intros rid [= <-].
    + intros H. by destruct (H rid0).
Qed.

(** X10: a delete that [request_delete] offers for confirmation goes
    through: when it returns a pending id, the session is logged in, a row
    carries that id, and [confirm_delete] on it reports success and leaves
    the table [delete_visit] produces, with no pending id. *)
Theorem request_then_confirm (ok : bool) (record_id : str) (d : db)
    (msg : delete_msg) (rid : Z) (show : bool) :
  request_delete py_int ok record_id d = (msg, Some rid, show) ->
  ok = true /\ py_int record_id = Some rid /\ msg = DelAskConfirm rid /\ show = true
  /\ get_visit_by_id rid d <> []
  /\ confirm_delete ok (Some rid) d = (DelDone rid, None, false, (delete_visit rid d).1).
Proof.
  unfold request_delete, confirm_delete.
  destruct ok; simpl negb; cbv iota; [|done].
  destruct (py_int record_id) as [rid0|]; [|done].
  destruct (get_visit_by_id rid0 d) as [|r rows] eqn:E; [done|].
  intros [= <- <- <-]. repeat split; [by rewrite E|].
  change (delete_visit rid0 d)
    with ((delete_visit rid0 d).1, Z.of_nat (length (get_visit_by_id rid0 d))).
  cbv beta iota zeta. rewrite E.
  destruct (Z.eqb_spec (Z.of_nat (length (r :: rows))) 0) as [H|H]; [|done].
  simpl in H. lia.
Qed.

(** X11: [confirm_delete] always clears the pending id and hides the
    button; it reports success exactly when the session is logged in and a
    row carries the pending id, and otherwise leaves the table as it was,
    also when the pending row has gone in the meantime. *)
Theorem confirm_delete_effect (ok : bool) (pending_id : option Z) (d : db) :
  let res := confirm_delete ok pending_id d in
  res.1.1.2 = None /\ res.1.2 = false
  /\ (forall rid,
        res.1.1.1 = DelDone rid
        <-> ok = true /\ pending_id = Some rid /\ get_visit_by_id rid d <> [])
  /\ (forall rid, res.1.1.1 = DelDone rid -> res.2 = (delete_visit rid d).1)
  /\ ((forall rid, res.1.1.1 <> DelDone rid) -> res.2 = d).
Proof.
  unfold confirm_delete.
  destruct ok; simpl negb; cbv iota.
  2: { simpl. split; [done|]. split; [done|]. split; [|by split].
       intros rid. split; [done|]. by intros [? _]. }
  destruct pending_id as [rid0|].
  2: { simpl. split; [done|]. split; [done|]. split; [|by split].
       intros rid. split; [done|]. by intros (_ & ? & _). }
  change (delete_visit rid0 d)
    with ((delete_visit rid0 d).1, Z.of_nat (length (get_visit_by_id rid0 d))).
  cbv beta iota zeta.
  destruct (Z.eqb_spec (Z.of_nat (length (get_visit_by_id rid0 d))) 0) as [E|E].
  - apply rowcount_zero in E. simpl. split; [done|]. split; [done|]. split; [|split].
    + intros rid. split; [done|]. intros (_ & [= <-] & H). done.
    + done.
    + intros _. by apply delete_absent.
  - simpl. split; [done|]. split; [done|]. split; [|split].
    + intros rid. split.
      * intros [= <-]. split; [done|]. split; [done|]. intros H. by rewrite H in E.
      * by intros (_ & [= ->] & _).
    + by intros rid [= <-].
    + intros H. by destruct (H rid0).
Qed.

Lemma reset_done_inv (ok : bool) (pw1 pw2 : option str) (d : db) :
  (admin_reset_all ADMIN_PASSWORD ok pw1 pw2 d).1 = ResetDone ->
  ok = true /\ ADMIN_PASSWORD <> []
  /\ strip (or_empty pw1) = ADMIN_PASSWORD
  /\ strip (or_empty pw2) = ADMIN_PASSWORD.
Proof.
  unfold admin_reset_all.
  destruct ok; simpl negb; cbv iota; [|done].
  destruct (strip (or_empty pw1)) as [|c1 p1]; [done|].
  destruct (strip (or_empty pw2)) as [|c2 p2]; [done|].
  simpl nonempty. simpl negb. simpl orb. cbv iota.
  destruct (decide (c1 :: p1 = c2 :: p2)) as [E|E].
  2: { by rewrite bool_decide_eq_false_2. }
  rewrite bool_decide_eq_true_2 by done. simpl negb. cbv iota.
  destruct (decide (c1 :: p1 = ADMIN_PASSWORD)) as [E'|E'].
  2: { by rewrite bool_decide_eq_false_2. }
  intros _. split; [done|]. split; [by rewrite <- E'|]. split; [done|]. congruence.
Qed.

(** X12: [admin_reset_all] empties the table, and restarts the ids,
    exactly when the session is logged in and both typed words, stripped,
    equal a non-empty [ADMIN_PASSWORD]; in every other case the table is
    unchanged. *)
Theorem admin_reset_all_effect (ok : bool) (pw1 pw2 : option str) (d : db) :
  let res := admin_reset_all ADMIN_PASSWORD ok pw1 pw2 d in
  (res.1 = ResetDone
   <-> ok = true /\ ADMIN_PASSWORD <> []
       /\ strip (or_empty pw1) = ADMIN_PASSWORD
       /\ strip (or_empty pw2) = ADMIN_PASSWORD)
  /\ (res.1 = ResetDone -> res.2 = Db [] 0)
  /\ (res.1 <> ResetDone -> res.2 = d).
Proof.
  intros res. split; [|split].
  - split; [apply reset_done_inv|].
    intros (-> & Hne & E1 & E2). subst res. unfold admin_reset_all.
    rewrite E1, E2. simpl negb. cbv iota.
    destruct ADMIN_PASSWORD as [|c p]; [done|].
    simpl nonempty. simpl negb. simpl orb. cbv iota.
    by rewrite !bool_decide_eq_true_2.
  - subst res. unfold admin_reset_all.
    destruct ok; [|done]. simpl negb. cbv iota.
    destruct (negb (nonempty (strip (or_empty pw1))) || negb (nonempty (strip (or_empty pw2))));
      [done|].
    destruct (negb (bool_decide (strip (or_empty pw1) = strip (or_empty pw2)))); [done|].
    by destruct (negb (bool_decide (strip (or_empty pw1) = ADMIN_PASSWORD))).
  - subst res. unfold admin_reset_all.
    destruct ok; [|done]. simpl negb. cbv iota.
    destruct (negb (nonempty (strip (or_empty pw1))) || negb (nonempty (strip (or_empty pw2))));
      [done|].
    destruct (negb (bool_decide (strip (or_empty pw1) = strip (or_empty pw2)))); [done|].
    by destruct (negb (bool_decide (strip (or_empty pw1) = ADMIN_PASSWORD))).
Qed.

(** X13: an [ADMIN_PASSWORD] with leading or trailing white space locks the
    console: the typed password is stripped before the comparison, so no
    input logs in and no input resets the data. *)
Theorem padded_password_locks_out (p pw1 pw2 : option str) (ok : bool) (d : db) :
  strip ADMIN_PASSWORD <> ADMIN_PASSWORD ->
  do_login ADMIN_PASSWORD p = false
  /\ admin_reset_all ADMIN_PASSWORD ok pw1 pw2 d <> (ResetDone, reset_all_data d).
Proof.
  intros H. split.
  - unfold do_login. apply bool_decide_eq_false_2. intros E.
    apply H. rewrite <- E. apply strip_idem.
  - intros E.
    destruct (reset_done_inv ok pw1 pw2 d) as (_ & _ & E1 & _); [by rewrite E|].
    apply H. rewrite <- E1. apply strip_idem.
Qed.

End Environment.

Lemma padded_password_locks_out_witness :
  do_login (u " 1234") (Some (u " 1234")) = false
  /\ admin_reset_all (u " 1234") true (Some (u " 1234")) (Some (u " 1234")) two_rows
     <> (ResetDone, reset_all_data two_rows).
Proof. apply padded_password_locks_out. by_decide. Defined.

Lemma submit_then_fetch_witness :
  admin_fetch_one decimal true (u "1")
    (visitor_submit (u "2024-06-03") (u "2024-06-03T10:00:00") (Some (u "여성"))
       (Some (u "만19~24세")) (Some (u "안양시 동안구")) [u "기타"] (Some (u "첫방문"))
       (Some (u " 산책 ")) empty_db).2
  = FetchForm FetchLoaded (u "2024-06-03") (u "여성") (u "만19~24세") (u "안양시 동안구")
      [u "기타"] (u "첫방문") (u "산책").
Proof.
  apply (submit_then_fetch decimal (u "2024-06-03") (u "2024-06-03T10:00:00")
           (u "여성") (u "만19~24세") (u "안양시 동안구") (u "첫방문") (u "기타") []
           (Some (u " 산책 ")) empty_db (u "1")).
  reflexivity.
Defined.

Lemma update_then_fetch_witness :
  admin_fetch_one decimal true (u "2")
    (admin_update_one decimal true (u "2") (Some (u " 2024-6-3 ")) (Some (u "남성")) None
       (Some (u "기타")) [u "미팅 및 워크숍"] (Some (u "재방문(2회 이상)")) None two_rows).2
  = FetchForm FetchLoaded (u "2024-6-3") (u "남성") (u "None") (u "기타")
      [u "미팅 및 워크숍"] (u "재방문(2회 이상)") [].
Proof.
  apply (update_then_fetch decimal (u "2") (Some (u " 2024-6-3 ")) (Some (u "남성")) None
           (Some (u "기타")) [u "미팅 및 워크숍"] (Some (u "재방문(2회 이상)")) None two_rows 2).
  reflexivity.
Defined.

Lemma request_then_confirm_witness :
  true = true /\ decimal (u "2") = Some 2
  /\ DelAskConfirm 2 = DelAskConfirm 2 /\ true = true
  /\ get_visit_by_id 2 two_rows <> []
  /\ confirm_delete true (Some 2) two_rows
     = (DelDone 2, None, false, (delete_visit 2 two_rows).1).
Proof. apply (request_then_confirm decimal true (u "2")). reflexivity. Defined.

End AdminFacts.

(** ** Daily series over the stored rows *)

Module SeriesFacts.
Import AggregatorFacts CalendarFacts DailyFacts IsoDates QueryFacts.

(** Every date of a series is printed from a counted day of the range. *)
Lemma series_dates (df : option DataFrame) (start end_ x : str) :
  x ∈ List.map fst (make_daily_counts df start end_).1 ->
  exists s e c,
    strptime start = Some s /\ strptime end_ = Some e
    /\ c ∈ open_days s e /\ x = strftime c.
Proof.
  destruct (strptime start) as [s|] eqn:Hs.
  2: { unfold make_daily_counts. rewrite Hs. simpl. intros H. by apply elem_of_nil in H. }
  destruct (strptime end_) as [e|] eqn:He.
  2: { unfold make_daily_counts. rewrite Hs, He. simpl. intros H. by apply elem_of_nil in H. }
  destruct (date_lt e s) eqn:Hlt.
  { unfold make_daily_counts. rewrite Hs, He, Hlt. simpl. intros H. by apply elem_of_nil in H. }
  destruct (make_daily_counts_range df start end_ s e Hs He Hlt)
    as [[_ ->]|(_ & avg & -> & _)].
  - simpl. intros H. by apply elem_of_nil in H.
  - cbn [fst]. unfold series_of. rewrite List.map_map. cbn [fst].
    intros H. apply list_elem_of_In, in_map_iff in H as (c & <- & Hc).
    exists s, e, c. by rewrite <- list_elem_of_In in Hc.
Qed.

Lemma open_day_bounds (start end_ : str) (s e c : date) :
  strptime start = Some s -> strptime end_ = Some e -> c ∈ open_days s e ->
  valid_date c = true /\ year c <= 9999.
Proof.
  intros Hs He Hc.
  destruct (strptime_valid _ _ Hs) as [Hvs _].
  destruct (strptime_valid _ _ He) as [Hve Hye].
  apply elem_of_open_days in Hc as (Hvc & _ & Hle & _); [|done|done].
  split; [done|]. apply date_le_year in Hle. lia.
Qed.

(** X17: a date text that [strptime] accepts in another form than
    [strftime] prints, such as the ["2024-6-3"] that [admin_update_one]
    stores as typed, is the date of no entry of any daily series: rows that
    carry it are counted on no day. *)
Theorem noncanonical_date_uncounted (v : str) (c : date) (df : option DataFrame)
    (start end_ : str) :
  strptime v = Some c -> v <> strftime c ->
  v ∉ List.map fst (make_daily_counts df start end_).1.
Proof.
  intros Hv Hne Hin.
  apply series_dates in Hin as (s & e & c' & Hs & He & Hc' & ->).
  destruct (open_day_bounds _ _ _ _ _ Hs He Hc') as [Hvc Hyc].
  rewrite printed_date_parses in Hv by done. congruence.
Qed.

Lemma noncanonical_date_uncounted_witness :
  u "2024-6-3"
  ∉ List.map fst
      (make_daily_counts
         (Some [Visit 1 None (Some (u "2024-6-3")) None None None None None])
         (u "2024-06-03") (u "2024-06-08")).1.
Proof.
  apply (noncanonical_date_uncounted (u "2024-6-3") (Date 2024 6 3)); by_decide.
Defined.

Lemma sum_Z_add {A : Type} (f g : A -> Z) (l : list A) :
  sum_Z (List.map (fun x => f x + g x) l)
  = sum_Z (List.map f l) + sum_Z (List.map g l).
Proof.
  induction l as [|x l IH]; [done|].
  simpl in *. unfold sum_Z in *. simpl. lia.
Qed.

Lemma sum_Z_indicator {A : Type} (f : A -> str) (y : str) (l : list A) :
  NoDup (List.map f l) ->
  sum_Z (List.map (fun c => if decide (y = f c) then 1 else 0) l)
  = if decide (y ∈ List.map f l) then 1 else 0.
Proof.
  induction l as [|x l IH]; [done|].
  simpl List.map. rewrite NoDup_cons. intros [Hx Hnd].
  change (sum_Z ((if decide (y = f x) then 1 else 0)
                 :: List.map (fun c => if decide (y = f c) then 1 else 0) l))
    with ((if decide (y = f x) then 1 else 0)
          + sum_Z (List.map (fun c => if decide (y = f c) then 1 else 0) l)).
  rewrite IH by done.
  destruct (decide (y = f x)) as [->|Hy].
  - rewrite (decide_False (P := f x ∈ List.map f l)) by done.
    by rewrite decide_True by (by left).
  - destruct (decide (y ∈ List.map f l)) as [Hin|Hin].
    + by rewrite decide_True by (by right).
    + rewrite decide_False; [done|]. rewrite not_elem_of_cons. done.
Qed.

Lemma sum_count_members {A : Type} (f : A -> str) (days : list A) (l : list str) :
  NoDup (List.map f days) ->
  sum_Z (List.map (fun c => count_of (f c) l) days)
  = Z.of_nat (length (filter (fun y => y ∈ List.map f days) l)).
Proof.
  intros Hnd. induction l as [|y l IH].
  - simpl. apply sum_Z_zero.
  - erewrite List.map_ext; [|intros c; apply count_of_cons].
    rewrite (sum_Z_add (fun c => if decide (y = f c) then 1 else 0)
               (fun c => count_of (f c) l)).
    rewrite IH, sum_Z_indicator by done.
    destruct (decide (y ∈ List.map f days)).
    + rewrite filter_cons_True by done. simpl length. lia.
    + rewrite filter_cons_False by done. lia.
Qed.

Lemma count_of_column (g : visit -> str) (x : str) (l : list visit) :
  count_of x (List.map g l) = Z.of_nat (length (filter (fun r => g r = x) l)).
Proof.
  unfold count_of. f_equal. induction l as [|r l IH]; [done|].
  simpl List.map. destruct (decide (g r = x)).
  - rewrite !filter_cons_True by done. simpl. by rewrite IH.
  - rewrite !filter_cons_False by done. done.
Qed.

Lemma filter_length_perm (P : visit -> Prop) `{!forall r, Decision (P r)}
    (l1 l2 : list visit) :
  l1 ≡ₚ l2 -> length (filter P l1) = length (filter P l2).
Proof. intros Hp. by rewrite Hp. Qed.

Lemma filter_filter_sub (P Q : visit -> Prop) `{!forall r, Decision (P r)}
    `{!forall r, Decision (Q r)} (l : list visit) :
  (forall r, P r -> Q r) -> filter P (filter Q l) = filter P l.
Proof.
  intros Hsub. induction l as [|r l IH]; [done|].
  destruct (decide (Q r)) as [Hq|Hq].
  - rewrite (filter_cons_True Q) by done.
    destruct (decide (P r)).
    + rewrite !filter_cons_True by done. by rewrite IH.
    + rewrite !filter_cons_False by done. done.
  - rewrite (filter_cons_False Q) by done.
    rewrite (filter_cons_False P); [done|]. intros Hp. by apply Hq, Hsub.
Qed.

Lemma strftime_not_None (c : date) : strftime c <> py_str None.
Proof. intros H. apply (f_equal length) in H. simpl in H. vm_compute in H. lia. Qed.

(** The rows of the table dated [x], as [load_visits] hands them on. *)
Lemma loaded_on_day (a b c : date) (d : db) :
  valid_date a = true -> valid_date b = true -> year b <= 9999 ->
  c ∈ open_days a b ->
  visits_on (Some (load_visits (strftime a) (strftime b) d)) (strftime c)
  = Z.of_nat (length (filter (fun r => visit_date r = Some (strftime c)) (visits d))).
Proof.
  intros Ha Hb Hyb Hc.
  apply elem_of_open_days in Hc as (Hvc & Hac & Hcb & _); [|done|done].
  pose proof (date_le_year _ _ Hac). pose proof (date_le_year _ _ Hcb).
  unfold visits_on. simpl rows_of. rewrite count_of_column.
  unfold load_visits. f_equal.
  rewrite (filter_length_perm _ _ _ (sort_by_id_perm _)).
  rewrite filter_filter_sub.
  - f_equal. apply list_filter_iff. intros r.
    destruct (visit_date r) as [v|]; simpl.
    + split; congruence.
    + split; [|done]. intros H'. symmetry in H'. by apply strftime_not_None in H'.
  - intros r Hr. unfold between.
    destruct (visit_date r) as [v|]; simpl in Hr.
    + subst v. rewrite !str_le_strftime by (done || lia). by rewrite Hac, Hcb.
    + symmetry in Hr. by apply strftime_not_None in Hr.
Qed.

Lemma NoDup_map_on {A B : Type} (f : A -> B) (l : list A) :
  (forall x y, x ∈ l -> y ∈ l -> f x = f y -> x = y) ->
  NoDup l -> NoDup (List.map f l).
Proof.
  intros Hinj Hnd. induction Hnd as [|x l Hx Hnd IH]; [constructor|].
  simpl. constructor.
  - intros Hin. apply list_elem_of_In, in_map_iff in Hin as (y & Hy & Hyl).
    apply list_elem_of_In in Hyl.
    assert (y = x) as -> by (apply Hinj; [by right|by left|done]). done.
  - apply IH. intros a b Ha Hb. apply Hinj; by right.
Qed.

Lemma open_days_print_NoDup (s e : date) :
  valid_date s = true -> valid_date e = true -> year e <= 9999 ->
  NoDup (List.map strftime (open_days s e)).
Proof.
  intros Hs He Hy. apply NoDup_map_on.
  - intros x y Hx Hy'.
    apply elem_of_open_days in Hx as (Hvx & _ & Hxe & _); [|done|done].
    apply elem_of_open_days in Hy' as (Hvy & _ & Hye & _); [|done|done].
    apply date_le_year in Hxe, Hye.
    apply strftime_inj; (done || lia).
  - apply sorted_NoDup. unfold open_days. apply sorted_filter.
    by apply date_range_sorted.
Qed.

Lemma length_filter_column (g : visit -> str) (P : str -> Prop)
    `{!forall x, Decision (P x)} (l : list visit) :
  length (filter P (List.map g l)) = length (filter (fun r => P (g r)) l).
Proof.
  induction l as [|r l IH]; [done|].
  simpl List.map. destruct (decide (P (g r))).
  - rewrite !filter_cons_True by done. simpl. by rewrite IH.
  - rewrite !filter_cons_False by done. done.
Qed.

(** The rows of the table dated on a counted day of the range. *)
Definition on_counted_day (s e : date) (r : visit) : Prop :=
  visit_date r ∈ List.map (fun c => Some (strftime c)) (open_days s e).

#[local] Instance on_counted_day_dec (s e : date) (r : visit) :
  Decision (on_counted_day s e r).
Proof. unfold on_counted_day. apply _. Defined.

Lemma rows_dated (x : date) (rows : list visit) :
  Z.of_nat (length (filter (fun r => visit_date r = Some (strftime x)) rows))
  = count_of (strftime x) (List.map (fun r => py_str (visit_date r)) rows).
Proof.
  rewrite count_of_column. do 2 f_equal. apply list_filter_iff. intros r.
  destruct (visit_date r) as [v|]; simpl.
  - split; congruence.
  - split; [done|]. intros H'. symmetry in H'. by apply strftime_not_None in H'.
Qed.

Lemma total_on_counted_days (s e : date) (rows : list visit) :
  NoDup (List.map strftime (open_days s e)) ->
  sum_Z (List.map
           (fun c => Z.of_nat (length (filter (fun r => visit_date r = Some (strftime c))
                                         rows)))
           (open_days s e))
  = Z.of_nat (length (filter (on_counted_day s e) rows)).
Proof.
  intros Hnd.
  erewrite List.map_ext; [|intros c; apply rows_dated].
  rewrite sum_count_members by done. f_equal.
  rewrite length_filter_column. f_equal. apply list_filter_iff. intros r.
  unfold on_counted_day.
  rewrite !list_elem_of_In, !in_map_iff.
  destruct (visit_date r) as [v|]; simpl.
  - split; intros (c & Hc & Hin); exists c; (split; [congruence|done]).
  - split; intros (c & Hc & Hin); [|done].
    by apply strftime_not_None in Hc.
Qed.

(** The daily table over the whole store, for a range of printed dates. *)
Lemma daily_table_rows (s e : date) (d : db) :
  valid_date s = true -> valid_date e = true -> year e <= 9999 ->
  date_le s e = true -> open_days s e <> [] ->
  t_daily (admin_load_all true (strftime s) (strftime e) d)
  = List.map
      (fun c => (strftime c,
                 Z.of_nat (length (filter (fun r => visit_date r = Some (strftime c))
                                     (visits d)))))
      (open_days s e).
Proof.
  intros Hs He Hye Hle Hopen.
  pose proof (date_le_year _ _ Hle) as Hys.
  assert (Hps : strptime (strftime s) = Some s) by (apply printed_date_parses; [done|lia]).
  assert (Hpe : strptime (strftime e) = Some e) by (by apply printed_date_parses).
  assert (Hlt : date_lt e s = false).
  { unfold date_le in Hle. by apply negb_true_iff in Hle. }
  set (df := load_visits (strftime s) (strftime e) d).
  destruct (make_daily_counts_range (Some df) _ _ s e Hps Hpe Hlt)
    as [[Hnil _]|(_ & avg & Hm & _)]; [done|].
  unfold admin_load_all. simpl negb. cbv iota. fold df. rewrite Hm.
  cbn [t_daily]. unfold series_of. apply map_ext_in. intros c Hc.
  apply list_elem_of_In in Hc. f_equal. by apply loaded_on_day.
Qed.

(** X18: for a range given as two printed dates, the daily table of
    [admin_load_all] has one entry per day of the range that is no Sunday,
    holding the number of rows of the whole table dated that day, and the
    total of its message is the number of rows of the table dated on some
    such day: the range query loses no row the series counts, and visits
    dated on a Sunday are left out of the total. *)
Theorem admin_load_all_daily (s e : date) (d : db) :
  valid_date s = true -> valid_date e = true -> year e <= 9999 ->
  date_le s e = true -> open_days s e <> [] ->
  let t := admin_load_all true (strftime s) (strftime e) d in
  t_daily t
  = List.map
      (fun c => (strftime c,
                 Z.of_nat (length (filter (fun r => visit_date r = Some (strftime c))
                                     (visits d)))))
      (open_days s e)
  /\ exists avg,
       t_daily_msg t
       = Some (MsgSummary (strftime s) (strftime e)
                 (Z.of_nat (length (sundays s e)))
                 (Z.of_nat (length (open_days s e)))
                 (Z.of_nat (length (filter (on_counted_day s e) (visits d))))
                 avg).
Proof.
  intros Hs He Hye Hle Hopen.
  pose proof (date_le_year _ _ Hle) as Hys.
  assert (Hps : strptime (strftime s) = Some s) by (apply printed_date_parses; [done|lia]).
  assert (Hpe : strptime (strftime e) = Some e) by (by apply printed_date_parses).
  assert (Hlt : date_lt e s = false).
  { unfold date_le in Hle. by apply negb_true_iff in Hle. }
  set (df := load_visits (strftime s) (strftime e) d).
  assert (Hser : series_of (Some df) (open_days s e)
                 = List.map
                     (fun c => (strftime c,
                                Z.of_nat (length (filter
                                  (fun r => visit_date r = Some (strftime c)) (visits d)))))
                     (open_days s e)).
  { unfold series_of. apply map_ext_in. intros c Hc.
    apply list_elem_of_In in Hc. f_equal. by apply loaded_on_day. }
  destruct (make_daily_counts_range (Some df) _ _ s e Hps Hpe Hlt)
    as [[Hnil _]|(_ & avg & Hm & _)]; [done|].
  unfold admin_load_all. simpl negb. cbv iota. fold df. rewrite Hm.
  cbn [t_daily t_daily_msg]. split; [done|].
  exists avg. do 2 f_equal.
  rewrite Hser, List.map_map. cbn [snd].
  apply total_on_counted_days. by apply open_days_print_NoDup.
Qed.

Definition week_rows : db :=
  Db [Visit 1 None (Some (u "2024-06-03")) None None None None None;
      Visit 2 None (Some (u "2024-06-09")) None None None None None;
      Visit 3 None (Some (u "2024-06-08")) None None None None None;
      Visit 4 None (Some (u "2024-6-5")) None None None None None;
      Visit 5 None (Some (u "2024-06-10")) None None None None None] 5.

Lemma admin_load_all_daily_witness :
  let t := admin_load_all true (u "2024-06-03") (u "2024-06-09") week_rows in
  t_daily t
  = [ (u "2024-06-03", 1); (u "2024-06-04", 0); (u "2024-06-05", 0);
      (u "2024-06-06", 0); (u "2024-06-07", 0); (u "2024-06-08", 1) ]
  /\ exists avg,
       t_daily_msg t
       = Some (MsgSummary (u "2024-06-03") (u "2024-06-09") 1 6 2 avg).
Proof.
  apply (admin_load_all_daily (Date 2024 6 3) (Date 2024 6 9) week_rows);
    try reflexivity; [simpl; lia|by_decide].
Defined.

(** X28: a visit saved by [visitor_submit] on a counted day of the range
    adds exactly one to the entry of that day in the daily table of
    [admin_load_all], and leaves every other entry as it was. *)
Theorem submitted_visit_counted (s e c : date) (now g a r v p : str) (ps : list str)
    (other : option str) (d : db) :
  valid_date s = true -> valid_date e = true -> year e <= 9999 ->
  c ∈ open_days s e ->
  let d' := (visitor_submit (strftime c) now (Some g) (Some a) (Some r) (p :: ps)
               (Some v) other d).2 in
  t_daily (admin_load_all true (strftime s) (strftime e) d')
  = List.map (fun x => if decide (x.1 = strftime c) then (x.1, x.2 + 1) else x)
      (t_daily (admin_load_all true (strftime s) (strftime e) d)).
Proof.
  intros Hs He Hye Hc d'.
  assert (Hopen : open_days s e <> []) by (intros E; rewrite E in Hc; by apply elem_of_nil in Hc).
  assert (Hle : date_le s e = true).
  { apply elem_of_open_days in Hc as (Hvc & Hsc & Hce & _); [|done|done].
    apply date_le_iff; [done|done|].
    apply date_le_iff in Hsc, Hce; [lia|done..]. }
  rewrite !daily_table_rows by done.
  rewrite List.map_map. apply List.map_ext. intros x. cbn [fst snd].
  subst d'. rewrite CodecFacts.visitor_submit_saved. cbn [snd].
  unfold insert_visit. cbn [visits]. rewrite filter_app, length_app.
  destruct (decide (strftime x = strftime c)) as [E|E].
  - rewrite (filter_cons_True _ _ []) by (cbn [visit_date]; by rewrite E).
    f_equal. simpl length. lia.
  - rewrite (filter_cons_False _ _ []) by (cbn [visit_date]; congruence).
    f_equal. simpl length. lia.
Qed.

Lemma submitted_visit_counted_witness :
  let d' := (visitor_submit (u "2024-06-08") (u "2024-06-08T09:00:00") (Some (u "여성"))
               (Some (u "만19~24세")) (Some (u "기타")) [u "기타"] (Some (u "첫방문"))
               None week_rows).2 in
  t_daily (admin_load_all true (u "2024-06-03") (u "2024-06-09") d')
  = List.map (fun x => if decide (x.1 = u "2024-06-08") then (x.1, x.2 + 1) else x)
      (t_daily (admin_load_all true (u "2024-06-03") (u "2024-06-09") week_rows)).
Proof.
  apply (submitted_visit_counted (Date 2024 6 3) (Date 2024 6 9) (Date 2024 6 8));
    try reflexivity; [simpl; lia|by_decide].
Defined.

End SeriesFacts.

(** ** Visitor form *)

Module FormFacts.

(** X19: [visitor_submit] saves exactly when gender, age, residence and
    visit type are chosen and at least one purpose is ticked; an incomplete
    form leaves the table as it was, and a complete one appends one row,
    with a new largest id, that holds the day, the choices as given and the
    joined purpose text. *)
Theorem visitor_submit_effect (today now : str) (gender age residence : option str)
    (purposes : list str) (visit_type other : option str) (d : db) :
  let res := visitor_submit today now gender age residence purposes visit_type other d in
  (res.1 = Saved
   <-> is_Some gender /\ is_Some age /\ is_Some residence /\ is_Some visit_type
       /\ purposes <> [])
  /\ (res.1 <> Saved -> res.2 = d)
  /\ (res.1 = Saved ->
      exists r,
        visits res.2 = visits d ++ [r]
        /\ Forall (fun x => id x < id r) (visits d)
        /\ created_at r = Some now /\ visit_date r = Some today
        /\ Store.gender r = gender /\ age_group r = age
        /\ Store.residence r = residence /\ Store.visit_type r = visit_type
        /\ purpose r = Some (visitor_submit_purpose_str purposes other)).
Proof.
  destruct gender as [g|].
  2: { simpl. split; [|by split]. split; [done|]. intros (H & _). by destruct H. }
  destruct age as [a|].
  2: { simpl. split; [|by split]. split; [done|]. intros (_ & H & _). by destruct H. }
  destruct residence as [r|].
  2: { simpl. split; [|by split]. split; [done|]. intros (_ & _ & H & _). by destruct H. }
  destruct visit_type as [v|].
  2: { simpl. split; [|by split]. split; [done|]. intros (_ & _ & _ & H & _). by destruct H. }
  destruct purposes as [|p ps].
  { simpl. split; [|by split]. split; [done|]. by intros (_ & _ & _ & _ & H). }
  rewrite CodecFacts.visitor_submit_saved. cbn [fst snd].
  split; [|split; [done|]].
  - split; [|done]. intros _. by repeat (split; [by eexists|]).
  - intros _.
    destruct (StoreLaws.insert_visit_new_row now (Some today) (Some g) (Some a) (Some r)
                (Some (visitor_submit_purpose_str (p :: ps) other)) (Some v) d)
      as (_ & Hlt & _).
    eexists. split; [reflexivity|]. by repeat split.
Qed.

End FormFacts.

(** ** The checksheet and the edit form read a purpose text alike *)

Module ReadersAgree.
Import CodecFacts ChecksheetFacts.

Lemma lstrip_split (s : str) :
  exists pre, s = pre ++ lstrip s /\ forallb is_space pre = true.
Proof.
  induction s as [|c s (pre & E & Hpre)]; [by exists []|].
  simpl. destruct (is_space c) eqn:Hc.
  - exists (c :: pre). simpl. rewrite Hc, Hpre. split; [by rewrite <- E|done].
  - by exists [].
Qed.

Lemma rstrip_split (s : str) :
  exists post, s = rstrip s ++ post /\ forallb is_space post = true.
Proof.
  induction s as [|c s (post & E & Hpost)]; [by exists []|].
  simpl. destruct (rstrip s) as [|x r] eqn:Er.
  - destruct (is_space c) eqn:Hc.
    + exists (c :: post). simpl in *. rewrite Hc, Hpost. split; [by rewrite <- E|done].
    + exists post. split; [|done]. simpl in *. by rewrite <- E.
  - exists post. split; [|done]. simpl in *. by rewrite <- E.
Qed.

Lemma rstrip_spaces (post : str) : forallb is_space post = true -> rstrip post = [].
Proof.
  induction post as [|c post IH]; [done|].
  simpl. intros [Hc Hp]%andb_true_iff. by rewrite IH, Hc.
Qed.

Lemma rstrip_spaces_post (a post : str) :
  forallb is_space post = true -> rstrip (a ++ post) = rstrip a.
Proof.
  intros Hp. induction a as [|c a IH]; [by apply rstrip_spaces|].
  simpl. by rewrite IH.
Qed.

Lemma strip_pre (pre x : str) :
  forallb is_space pre = true -> strip (pre ++ x) = strip x.
Proof. intros H. unfold strip. by rewrite lstrip_spaces. Qed.

Lemma strip_post (x post : str) :
  forallb is_space post = true -> strip (x ++ post) = strip x.
Proof.
  intros Hp. unfold strip.
  destruct (lstrip_split x) as (pre & E & Hpre).
  rewrite E at 1. rewrite <- app_assoc, lstrip_spaces by done.
  destruct (lstrip_head x) as [H0|(c & r & Hx & Hc)].
  - rewrite H0. simpl.
    replace (lstrip post) with (@nil N); [done|].
    symmetry. rewrite <- (app_nil_r post). by rewrite lstrip_spaces.
  - rewrite Hx. simpl app. rewrite lstrip_nonspace by done.
    by apply (rstrip_spaces_post (c :: r)).
Qed.

Lemma split_go1_shift (c : N) (cur a b : str) :
  c ∉ a -> split_go [c] 0 cur (a ++ b) = split_go [c] 0 (cur ++ a) b.
Proof.
  revert cur. induction a as [|x a IH]; intros cur Hc.
  - by rewrite app_nil_r.
  - apply not_elem_of_cons in Hc as [Hx Ha].
    simpl app. cbn [split_go]. rewrite startswith_cons1.
    destruct (N.eqb_spec c x) as [->|_]; [done|].
    rewrite IH by done. by rewrite <- app_assoc.
Qed.

(** A prefix of the piece being read stays in front of the first piece. *)
Lemma split_go1_head (c : N) (pre cur y : str) :
  exists p rest,
    split_go [c] 0 cur y = p :: rest
    /\ split_go [c] 0 (pre ++ cur) y = (pre ++ p) :: rest.
Proof.
  revert cur. induction y as [|x y IH]; intros cur.
  - by exists cur, [].
  - cbn [split_go]. rewrite startswith_cons1.
    destruct (c =? x)%N.
    + by exists cur, (split_go [c] (length [c] - 1) [] y).
    + destruct (IH (cur ++ [x])) as (p & rest & E1 & E2).
      exists p, rest. split; [done|]. by rewrite <- app_assoc.
Qed.

(** White space after the text ends up at the end of the last piece. *)
Lemma split_go1_last (c : N) (cur y post : str) :
  c ∉ post ->
  exists init last,
    split_go [c] 0 cur y = init ++ [last]
    /\ split_go [c] 0 cur (y ++ post) = init ++ [last ++ post].
Proof.
  intros Hp. revert cur. induction y as [|x y IH]; intros cur.
  - exists [], cur. split; [done|]. simpl app.
    rewrite <- (app_nil_r post) at 1. rewrite split_go1_shift by done. done.
  - simpl app. cbn [split_go]. rewrite !startswith_cons1.
    destruct (c =? x)%N.
    + simpl length. simpl Nat.sub.
      destruct (IH []) as (init & last & E1 & E2).
      exists (cur :: init), last. by rewrite E1, E2.
    + apply IH.
Qed.

Lemma spaces_no_comma (l : str) : forallb is_space l = true -> 44%N ∉ l.
Proof.
  intros H Hin. rewrite forallb_forall in H.
  apply list_elem_of_In, H in Hin. done.
Qed.

(** Stripping the whole text first does not change its stripped pieces. *)
Lemma pieces_of_stripped (s : str) :
  List.map strip (split COMMA (strip s)) = List.map strip (split COMMA s).
Proof.
  change (split COMMA (strip s)) with (split_go [44%N] 0 [] (strip s)).
  change (split COMMA s) with (split_go [44%N] 0 [] s).
  destruct (lstrip_split s) as (pre & Es & Hpre).
  destruct (rstrip_split (lstrip s)) as (post & Et & Hpost).
  fold (strip s) in Et.
  rewrite Es at 2. rewrite Et.
  rewrite split_go1_shift by (by apply spaces_no_comma). simpl app.
  destruct (split_go1_head 44%N pre [] (strip s ++ post)) as (p & rest & E1 & E2).
  rewrite app_nil_r in E2. rewrite E2.
  transitivity (List.map strip (split_go [44%N] 0 [] (strip s ++ post))).
  - destruct (split_go1_last 44%N [] (strip s) post (spaces_no_comma _ Hpost))
      as (init & last & E3 & E4).
    rewrite E3, E4, !List.map_app. simpl. by rewrite strip_post.
  - rewrite E1. simpl. by rewrite strip_pre.
Qed.

Lemma flag_items_purpose_items (s : str) : flag_items (Some s) = purpose_items s.
Proof. unfold flag_items, purpose_items. simpl or_empty. by rewrite pieces_of_stripped. Qed.

(** The purposes the loop of [admin_fetch_one] has collected. *)
Lemma fetch_members (items : list str) (acc : list str) (ot : str) (k : str) :
  k ∈ (foldl fetch_step (acc, ot) items).1
  <-> k ∈ acc
      \/ (k = GITA /\ has_other items)
      \/ (k ∈ items /\ k ∈ PURPOSE_OPTIONS /\ startswith GITA_COLON k = false
          /\ k <> GITA).
Proof.
  revert acc ot. induction items as [|it items IH]; intros acc ot.
  - simpl. unfold has_other. rewrite Exists_nil.
    split; [tauto|]. intros [H|[[_ []]|[H _]]]; [done|]. by apply elem_of_nil in H.
  - change (foldl fetch_step (acc, ot) (it :: items))
      with (foldl fetch_step (fetch_step (acc, ot) it) items).
    unfold has_other. rewrite Exists_cons. fold (has_other items).
    unfold fetch_step. rewrite elem_of_cons.
    destruct (startswith GITA_COLON it) eqn:Hs.
    { rewrite IH, elem_of_app, list_elem_of_singleton. split.
      - intros [[H|H]|[H|H]]; try tauto.
      - intros [H|[[H1 [H2|H2]]|[[H1|H1] H2]]]; try tauto.
        destruct H2 as (_ & H2 & _). congruence. }
    destruct (decide (it = GITA)) as [Hg|Hg].
    { rewrite IH, elem_of_app, list_elem_of_singleton. split.
      - intros [[H|H]|[H|H]]; try tauto.
      - intros [H|[[H1 [H2|H2]]|[[H1|H1] H2]]]; try tauto.
        destruct H2 as (_ & _ & H2). congruence. }
    destruct (decide (it ∈ PURPOSE_OPTIONS)) as [Ho|Ho].
    { rewrite IH, elem_of_app, list_elem_of_singleton. split.
      - intros [[H|H]|[H|H]]; try tauto.
        subst k. right. right. tauto.
      - intros [H|[[H1 [[H2|H2]|H2]]|[[H1|H1] H2]]]; try tauto; try congruence. }
    rewrite IH. split.
    + intros [H|[H|H]]; tauto.
    + intros [H|[[H1 [[H2|H2]|H2]]|[[H1|H1] H2]]]; try tauto; try congruence.
      subst k. tauto.
Qed.

(** X20: the checksheet and the edit form agree on every stored text: for
    each purpose option, [purpose_to_flags] sets the flag to 1 exactly when
    [admin_fetch_one] shows the option selected, and to 0 otherwise. *)
Theorem flags_match_edit_form (s k : str) :
  k ∈ PURPOSE_OPTIONS ->
  (purpose_to_flags (Some s) !! k = Some 1 <-> k ∈ (admin_fetch_one_purposes s).1)
  /\ (purpose_to_flags (Some s) !! k = Some 0 <-> k ∉ (admin_fetch_one_purposes s).1).
Proof.
  intros Hk. unfold purpose_to_flags, admin_fetch_one_purposes.
  rewrite flags_lookup, decide_True by done.
  rewrite flag_items_purpose_items, fetch_members.
  pose proof (option_not_other_prefix k Hk) as Hp.
  set (items := purpose_items s).
  assert (Hiff : flag_value items k = 1
                 <-> k ∈ [] \/ (k = GITA /\ has_other items)
                     \/ (k ∈ items /\ k ∈ PURPOSE_OPTIONS
                         /\ startswith GITA_COLON k = false /\ k <> GITA)).
  { unfold flag_value.
    destruct (decide (k = GITA)) as [->|Hg].
    - destruct (decide (has_other items)) as [H|H].
      + split; [tauto|done].
      + split; [done|].
        intros [Hn|[[_ Hn]|(_ & _ & _ & Hn)]]; [by apply elem_of_nil in Hn|done|done].
    - destruct (decide (k ∈ items)) as [H|H].
      + split; [tauto|done].
      + split; [done|].
        intros [Hn|[[Hn _]|(Hn & _)]]; [by apply elem_of_nil in Hn|done|done]. }
  assert (Hbin : flag_value items k = 0 \/ flag_value items k = 1).
  { unfold flag_value. destruct (decide (k = GITA)).
    - destruct (decide (has_other items)); tauto.
    - destruct (decide (k ∈ items)); tauto. }
  rewrite <- Hiff. split.
  - split; [by intros [= ->]|by intros ->].
  - split.
    + intros [= E] E'. rewrite E in E'. discriminate.
    + intros Hn. by destruct Hbin as [->|E].
Qed.

Lemma flags_match_edit_form_witness :
  (purpose_to_flags (Some (u " 기타:산책 ,미팅 및 워크숍")) !! u "미팅 및 워크숍" = Some 1
   <-> u "미팅 및 워크숍" ∈ (admin_fetch_one_purposes (u " 기타:산책 ,미팅 및 워크숍")).1)
  /\ (purpose_to_flags (Some (u " 기타:산책 ,미팅 및 워크숍")) !! u "미팅 및 워크숍" = Some 0
      <-> u "미팅 및 워크숍" ∉ (admin_fetch_one_purposes (u " 기타:산책 ,미팅 및 워크숍")).1).
Proof. apply flags_match_edit_form. by_decide. Defined.

End ReadersAgree.

(** ** Checksheet matrix: cells and totals *)

Module MatrixFacts.
Import CodecFacts ChecksheetFacts CommaTagFacts.

(** What [build_checksheet_matrix] returns. *)
Definition totals_of (df : DataFrame) : list cell :=
  CStr TOTAL
  :: List.map CInt (add_cols (replicate (length sub_headers - 1) 0) (List.map row_of df)).

Lemma rows_length (df : DataFrame) :
  Forall (fun row => length row = length sub_headers) (List.map row_of df).
Proof.
  apply list.Forall_forall. intros row (r & -> & _)%list_elem_of_fmap.
  apply length_row_of.
Qed.

Lemma matrix_closed_form (df : DataFrame) :
  build_checksheet_matrix df = Some (sub_headers, totals_of df, List.map row_of df).
Proof.
  unfold build_checksheet_matrix. rewrite mapM_build_row.
  cbn [mbind option_bind].
  change (<[0%nat:=CStr TOTAL]> (replicate (length sub_headers) (CInt 0)))
    with (CStr TOTAL :: List.map CInt (replicate (length sub_headers - 1) 0)).
  rewrite foldlM_add_row; [done|done|apply rows_length].
Qed.

Lemma totals_lookup (df : DataFrame) (j : nat) :
  (1 <= j < length sub_headers)%nat ->
  totals_of df !! j = Some (CInt (col_sum j (List.map row_of df))).
Proof.
  destruct j as [|i]; [lia|]. intros [_ Hj]. unfold totals_of.
  cbn [lookup list_lookup].
  change ((List.map CInt ?l) !! i) with ((CInt <$> l) !! i).
  rewrite list_lookup_fmap.
  rewrite (add_cols_lookup _ _ _ 0).
  - simpl. repeat f_equal; lia.
  - eapply Forall_impl; [apply rows_length|]. intros row ->. reflexivity.
  - apply lookup_replicate. split; [done|].
    change (length sub_headers) with 21%nat in *. lia.
Qed.

Definition binary (x : Z) : Prop := x = 0 \/ x = 1.

Lemma one_hot_binary (v : str) (options : list str) : Forall binary (one_hot v options).
Proof.
  unfold one_hot. induction options as [|k options IH]; [constructor|].
  simpl. constructor; [|done]. unfold binary. destruct (decide (k = v)); tauto.
Qed.

Lemma flag_value_binary (items : list str) (k : str) : binary (flag_value items k).
Proof.
  unfold flag_value, binary. destruct (decide (k = GITA)).
  - destruct (decide (has_other items)); tauto.
  - destruct (decide (k ∈ items)); tauto.
Qed.

Lemma row_of_binary (r : visit) : Forall binary (tail (row_of r)).
Proof.
  unfold row_of. cbn [tail app].
  repeat (apply Forall_app; split); try apply one_hot_binary.
  unfold purpose_block.
  induction PURPOSE_OPTIONS as [|k l IH]; [constructor|].
  simpl. constructor; [apply flag_value_binary|done].
Qed.

Lemma row_of_cell (r : visit) (j : nat) :
  (1 <= j < length sub_headers)%nat ->
  exists x, row_of r !! j = Some x /\ binary x.
Proof.
  intros [H1 H2]. rewrite <- (length_row_of r) in H2.
  destruct (lookup_lt_is_Some_2 (row_of r) j H2) as [x Hx].
  exists x. split; [done|].
  pose proof (row_of_binary r) as Hb. rewrite list.Forall_forall in Hb.
  apply Hb. destruct j as [|i]; [lia|].
  destruct (row_of r) as [|y l]; [done|].
  simpl. by eapply list_elem_of_lookup_2.
Qed.

Lemma col_sum_bounds (j : nat) (df : DataFrame) :
  (1 <= j < length sub_headers)%nat ->
  0 <= col_sum j (List.map row_of df) <= Z.of_nat (length df).
Proof.
  intros Hj. induction df as [|r df IH].
  - unfold col_sum. simpl. unfold sum_Z. simpl. lia.
  - simpl List.map. rewrite col_sum_cons.
    destruct (row_of_cell r j Hj) as (x & -> & [-> | ->]); simpl default; simpl length; lia.
Qed.

(** X21: in every checksheet the first cell of a data row is the id of its
    visit, each other cell is 0 or 1, and each total lies between 0 and the
    number of visits. *)
Theorem checksheet_cells_bounded (df : DataFrame) :
  exists sums rows,
    build_checksheet_matrix df = Some (sub_headers, sums, rows)
    /\ List.map (fun row => row !! 0%nat) rows = List.map (fun r => Some (id r)) df
    /\ forall j, (1 <= j < length sub_headers)%nat ->
         Forall (fun row => row !! j = Some 0 \/ row !! j = Some 1) rows
         /\ exists n, sums !! j = Some (CInt n) /\ 0 <= n <= Z.of_nat (length df).
Proof.
  exists (totals_of df), (List.map row_of df).
  split; [apply matrix_closed_form|]. split.
  - rewrite List.map_map. by apply List.map_ext.
  - intros j Hj. split.
    + apply list.Forall_forall. intros row (r & -> & _)%list_elem_of_fmap.
      destruct (row_of_cell r j Hj) as (x & -> & [-> | ->]); tauto.
    + eexists. split; [by apply totals_lookup|]. by apply col_sum_bounds.
Qed.

Definition PC_PRINTER_COLUMN : nat := 15.

Lemma flag_value_pc_printer (p : option str) : flag_value (flag_items p) PC_PRINTER = 0.
Proof.
  unfold flag_value. rewrite decide_False by done.
  rewrite decide_False; [done|].
  intros Hin. apply flag_items_no_comma in Hin. apply Hin. by_decide.
Qed.

(** X22: the column of ["공용PC, 프린터"] stays empty in every checksheet:
    each data row has 0 there and so has the totals row, also for the rows
    [visitor_submit] stored for that very choice, since the comma of the
    option splits it into two items that match no option. *)
Theorem pc_printer_column_empty (df : DataFrame) :
  sub_headers !! PC_PRINTER_COLUMN = Some PC_PRINTER
  /\ exists sums rows,
       build_checksheet_matrix df = Some (sub_headers, sums, rows)
       /\ Forall (fun row => row !! PC_PRINTER_COLUMN = Some 0) rows
       /\ sums !! PC_PRINTER_COLUMN = Some (CInt 0).
Proof.
  split; [reflexivity|].
  exists (totals_of df), (List.map row_of df).
  assert (Hrows : Forall (fun row => row !! PC_PRINTER_COLUMN = Some 0)
                    (List.map row_of df)).
  { apply list.Forall_forall. intros row (r & -> & _)%list_elem_of_fmap.
    change (row_of r !! PC_PRINTER_COLUMN)
      with (Some (flag_value (flag_items (Some (py_str (purpose r)))) PC_PRINTER)).
    by rewrite flag_value_pc_printer. }
  split; [apply matrix_closed_form|]. split; [done|].
  rewrite totals_lookup by (vm_compute; lia). do 2 f_equal.
  clear -Hrows. induction df as [|r df IH]; [done|].
  simpl List.map in *. apply Forall_cons in Hrows as [Hr Hrows].
  rewrite col_sum_cons, Hr, IH by done. done.
Qed.

End MatrixFacts.

(** ** Ratio tables: labels, order and percentages *)

Module RankingFacts.
Import AggregatorFacts PercentFacts RatioFacts.

(** A table over the series [l]: one row per distinct value, with its
    number of occurrences, the larger counts first. *)
Definition ranked (l : list str) (b : list (str * Z * Q)) : Prop :=
  NoDup (List.map (fun e => e.1.1) b)
  /\ (forall x, x ∈ List.map (fun e => e.1.1) b <-> x ∈ l)
  /\ Forall (fun e => e.1.2 = count_of e.1.1 l /\ 0 < e.1.2) b
  /\ StronglySorted Z.ge (List.map (fun e => e.1.2) b).

Lemma insert_desc_sorted (e : str * Z) (l : list (str * Z)) :
  StronglySorted Z.ge (List.map snd l) ->
  StronglySorted Z.ge (List.map snd (insert_desc e l)).
Proof.
  induction l as [|h t IH]; simpl.
  - intros _. repeat constructor.
  - intros Hs. apply StronglySorted_inv in Hs as [Ht Hh].
    destruct (Z.ltb_spec e.2 h.2) as [Hlt|Hge]; simpl.
    + constructor; [by apply IH|].
      apply list.Forall_forall. intros x Hx.
      apply list_elem_of_fmap in Hx as (y & -> & Hy).
      rewrite insert_desc_perm in Hy.
      apply elem_of_cons in Hy as [->|Hy]; [lia|].
      rewrite list.Forall_forall in Hh. apply Hh.
      apply list_elem_of_fmap. by exists y.
    + constructor; [by constructor|].
      constructor; [lia|].
      eapply Forall_impl; [exact Hh|]. simpl. intros. lia.
Qed.

Lemma sort_desc_sorted (l : list (str * Z)) :
  StronglySorted Z.ge (List.map snd (sort_desc l)).
Proof.
  induction l as [|e l IH]; [constructor|].
  simpl. by apply insert_desc_sorted.
Qed.

Lemma value_counts_ranked (l : list str) : ranked l (with_percent (value_counts l)).
Proof.
  assert (E1 : List.map (fun e : str * Z * Q => e.1.1) (with_percent (value_counts l))
               = List.map fst (value_counts l)).
  { rewrite <- (with_percent_counts (value_counts l)) at 2. by rewrite List.map_map. }
  assert (E2 : List.map (fun e : str * Z * Q => e.1.2) (with_percent (value_counts l))
               = List.map snd (value_counts l)).
  { rewrite <- (with_percent_counts (value_counts l)) at 2. by rewrite List.map_map. }
  unfold ranked. rewrite E1, E2. split; [|split; [|split]].
  - apply value_counts_labels_NoDup.
  - intros x. split.
    + intros ([y c] & -> & Hy%elem_of_value_counts)%list_elem_of_fmap. tauto.
    + intros Hx. apply list_elem_of_fmap. exists (x, count_of x l).
      split; [done|]. by apply elem_of_value_counts.
  - apply list.Forall_forall. intros [[x c] p] He.
    assert (Hc : (x, c) ∈ value_counts l).
    { rewrite <- (with_percent_counts (value_counts l)).
      apply list_elem_of_fmap. by exists (x, c, p). }
    apply elem_of_value_counts in Hc as [Hx ->]. simpl.
    split; [done|]. by apply count_of_pos.
  - apply sort_desc_sorted.
Qed.

(** X23: each table of [calc_ratio] and of [calc_purpose_ratio] has one row
    per distinct value of its series, under pairwise distinct labels, with
    the number of occurrences of the value, which is positive, and the rows
    run from the largest count to the smallest. *)
Theorem ratio_tables_ranked (df : option DataFrame) (col : column) (label : str) :
  ranked (field_values col (rows_of df)) (body (calc_ratio df col label))
  /\ ranked (purpose_tokens (rows_of df)) (body (calc_purpose_ratio df)).
Proof.
  assert (Hnil : ranked [] []).
  { split; [constructor|]. split; [done|]. split; constructor. }
  destruct df as [[|r df]|]; [by split|..|by split].
  split.
  - rewrite calc_ratio_body by done. apply value_counts_ranked.
  - rewrite calc_purpose_ratio_body. apply value_counts_ranked.
Qed.

(** X24: [calc_purpose_ratio] divides by no zero: with no purpose token in
    the rows its table is empty, and otherwise its percentages add up to
    100 within 0.05 per row of the table. *)
Theorem purpose_percent_sum (df : option DataFrame) :
  let b := body (calc_purpose_ratio df) in
  (purpose_tokens (rows_of df) = [] -> b = [])
  /\ (purpose_tokens (rows_of df) <> [] ->
      (Qabs (Qsum (List.map snd b) - 100)
       <= (1 # 20) * inject_Z (Z.of_nat (length b)))%Q).
Proof.
  destruct df as [df|]; [|by split].
  cbv zeta. rewrite calc_purpose_ratio_body. simpl rows_of. split.
  - by intros ->.
  - intros Hne. apply with_percent_sum.
    rewrite value_counts_sum.
    destruct (purpose_tokens df); [done|]. simpl. lia.
Qed.

End RankingFacts.

(** ** Spreadsheet export: where the values land *)

Module XlsxFacts.
Import ChecksheetFacts MatrixFacts QueryFacts.

(** Columns 1 to 21 of a row of the sheet. *)
Definition sheet_row (ws : worksheet) (r : nat) : list (option cell) :=
  List.map (fun c => ws_cells ws !! (r, c)) (List.seq 1 (length sub_headers)).

(** The title row: each title at the first column of its span, the rest of
    the span without value. *)
Definition title_row : list (option cell) :=
  g ← group_spans; Some (CStr g.1.1) :: replicate (g.2 - g.1.2) None.

(** The sheet after the loop over [group_spans]. *)
Definition titled : worksheet :=
  foldl write_title (Worksheet (u "방문록(체크표)") ∅ []) group_spans.

Lemma write_from_lookup (rr start : nat) (vals : list cell) (ws : worksheet) (r c : nat) :
  ws_cells (foldl (fun w jv => set_value rr jv.1 jv.2 w) ws
              (zip (List.seq start (length vals)) vals)) !! (r, c)
  = if decide (r = rr /\ (start <= c < start + length vals)%nat)
    then vals !! (c - start)%nat
    else ws_cells ws !! (r, c).
Proof.
  revert start ws. induction vals as [|v vals IH]; intros start ws.
  - simpl. rewrite decide_False; [done|]. lia.
  - simpl. rewrite IH. simpl ws_cells.
    destruct (decide (r = rr /\ (S start <= c < S start + length vals)%nat)) as [[-> H]|H].
    + rewrite decide_True by lia.
      replace (c - start)%nat with (S (c - S start)) by lia. done.
    + destruct (decide ((rr, start) = (r, c))) as [[= <- <-]|Hk].
      * rewrite lookup_insert_eq, decide_True by lia.
        by replace (start - start)%nat with 0%nat by lia.
      * rewrite lookup_insert_ne by done.
        rewrite decide_False; [done|]. intros [-> H']. apply Hk. f_equal. lia.
Qed.

Lemma write_row_lookup (rr : nat) (vals : list cell) (ws : worksheet) (r c : nat) :
  ws_cells (write_row rr vals ws) !! (r, c)
  = if decide (r = rr /\ (1 <= c <= length vals)%nat)
    then vals !! (c - 1)%nat
    else ws_cells ws !! (r, c).
Proof.
  unfold write_row, enumerate. rewrite write_from_lookup.
  destruct (decide (r = rr /\ (1 <= c < 1 + length vals)%nat)) as [H|H].
  - rewrite decide_True by lia. done.
  - rewrite decide_False by lia. done.
Qed.

Lemma write_row_frame (rr : nat) (vals : list cell) (ws : worksheet) :
  ws_title (write_row rr vals ws) = ws_title ws
  /\ ws_merged (write_row rr vals ws) = ws_merged ws.
Proof.
  unfold write_row. generalize (enumerate 1 vals). intros l. revert ws.
  induction l as [|jv l IH]; intros ws; [done|]. simpl. by rewrite !(proj1 (IH _)), !(proj2 (IH _)).
Qed.

(** The value the loop over the data rows puts at a place. *)
Definition data_cell (rows : list (list Z)) (base r c : nat) : option cell :=
  if decide ((base <= r)%nat /\ (1 <= c)%nat)
  then row ← rows !! (r - base)%nat; CInt <$> row !! (c - 1)%nat
  else None.

Lemma write_rows_lookup (r0 k : nat) (rows : list (list Z)) (ws : worksheet) (r c : nat) :
  ws_cells (foldl (fun w ir => write_row (r0 + ir.1) (List.map CInt ir.2) w) ws
              (zip (List.seq k (length rows)) rows)) !! (r, c)
  = match data_cell rows (r0 + k) r c with
    | Some v => Some v
    | None => ws_cells ws !! (r, c)
    end.
Proof.
  revert k ws. induction rows as [|row rows IH]; intros k ws.
  - simpl. unfold data_cell. destruct (decide _); [|done].
    by rewrite lookup_nil.
  - simpl. rewrite IH, write_row_lookup. rewrite length_map.
    unfold data_cell.
    destruct (decide ((r0 + S k <= r)%nat /\ (1 <= c)%nat)) as [[H1 H2]|H].
    + rewrite (decide_True (P := (r0 + k <= r)%nat /\ (1 <= c)%nat)) by lia.
      replace (r - (r0 + k))%nat with (S (r - (r0 + S k))) by lia.
      cbn [lookup list_lookup].
      destruct (rows !! (r - (r0 + S k))%nat ≫= λ row0, CInt <$> row0 !! (c - 1)%nat)
        as [v|] eqn:E; [done|].
      rewrite decide_False by lia. done.
    + destruct (decide (r = (r0 + k)%nat /\ (1 <= c <= length row)%nat)) as [[-> Hc]|Hc].
      * rewrite decide_True by lia.
        replace (r0 + k - (r0 + k))%nat with 0%nat by lia. cbn [lookup list_lookup mbind option_bind].
        change ((List.map CInt row) !! (c - 1)%nat) with ((CInt <$> row) !! (c - 1)%nat).
        rewrite list_lookup_fmap.
        destruct (lookup_lt_is_Some_2 row (c - 1)%nat) as [x ->]; [lia|]. done.
      * destruct (decide ((r0 + k <= r)%nat /\ (1 <= c)%nat)) as [[H1 H2]|H']; [|done].
        assert (r = (r0 + k)%nat) as -> by lia.
        replace (r0 + k - (r0 + k))%nat with 0%nat by lia. cbn [lookup list_lookup mbind option_bind].
        rewrite lookup_ge_None_2 by lia. done.
Qed.

Lemma write_rows_frame (r0 : nat) (l : list (nat * list Z)) (ws : worksheet) :
  let ws' := foldl (fun w ir => write_row (r0 + ir.1) (List.map CInt ir.2) w) ws l in
  ws_title ws' = ws_title ws /\ ws_merged ws' = ws_merged ws.
Proof.
  revert ws. induction l as [|ir l IH]; intros ws; [done|].
  simpl. destruct (IH (write_row (r0 + ir.1) (List.map CInt ir.2) ws)) as [-> ->].
  apply write_row_frame.
Qed.

(** The sheet [make_checksheet_xlsx] builds from a matrix. *)
Definition sheet_of (sums : list cell) (rows : list (list Z)) : worksheet :=
  foldl (fun w ir => write_row (4 + ir.1) (List.map CInt ir.2) w)
    (write_row 3 sums (write_row 2 (List.map CStr sub_headers) titled))
    (enumerate 0 rows).

Lemma make_checksheet_xlsx_sheet (df : DataFrame) :
  make_checksheet_xlsx df = Some (sheet_of (totals_of df) (List.map row_of df)).
Proof. unfold make_checksheet_xlsx. by rewrite matrix_closed_form. Qed.

Lemma sheet_of_lookup (sums : list cell) (rows : list (list Z)) (r c : nat) :
  ws_cells (sheet_of sums rows) !! (r, c)
  = match data_cell rows 4 r c with
    | Some v => Some v
    | None =>
      if decide (r = 3%nat /\ (1 <= c <= length sums)%nat) then sums !! (c - 1)%nat
      else if decide (r = 2%nat /\ (1 <= c <= length sub_headers)%nat)
           then CStr <$> sub_headers !! (c - 1)%nat
           else ws_cells titled !! (r, c)
    end.
Proof.
  unfold sheet_of, enumerate.
  rewrite (write_rows_lookup 4 0). replace (4 + 0)%nat with 4%nat by lia.
  destruct (data_cell rows 4 r c); [done|].
  rewrite !write_row_lookup, length_map.
  change ((List.map CStr sub_headers) !! (c - 1)%nat)
    with ((CStr <$> sub_headers) !! (c - 1)%nat).
  by rewrite list_lookup_fmap.
Qed.

Lemma titled_cells :
  map_Forall (fun k _ => k.1 = 1%nat /\ (1 <= k.2 <= length sub_headers)%nat)
    (ws_cells titled).
Proof. by_decide. Qed.

Lemma read_columns {A B : Type} (f : option A -> B) (l : list A) (start : nat) :
  List.map (fun c => f (l !! (c - start)%nat)) (List.seq start (length l))
  = List.map (fun x => f (Some x)) l.
Proof.
  revert start. induction l as [|x l IH]; intros start; [done|].
  simpl. replace (start - start)%nat with 0%nat by lia. simpl. f_equal.
  rewrite <- (IH (S start)). apply map_ext_in. intros c Hc%in_seq.
  replace (c - start)%nat with (S (c - S start)) by lia. done.
Qed.

Lemma length_totals_of (df : DataFrame) : length (totals_of df) = length sub_headers.
Proof.
  unfold totals_of. cbn [length]. rewrite length_map, length_add_cols; [done|].
  eapply Forall_impl; [apply rows_length|]. intros row ->. reflexivity.
Qed.

Lemma data_cell_above (rows : list (list Z)) (r c : nat) :
  (r < 4)%nat -> data_cell rows 4 r c = None.
Proof. intros H. unfold data_cell. rewrite decide_False; [done|]. lia. Qed.

Lemma data_cell_row (df : DataFrame) (i c : nat) (r : visit) :
  df !! i = Some r -> (1 <= c <= length sub_headers)%nat ->
  data_cell (List.map row_of df) 4 (4 + i) c = CInt <$> row_of r !! (c - 1)%nat
  /\ is_Some (row_of r !! (c - 1)%nat).
Proof.
  intros Hi Hc. unfold data_cell. rewrite decide_True by lia.
  replace (4 + i - 4)%nat with i by lia.
  change ((List.map row_of df) !! i) with ((row_of <$> df) !! i).
  rewrite list_lookup_fmap, Hi. split; [done|].
  apply lookup_lt_is_Some_2. rewrite length_row_of. lia.
Qed.

(** X25: the sheet [make_checksheet_xlsx] writes has the group titles in
    row 1, each at the first column of its merged span, the 21 column
    headers in row 2, the totals in row 3 and the data row of the i-th visit
    in row 4 + i, every row from column 1; no other cell holds a value. *)
Theorem xlsx_layout (df : DataFrame) :
  exists ws sums rows,
    make_checksheet_xlsx df = Some ws
    /\ build_checksheet_matrix df = Some (sub_headers, sums, rows)
    /\ ws_merged ws
       = List.map (fun g => (1%nat, g.1.2, 1%nat, g.2))
           (filter (fun g => (g.1.2 < g.2)%nat) group_spans)
    /\ sheet_row ws 1 = title_row
    /\ sheet_row ws 2 = List.map (fun h => Some (CStr h)) sub_headers
    /\ sheet_row ws 3 = List.map Some sums
    /\ (forall i row, rows !! i = Some row ->
          sheet_row ws (4 + i) = List.map (fun x => Some (CInt x)) row)
    /\ (forall r c, is_Some (ws_cells ws !! (r, c)) ->
          (1 <= r < 4 + length df)%nat /\ (1 <= c <= length sub_headers)%nat).
Proof.
  exists (sheet_of (totals_of df) (List.map row_of df)), (totals_of df), (List.map row_of df).
  split; [apply make_checksheet_xlsx_sheet|].
  split; [apply matrix_closed_form|].
  split; [|split; [|split; [|split; [|split]]]].
  - unfold sheet_of. rewrite (proj2 (write_rows_frame 4 _ _)).
    by rewrite !(proj2 (write_row_frame _ _ _)).
  - transitivity (List.map (fun c => ws_cells titled !! (1%nat, c))
                    (List.seq 1 (length sub_headers))); [|by vm_compute].
    apply map_ext_in. intros c Hc%in_seq.
    rewrite sheet_of_lookup, data_cell_above by lia.
    rewrite decide_False by lia. by rewrite decide_False by lia.
  - etransitivity; [|exact (read_columns (fun x : option str => fmap (M := option) CStr x) sub_headers 1)].
    apply map_ext_in. intros c Hc%in_seq.
    rewrite sheet_of_lookup, data_cell_above by lia.
    rewrite decide_False by lia. by rewrite decide_True by lia.
  - etransitivity; [|exact (read_columns (fun x : option cell => x) (totals_of df) 1)].
    rewrite length_totals_of.
    apply map_ext_in. intros c Hc%in_seq.
    rewrite sheet_of_lookup, data_cell_above by lia.
    rewrite decide_True; [done|]. rewrite length_totals_of. lia.
  - intros i row Hi.
    change ((List.map row_of df) !! i) with ((row_of <$> df) !! i) in Hi.
    rewrite list_lookup_fmap in Hi.
    destruct (df !! i) as [r|] eqn:Er; [|done]. injection Hi as <-.
    etransitivity; [|exact (read_columns (fun x : option Z => fmap (M := option) CInt x) (row_of r) 1)].
    rewrite length_row_of.
    apply map_ext_in. intros c Hc%in_seq.
    rewrite sheet_of_lookup.
    destruct (data_cell_row df i c r Er) as [-> [x ->]]; [lia|]. done.
  - intros r c. rewrite sheet_of_lookup.
    destruct (data_cell (List.map row_of df) 4 r c) as [v|] eqn:E.
    + intros _. unfold data_cell in E.
      destruct (decide ((4 <= r)%nat /\ (1 <= c)%nat)) as [[H1 H2]|]; [|done].
      change ((List.map row_of df) !! (r - 4)%nat)
        with ((row_of <$> df) !! (r - 4)%nat) in E.
      rewrite list_lookup_fmap in E.
      destruct (df !! (r - 4)%nat) as [x|] eqn:Ex; [|done].
      apply lookup_lt_Some in Ex. simpl in E.
      destruct (row_of x !! (c - 1)%nat) as [y|] eqn:Ey; [|done].
      apply lookup_lt_Some in Ey. rewrite length_row_of in Ey. lia.
    + destruct (decide (r = 3%nat /\ (1 <= c <= length (totals_of df))%nat)) as [[-> H]|_].
      { rewrite length_totals_of in H. lia. }
      destruct (decide (r = 2%nat /\ (1 <= c <= length sub_headers)%nat)) as [[-> H]|_].
      { lia. }
      intros [v Hv]. apply titled_cells in Hv. cbn [fst snd] in Hv. lia.
Qed.

(** The number in a cell, 0 when it holds none. *)
Definition cell_int (x : option cell) : Z :=
  match x with
  | Some (CInt n) => n
  | _ => 0
  end.

(** X26: [export_checksheet_xlsx] writes no file without a login; with one
    it never fails, and in the file the data rows are the visits of
    [load_visits] in ascending order of id, the id in column 1, while each
    total of row 3 is the sum of its column over the data rows below it. *)
Theorem export_totals_row (start end_ : str) (d : db) :
  let df := load_visits start end_ d in
  export_checksheet_xlsx false start end_ d = NoFile
  /\ exists ws,
       export_checksheet_xlsx true start end_ d = File ws
       /\ List.map (fun i => ws_cells ws !! ((4 + i)%nat, 1%nat)) (List.seq 0 (length df))
          = List.map (fun r => Some (CInt (id r))) df
       /\ StronglySorted Z.le (List.map id df)
       /\ forall c, (2 <= c <= length sub_headers)%nat ->
            ws_cells ws !! (3%nat, c)
            = Some (CInt (sum_Z (List.map
                                   (fun i => cell_int (ws_cells ws !! ((4 + i)%nat, c)))
                                   (List.seq 0 (length df))))).
Proof.
  intros df. split; [done|].
  exists (sheet_of (totals_of df) (List.map row_of df)).
  split; [|split; [|split]].
  - unfold export_checksheet_xlsx. simpl negb. cbv iota. fold df.
    by rewrite make_checksheet_xlsx_sheet.
  - etransitivity; [|exact (read_columns (fun x : option visit => fmap (M := option) (fun r => CInt (id r)) x) df 0)].
    apply map_ext_in. intros i Hi%in_seq. rewrite Nat.sub_0_r.
    destruct (lookup_lt_is_Some_2 df i) as [r Er]; [lia|].
    rewrite sheet_of_lookup.
    destruct (data_cell_row df i 1 r Er) as [-> _]; [vm_compute; lia|].
    by rewrite Er.
  - subst df. unfold load_visits.
    generalize (filter (fun r => between start end_ r = true) (visits d)). intros l.
    pose proof (sort_by_id_sorted l) as Hs.
    induction Hs as [|x xs _ IH Hx]; [constructor|].
    simpl. constructor; [done|]. by apply Forall_map.
  - intros c Hc.
    rewrite sheet_of_lookup, data_cell_above by lia.
    rewrite decide_True by (rewrite length_totals_of; lia).
    rewrite totals_lookup by lia. do 2 f_equal.
    unfold col_sum. f_equal.
    etransitivity;
      [symmetry;
       exact (read_columns
                (fun x : option (list Z) =>
                   default 0 (mbind (M := option) (fun row => row !! (c - 1)%nat) x))
                (List.map row_of df) 0)|].
    rewrite length_map.
    apply map_ext_in. intros i Hi%in_seq. rewrite Nat.sub_0_r.
    destruct (lookup_lt_is_Some_2 df i) as [r Er]; [lia|].
    rewrite sheet_of_lookup.
    destruct (data_cell_row df i c r Er) as [-> [x Ex]]; [lia|].
    change ((List.map row_of df) !! i) with ((row_of <$> df) !! i).
    rewrite list_lookup_fmap, Er. simpl. by rewrite Ex.
Qed.

End XlsxFacts.

(** ** Purpose ratio: what a label can be *)

Module LabelFacts.
Import CodecFacts AggregatorFacts RatioFacts OtherTextFacts.

(** Whether the separator [", "] occurs in [s]. *)
Fixpoint has_sep (s : str) : bool :=
  match s with
  | [] => false
  | _ :: s' => startswith COMMA_SP s || has_sep s'
  end.

Lemma startswith_sep (a b : N) (r : str) :
  startswith COMMA_SP (a :: b :: r) = ((44 =? a) && (32 =? b))%N.
Proof. unfold COMMA_SP. simpl. by rewrite andb_true_r. Qed.

Lemma has_sep_one (a : N) : has_sep [a] = false.
Proof. unfold has_sep, COMMA_SP. simpl. by rewrite andb_false_r. Qed.

Lemma has_sep_prefix (a b : str) : has_sep (a ++ b) = false -> has_sep a = false.
Proof.
  induction a as [|x a IH]; [done|].
  simpl app. cbn [has_sep]. intros [H1 H2]%orb_false_iff.
  rewrite IH by done. rewrite orb_false_r.
  destruct a as [|y a]; [unfold COMMA_SP; simpl; by rewrite andb_false_r|].
  simpl app in H1. by rewrite startswith_sep in *.
Qed.

(** Reading one more character that does not complete a separator. *)
Lemma has_sep_next (x : str) (c : N) (s' : str) :
  has_sep (x ++ [c]) = false -> startswith COMMA_SP (c :: s') = false ->
  has_sep ((x ++ [c]) ++ take 1 s') = false.
Proof.
  intros Hx Hc. destruct s' as [|d s'].
  { change (take 1 []) with (@nil N). by rewrite app_nil_r. }
  change (take 1 (d :: s')) with [d]. rewrite startswith_sep in Hc.
  induction x as [|a x IH].
  - change (([] ++ [c]) ++ [d]) with [c; d].
    change (has_sep [c; d]) with (startswith COMMA_SP [c; d] || has_sep [d]).
    by rewrite startswith_sep, Hc, has_sep_one.
  - change (((a :: x) ++ [c]) ++ [d]) with (a :: (x ++ [c]) ++ [d]).
    change ((a :: x) ++ [c]) with (a :: x ++ [c]) in Hx.
    change (has_sep (a :: x ++ [c]))
      with (startswith COMMA_SP (a :: x ++ [c]) || has_sep (x ++ [c])) in Hx.
    change (has_sep (a :: (x ++ [c]) ++ [d]))
      with (startswith COMMA_SP (a :: (x ++ [c]) ++ [d]) || has_sep ((x ++ [c]) ++ [d])).
    apply orb_false_iff in Hx as [H1 H2].
    rewrite IH by done. rewrite orb_false_r.
    destruct x as [|b x].
    + change (a :: ([] ++ [c]) ++ [d]) with (a :: c :: [d]).
      change (a :: [] ++ [c]) with (a :: c :: []) in H1.
      by rewrite startswith_sep in *.
    + change (a :: ((b :: x) ++ [c]) ++ [d]) with (a :: b :: (x ++ [c]) ++ [d]).
      change (a :: (b :: x) ++ [c]) with (a :: b :: x ++ [c]) in H1.
      by rewrite startswith_sep in *.
Qed.

Lemma split_go_sep_free (n : nat) (s cur t : str) :
  (length s <= n)%nat ->
  has_sep (cur ++ take 1 s) = false ->
  t ∈ split_go COMMA_SP 0 cur s -> has_sep t = false.
Proof.
  revert s cur. induction n as [|n IH]; intros s cur Hlen Hcur Ht.
  - destruct s; [|simpl in Hlen; lia].
    apply list_elem_of_singleton in Ht as ->. by rewrite app_nil_r in Hcur.
  - destruct s as [|c s'].
    { apply list_elem_of_singleton in Ht as ->. by rewrite app_nil_r in Hcur. }
    change (split_go COMMA_SP 0 cur (c :: s'))
      with (if startswith COMMA_SP (c :: s')
            then cur :: split_go COMMA_SP 1 [] s'
            else split_go COMMA_SP 0 (cur ++ [c]) s') in Ht.
    change (take 1 (c :: s')) with [c] in Hcur.
    destruct (startswith COMMA_SP (c :: s')) eqn:Esep.
    + apply startswith_inv in Esep as [r Er].
      change (COMMA_SP ++ r) with (44%N :: 32%N :: r) in Er.
      injection Er as -> ->.
      change (split_go COMMA_SP 1 [] (32%N :: r)) with (split_go COMMA_SP 0 [] r) in Ht.
      apply elem_of_cons in Ht as [->|Ht].
      * by apply has_sep_prefix in Hcur.
      * apply (IH r []); [simpl in Hlen; lia| |done].
        destruct r as [|d r]; [done|apply has_sep_one].
    + apply (IH s' (cur ++ [c])); [simpl in Hlen; lia| |done].
      by apply has_sep_next.
Qed.

Lemma row_tokens_sep_free (r : visit) (t : str) : t ∈ row_tokens r -> has_sep t = false.
Proof.
  unfold row_tokens. intros [_ Ht]%list_elem_of_filter.
  apply (split_go_sep_free (length (or_empty (purpose r))) (or_empty (purpose r)) []);
    [done| |done].
  destruct (or_empty (purpose r)) as [|d s]; [done|apply has_sep_one].
Qed.

(** X27: no label of [calc_purpose_ratio] contains [", "], the text it
    splits on: the option ["공용PC, 프린터"] is never a row of the table,
    its visits being counted under two labels of half the name each. *)
Theorem purpose_labels_separator_free (df : option DataFrame) (x : str) (c : Z) (p : Q) :
  (x, c, p) ∈ body (calc_purpose_ratio df) ->
  has_sep x = false /\ x <> PC_PRINTER.
Proof.
  intros Hin.
  assert (Hx : has_sep x = false).
  { destruct df as [df|]; [|by apply elem_of_nil in Hin].
    apply elem_of_purpose_ratio in Hin as [Hx _].
    unfold purpose_tokens in Hx.
    apply list_elem_of_In, in_concat in Hx as (l & Hl & Hxl).
    apply in_map_iff in Hl as (r & <- & _).
    apply list_elem_of_In in Hxl. by apply row_tokens_sep_free in Hxl. }
  split; [done|]. intros ->. by vm_compute in Hx.
Qed.

Lemma purpose_labels_separator_free_witness :
  has_sep (u "공용PC") = false /\ u "공용PC" <> PC_PRINTER.
Proof.
  apply (purpose_labels_separator_free
           (Some [Visit 1 None None None None None (Some PC_PRINTER) None])
           (u "공용PC") 1 (500 # 10)%Q).
  vm_compute. left.
Defined.

End LabelFacts.
